(** * adobe_mcp.auth: OAuth 2.0 authorization-code flow with PKCE

    A shallow embedding of [src/adobe_mcp/auth.py] (with the constants of
    [src/adobe_mcp/config.py]) and the properties of its token cache, its
    redirect listener and its PKCE generator.

    Layout:
    - [Codec]: bytes, Base64 ([base64.urlsafe_b64encode]), [str.rstrip],
      SHA-256 ([hashlib.sha256]) and [urllib.parse.urlencode];
    - [Py]: the Python values that [json.load] and [response.json()] yield,
      with the operations the module applies to them;
    - [Auth]: the process state, a state-and-exception monad, and the
      functions of [auth.py], one definition per source function;
    - [Spec], the vocabulary of the statements, and the concrete worlds of
      [Scenario];
    - the theorems: the codecs, the token cache, the listener and its
      polling loop, the two entry points, the PKCE pair. *)

From Stdlib Require Import ZArith Lia Strings.Byte Strings.Ascii Strings.String.
From stdpp Require Import gmap strings list fin_maps.

#[local] Set Warnings "-register-all".
#[local] Open Scope Z_scope.

(* ===================================================================== *)
(** ** Bytes, Base64, SHA-256, URL encoding *)
(* ===================================================================== *)

Module Codec.

(** A byte as the integer [0 .. 255] it denotes. *)
Definition byte_val (b : byte) : Z := Z.of_N (Byte.to_N b).

(** [str.encode('utf-8')]: a [string] is kept as its UTF-8 bytes. *)
Definition utf8_encode (s : string) : list byte := String.list_byte_of_string s.

(** *** Base64 (base64.py over binascii.b2a_base64) *)

Definition b64_alphabet : list ascii :=
  list_ascii_of_string
    "ABCDEFGHIJKLMNOPQRSTUVWXYZabcdefghijklmnopqrstuvwxyz0123456789+/".

(** The character of a six-bit group. *)
Definition b64_char (sextet : Z) : ascii :=
  nth (Z.to_nat sextet) b64_alphabet "="%char.

(** The four six-bit groups of three bytes, most significant first. *)
Definition sextet1 (b1 : Z) : Z := b1 / 4.
Definition sextet2 (b1 b2 : Z) : Z := (b1 mod 4) * 16 + b2 / 16.
Definition sextet3 (b2 b3 : Z) : Z := (b2 mod 16) * 4 + b3 / 64.
Definition sextet4 (b3 : Z) : Z := b3 mod 64.

(** [base64.b64encode]: three bytes give four characters; a last group of
    one or two bytes is completed with zero bits and padded with ['=']. *)
Fixpoint b64encode (bs : list byte) : string :=
  match bs with
  | [] => ""
  | [x] =>
      let b1 := byte_val x in
      String (b64_char (sextet1 b1)) (String (b64_char (sextet2 b1 0)) "==")
  | [x; y] =>
      let b1 := byte_val x in
      let b2 := byte_val y in
      String (b64_char (sextet1 b1)) (String (b64_char (sextet2 b1 b2))
        (String (b64_char (sextet3 b2 0)) "="))
  | x :: y :: z :: rest =>
      let b1 := byte_val x in
      let b2 := byte_val y in
      let b3 := byte_val z in
      String (b64_char (sextet1 b1)) (String (b64_char (sextet2 b1 b2))
        (String (b64_char (sextet3 b2 b3)) (String (b64_char (sextet4 b3))
          (b64encode rest))))
  end.

(** [_urlsafe_encode_translation = bytes.maketrans(b'+/', b'-_')]. *)
Definition urlsafe_translate (c : ascii) : ascii :=
  if Ascii.eqb c "+" then "-"%char
  else if Ascii.eqb c "/" then "_"%char
  else c.

Fixpoint translate (f : ascii -> ascii) (s : string) : string :=
  match s with
  | EmptyString => EmptyString
  | String c r => String (f c) (translate f r)
  end.

(** [base64.urlsafe_b64encode(s) = b64encode(s).translate(...)]. *)
Definition urlsafe_b64encode (bs : list byte) : string :=
  translate urlsafe_translate (b64encode bs).

(** [str.rstrip(c)] for a one-character argument: drop every trailing [c]. *)
Fixpoint rstrip (c : ascii) (s : string) : string :=
  match s with
  | EmptyString => EmptyString
  | String a r =>
      match rstrip c r with
      | EmptyString => if Ascii.eqb a c then EmptyString else String a EmptyString
      | r' => String a r'
      end
  end.

(** The encoding the specification names: RFC 4648 section 5 (alphabet
    [A-Z a-z 0-9 - _]) with no padding character emitted at all.  It is
    written independently of [b64encode], to be compared with what the
    code computes. *)
Definition b64url_alphabet : list ascii :=
  list_ascii_of_string
    "ABCDEFGHIJKLMNOPQRSTUVWXYZabcdefghijklmnopqrstuvwxyz0123456789-_".

Definition b64url_char (sextet : Z) : ascii :=
  nth (Z.to_nat sextet) b64url_alphabet "="%char.

Fixpoint base64url_nopad (bs : list byte) : string :=
  match bs with
  | [] => ""
  | [x] =>
      let b1 := byte_val x in
      String (b64url_char (sextet1 b1)) (String (b64url_char (sextet2 b1 0)) "")
  | [x; y] =>
      let b1 := byte_val x in
      let b2 := byte_val y in
      String (b64url_char (sextet1 b1)) (String (b64url_char (sextet2 b1 b2))
        (String (b64url_char (sextet3 b2 0)) ""))
  | x :: y :: z :: rest =>
      let b1 := byte_val x in
      let b2 := byte_val y in
      let b3 := byte_val z in
      String (b64url_char (sextet1 b1)) (String (b64url_char (sextet2 b1 b2))
        (String (b64url_char (sextet3 b2 b3)) (String (b64url_char (sextet4 b3))
          (base64url_nopad rest))))
  end.

(** The characters RFC 3986 calls unreserved, which is what "URL-safe"
    means for a PKCE verifier (RFC 7636 section 4.1). *)
Definition url_safe_char (c : ascii) : bool :=
  let n := Z.of_N (N_of_ascii c) in
  ((65 <=? n) && (n <=? 90)) || ((97 <=? n) && (n <=? 122))
  || ((48 <=? n) && (n <=? 57))
  || (n =? 45) || (n =? 46) || (n =? 95) || (n =? 126).

Fixpoint string_forallb (p : ascii -> bool) (s : string) : bool :=
  match s with
  | EmptyString => true
  | String c r => p c && string_forallb p r
  end.

(** *** SHA-256 (FIPS 180-4), the function behind [hashlib.sha256] *)

Definition w32 (x : Z) : Z := x mod 4294967296.
Definition add32 (x y : Z) : Z := w32 (x + y).
Definition rotr (n x : Z) : Z :=
  Z.lor (Z.shiftr x n) (w32 (Z.shiftl x (32 - n))).
Definition shr (n x : Z) : Z := Z.shiftr x n.
Definition not32 (x : Z) : Z := 4294967295 - x.

Definition Ch (x y z : Z) : Z := Z.lxor (Z.land x y) (Z.land (not32 x) z).
Definition Maj (x y z : Z) : Z :=
  Z.lxor (Z.lxor (Z.land x y) (Z.land x z)) (Z.land y z).
Definition bigsigma0 (x : Z) : Z :=
  Z.lxor (Z.lxor (rotr 2 x) (rotr 13 x)) (rotr 22 x).
Definition bigsigma1 (x : Z) : Z :=
  Z.lxor (Z.lxor (rotr 6 x) (rotr 11 x)) (rotr 25 x).
Definition smallsigma0 (x : Z) : Z :=
  Z.lxor (Z.lxor (rotr 7 x) (rotr 18 x)) (shr 3 x).
Definition smallsigma1 (x : Z) : Z :=
  Z.lxor (Z.lxor (rotr 17 x) (rotr 19 x)) (shr 10 x).

(** FIPS 180-4, 4.2.2 and 5.3.3: the round constants are the first 32
    bits of the fractional parts of the cube roots of the first sixty-four
    primes, the initial hash value those of the square roots of the first
    eight. *)
Definition first_primes : list Z :=
  [2; 3; 5; 7; 11; 13; 17; 19; 23; 29; 31; 37; 41; 43; 47; 53;
   59; 61; 67; 71; 73; 79; 83; 89; 97; 101; 103; 107; 109; 113; 127; 131;
   137; 139; 149; 151; 157; 163; 167; 173; 179; 181; 191; 193; 197; 199;
   211; 223; 227; 229; 233; 239; 241; 251; 257; 263; 269; 271; 277; 281;
   283; 293; 307; 311].

(** The integer cube root, found bit by bit from the top. *)
Fixpoint cube_root_from (bit : nat) (n root : Z) : Z :=
  match bit with
  | O => root
  | S bit' =>
      let candidate := root + 2 ^ Z.of_nat bit' in
      cube_root_from bit' n
        (if candidate * candidate * candidate <=? n then candidate else root)
  end.

Definition frac_cube_root (p : Z) : Z := w32 (cube_root_from 40 (p * 2 ^ 96) 0).
Definition frac_square_root (p : Z) : Z := w32 (Z.sqrt (p * 2 ^ 64)).

Definition round_constants : list Z :=
  Eval vm_compute in map frac_cube_root first_primes.

(** The eight working words. *)
Record hash_state := HashState {
  ha : Z; hb : Z; hc : Z; hd : Z; he : Z; hf : Z; hg : Z; hh : Z
}.

Definition initial_hash : hash_state :=
  Eval vm_compute in
    HashState (frac_square_root 2) (frac_square_root 3)
              (frac_square_root 5) (frac_square_root 7)
              (frac_square_root 11) (frac_square_root 13)
              (frac_square_root 17) (frac_square_root 19).

(** Padding: a [0x80] byte, zero bytes up to 56 modulo 64, then the
    message length in bits as eight big-endian bytes. *)
Definition be_bytes (width : nat) (x : Z) : list Z :=
  map (fun i => (x / 256 ^ Z.of_nat (width - 1 - i)) mod 256) (seq 0 width).

Definition sha_pad (msg : list Z) : list Z :=
  let len := Z.of_nat (length msg) in
  msg ++ [128] ++ repeat 0 (Z.to_nat ((55 - len) mod 64))
      ++ be_bytes 8 (8 * len).

Fixpoint be_words (n : nat) (bs : list Z) : list Z :=
  match n, bs with
  | S n', b0 :: b1 :: b2 :: b3 :: rest =>
      (((b0 * 256 + b1) * 256 + b2) * 256 + b3) :: be_words n' rest
  | _, _ => []
  end.

(** The message schedule, grown from the sixteen words of the block. *)
Fixpoint extend_schedule (n : nat) (w : list Z) : list Z :=
  match n with
  | O => w
  | S n' =>
      let t := length w in
      let at_back k := nth (t - k) w 0 in
      extend_schedule n'
        (w ++ [add32 (add32 (smallsigma1 (at_back 2%nat)) (at_back 7%nat))
                     (add32 (smallsigma0 (at_back 15%nat)) (at_back 16%nat))])
  end.

Definition sha_round (s : hash_state) (kw : Z * Z) : hash_state :=
  let t1 := add32 (add32 (add32 (hh s) (bigsigma1 (he s)))
                         (add32 (Ch (he s) (hf s) (hg s)) (fst kw))) (snd kw) in
  let t2 := add32 (bigsigma0 (ha s)) (Maj (ha s) (hb s) (hc s)) in
  HashState (add32 t1 t2) (ha s) (hb s) (hc s)
            (add32 (hd s) t1) (he s) (hf s) (hg s).

Definition sha_block (s : hash_state) (block : list Z) : hash_state :=
  let w := extend_schedule 48 (be_words 16 block) in
  let r := fold_left sha_round (combine round_constants w) s in
  HashState (add32 (ha s) (ha r)) (add32 (hb s) (hb r))
            (add32 (hc s) (hc r)) (add32 (hd s) (hd r))
            (add32 (he s) (he r)) (add32 (hf s) (hf r))
            (add32 (hg s) (hg r)) (add32 (hh s) (hh r)).

Fixpoint sha_blocks (n : nat) (s : hash_state) (bs : list Z) : hash_state :=
  match n with
  | O => s
  | S n' => sha_blocks n' (sha_block s (firstn 64 bs)) (skipn 64 bs)
  end.

Definition to_byte (x : Z) : byte :=
  match Byte.of_N (Z.to_N (x mod 256)) with
  | Some b => b
  | None => x00
  end.

Definition word_bytes (x : Z) : list byte := map to_byte (be_bytes 4 x).

Definition digest_bytes (s : hash_state) : list byte :=
  word_bytes (ha s) ++ word_bytes (hb s) ++ word_bytes (hc s)
  ++ word_bytes (hd s) ++ word_bytes (he s) ++ word_bytes (hf s)
  ++ word_bytes (hg s) ++ word_bytes (hh s).

(** [hashlib.sha256(data).digest()]. *)
Definition sha256 (data : list byte) : list byte :=
  let padded := sha_pad (map byte_val data) in
  digest_bytes (sha_blocks (length padded / 64) initial_hash padded).

(** *** urllib.parse.urlencode *)

Definition hex_digit (n : Z) : ascii :=
  nth (Z.to_nat n) (list_ascii_of_string "0123456789ABCDEF") "0"%char.

(** [quote_plus]: unreserved characters stay, a space becomes ['+'], every
    other byte becomes [%XX]. *)
Definition quote_plus_char (c : ascii) : string :=
  if url_safe_char c then String c ""
  else if Ascii.eqb c " " then "+"
  else let n := Z.of_N (N_of_ascii c) in
       String "%" (String (hex_digit (n / 16)) (String (hex_digit (n mod 16)) "")).

Fixpoint quote_plus (s : string) : string :=
  match s with
  | EmptyString => EmptyString
  | String c r => quote_plus_char c +:+ quote_plus r
  end.

Fixpoint urlencode (params : list (string * string)) : string :=
  match params with
  | [] => ""
  | [(k, v)] => quote_plus k +:+ "=" +:+ quote_plus v
  | (k, v) :: rest => quote_plus k +:+ "=" +:+ quote_plus v +:+ "&" +:+ urlencode rest
  end.

End Codec.

(* ===================================================================== *)
(** ** Python values and the operations auth.py applies to them *)
(* ===================================================================== *)

Module Py.

(** What [json.load] and [response.json()] return: [null] is [None],
    objects are dicts with string keys, arrays are lists.  Numbers are
    Python [int]s (unbounded); JSON numbers with a fraction or an exponent
    would be floats and are outside this model. *)
Inductive pyval :=
  | PyNone
  | PyBool (b : bool)
  | PyInt (n : Z)
  | PyStr (s : string)
  | PyList (l : list pyval)
  | PyDict (m : gmap string pyval).

(** The exceptions that can leave the functions of auth.py. *)
Inductive exn :=
  | AuthError (msg : string)   (* the module's own exception class *)
  | JSONDecodeError            (* json.load, response.json() *)
  | AttributeError             (* .get on a value that is not a dict *)
  | TypeError                  (* arithmetic, [in], item access on a wrong type *)
  | KeyError                   (* d[k] with k missing *)
  | OSError                    (* the listener's port cannot be bound *)
  | HTTPError.                 (* httpx: no response was received *)

(** The result of running Python code: a value, a raised exception, or
    [Unfinished] when the run has no end: the call is still waiting and
    will wait for ever, as [server.shutdown()] does behind a handler that
    never finishes.  The polling loop of the model carries fuel, and a
    loop cut off by its fuel would be [Unfinished] too;
    [poll_fuel_enough] shows that this never happens. *)
Inductive outcome (A : Type) :=
  | Returns (a : A)
  | Raises (e : exn)
  | Unfinished.
Arguments Returns {A} a.
Arguments Raises {A} e.
Arguments Unfinished {A}.

(** Truth value testing ([if x:]). *)
Definition truthy (v : pyval) : bool :=
  match v with
  | PyNone => false
  | PyBool b => b
  | PyInt n => negb (n =? 0)
  | PyStr s => negb (String.eqb s "")
  | PyList l => match l with [] => false | _ => true end
  | PyDict m => if decide (m = ∅) then false else true
  end.

(** [d.get(key, default)]: only dicts have the method. *)
Definition py_get (d : pyval) (key : string) (dflt : pyval) : outcome pyval :=
  match d with
  | PyDict m => Returns (default dflt (m !! key))
  | _ => Raises AttributeError
  end.

Definition is_str (k : string) (v : pyval) : bool :=
  match v with
  | PyStr s => String.eqb s k
  | _ => false
  end.

Fixpoint substring_of (k s : string) : bool :=
  String.prefix k s
  || match s with
     | EmptyString => false
     | String _ r => substring_of k r
     end.

(** [key in container] for a string [key]: key membership on a dict,
    element membership on a list, substring test on a str. *)
Definition py_contains (key : string) (container : pyval) : outcome bool :=
  match container with
  | PyDict m => Returns (bool_decide (is_Some (m !! key)))
  | PyList l => Returns (existsb (is_str key) l)
  | PyStr s => Returns (substring_of key s)
  | _ => Raises TypeError
  end.

(** [d[key]] for a string [key]. *)
Definition py_getitem (d : pyval) (key : string) : outcome pyval :=
  match d with
  | PyDict m =>
      match m !! key with
      | Some v => Returns v
      | None => Raises KeyError
      end
  | _ => Raises TypeError
  end.

(** [d[key] = v] for a string [key]. *)
Definition py_setitem (d : pyval) (key : string) (v : pyval) : outcome pyval :=
  match d with
  | PyDict m => Returns (PyDict (<[key := v]> m))
  | _ => Raises TypeError
  end.

(** The operands of [-] and [>]: [int], and [bool] as its subclass. *)
Definition as_int (v : pyval) : option Z :=
  match v with
  | PyInt n => Some n
  | PyBool b => Some (if b then 1 else 0)
  | _ => None
  end.

(** [a - b]; [None] stands for the [TypeError] of an operand that is no
    number. *)
Definition py_sub (a b : pyval) : option Z :=
  match as_int a, as_int b with
  | Some x, Some y => Some (x - y)
  | _, _ => None
  end.

End Py.
Export Py.

(* ===================================================================== *)
(** ** The process state and the functions of auth.py *)
(* ===================================================================== *)

Module Auth.

(** *** config.py *)

(** [os.getenv] without a default yields [None] for an unset variable. *)
Record config := Config {
  ADOBE_CLIENT_ID : option string;
  ADOBE_CLIENT_SECRET : option string;
  ADOBE_REDIRECT_URI : string
}.

Definition ADOBE_IMS_URL : string := "https://ims-na1.adobelogin.com".
Definition ADOBE_AUTH_URL : string := ADOBE_IMS_URL +:+ "/ims/authorize/v2".
Definition ADOBE_TOKEN_URL : string := ADOBE_IMS_URL +:+ "/ims/token/v3".

(** A value that may be [None], as a dict entry and under [str()]. *)
Definition env_value (o : option string) : pyval :=
  match o with
  | Some s => PyStr s
  | None => PyNone
  end.

Definition env_str (o : option string) : string := default "None" o.

(** *** The world auth.py runs in *)

(** [~/.adobe_mcp/tokens.json].  [json.dump] and [json.load] are taken by
    their contract: a file written by [json.dump v] loads as [v]; any
    other text makes [json.load] raise. *)
Inductive file_content :=
  | Unparseable
  | JsonText (v : pyval).

(** The socket on [("localhost", 8000)] as this process sees it. *)
Inductive listener_state :=
  | PortFree                  (* the port can be bound *)
  | Bound (serving : bool).   (* a TCPServer holds the socket; [serving]
                                 tells whether serve_forever has been
                                 started and not been told to stop *)

(** A request to the listener, as [parse_qsl(urlparse(path).query)] reads
    it: the name/value pairs of the query string, blank values dropped. *)
Definition request := list (string * string).

(** A connection made to the port.  Either the request line of a GET
    arrives on it, or nothing is sent and the client does not hang up:
    the handler then waits in [rfile.readline], which has no timeout, and
    the server, which has one thread, serves nobody else. *)
Inductive connection :=
  | Sends (query : request)
  | Silent.

(** One [time.sleep(1)] as the environment shapes it: by how many
    microseconds the sleep and the statements around it overrun the
    second (never by nothing), and who connects to the port meanwhile. *)
Record nap := Nap {
  overrun : positive;
  callers : list connection
}.

(** A reply of the token endpoint: [response.status_code], [response.text]
    and what [response.json()] yields ([None] when the text is not JSON). *)
Record response := Response {
  status_code : Z;
  text : string;
  json_body : option pyval
}.

Inductive event :=
  | Printed (line : string)
  | ServerBound                      (* socketserver.TCPServer(...) *)
  | ThreadStarted                    (* server_thread.start() *)
  | BrowserOpened (url : string)     (* webbrowser.open *)
  | Slept                            (* time.sleep(1) *)
  | Responded (status : Z) (page : string)   (* the handler's reply *)
  | ServerShutdown                   (* server.shutdown() *)
  | Posted (url : string) (data : list (string * pyval))   (* client.post *)
  | FileWritten (content : pyval).   (* open(token_file, "w") + json.dump *)

(** The wall clock is kept as [clock], its whole seconds, which is what
    [int(time.time())] gives, and [fraction], the microseconds past them;
    [time.time()] reads both.  Time passes while the program sleeps. *)
Record world := World {
  cfg : config;
  clock : Z;                            (* int(time.time()) *)
  token_file : option file_content;     (* None: the file does not exist *)
  handler_code : option string;         (* the class attribute CallbackHandler.code *)
  listener : listener_state;
  arrivals : list nap;                  (* what each successive time.sleep(1)
                                           brings *)
  replies : list response;              (* the endpoint's answers, in order *)
  urandom : nat -> byte;                (* the operating system's random bytes *)
  urandom_pos : nat;                    (* how many of them were consumed *)
  trace : list event;                   (* observable effects, oldest first *)
  fraction : Z;                         (* microseconds past [clock] *)
  stalled : bool                        (* the server thread is inside a handler
                                           that waits for a silent connection *)
}.

Definition set_clock (t : Z) (w : world) : world :=
  World (cfg w) t (token_file w) (handler_code w) (listener w) (arrivals w)
        (replies w) (urandom w) (urandom_pos w) (trace w) (fraction w) (stalled w).
Definition set_token_file (f : option file_content) (w : world) : world :=
  World (cfg w) (clock w) f (handler_code w) (listener w) (arrivals w)
        (replies w) (urandom w) (urandom_pos w) (trace w) (fraction w) (stalled w).
Definition set_handler_code (c : option string) (w : world) : world :=
  World (cfg w) (clock w) (token_file w) c (listener w) (arrivals w)
        (replies w) (urandom w) (urandom_pos w) (trace w) (fraction w) (stalled w).
Definition set_listener (l : listener_state) (w : world) : world :=
  World (cfg w) (clock w) (token_file w) (handler_code w) l (arrivals w)
        (replies w) (urandom w) (urandom_pos w) (trace w) (fraction w) (stalled w).
Definition set_arrivals (a : list nap) (w : world) : world :=
  World (cfg w) (clock w) (token_file w) (handler_code w) (listener w) a
        (replies w) (urandom w) (urandom_pos w) (trace w) (fraction w) (stalled w).
Definition set_replies (r : list response) (w : world) : world :=
  World (cfg w) (clock w) (token_file w) (handler_code w) (listener w)
        (arrivals w) r (urandom w) (urandom_pos w) (trace w) (fraction w) (stalled w).
Definition set_urandom_pos (n : nat) (w : world) : world :=
  World (cfg w) (clock w) (token_file w) (handler_code w) (listener w)
        (arrivals w) (replies w) (urandom w) n (trace w) (fraction w) (stalled w).
Definition set_stalled (b : bool) (w : world) : world :=
  World (cfg w) (clock w) (token_file w) (handler_code w) (listener w)
        (arrivals w) (replies w) (urandom w) (urandom_pos w) (trace w) (fraction w) b.
Definition log (e : event) (w : world) : world :=
  World (cfg w) (clock w) (token_file w) (handler_code w) (listener w)
        (arrivals w) (replies w) (urandom w) (urandom_pos w) (trace w ++ [e])
        (fraction w) (stalled w).

(** The wall clock in microseconds, and the world in which it reads [r]. *)
Definition one_second : Z := 1000000.

Definition reading (w : world) : Z :=
  clock w * one_second + fraction w mod one_second.

Definition set_reading (r : Z) (w : world) : world :=
  World (cfg w) (r / one_second) (token_file w) (handler_code w) (listener w)
        (arrivals w) (replies w) (urandom w) (urandom_pos w) (trace w)
        (r mod one_second) (stalled w).

(** *** State and exceptions *)

Definition M (A : Type) : Type := world -> outcome A * world.

#[export] Instance M_ret : MRet M := fun A a w => (Returns a, w).

#[export] Instance M_bind : MBind M := fun A B f m w =>
  match m w with
  | (Returns a, w') => f a w'
  | (Raises e, w') => (Raises e, w')
  | (Unfinished, w') => (Unfinished, w')
  end.

Definition raise {A} (e : exn) : M A := fun w => (Raises e, w).
Definition lift {A} (o : outcome A) : M A := fun w => (o, w).
Definition get_world : M world := fun w => (Returns w, w).
Definition modify (f : world -> world) : M unit := fun w => (Returns tt, f w).
Definition emit (e : event) : M unit := modify (log e).

(** [try: body  except AuthError as e: handler(str(e))]. *)
Definition try_except_AuthError {A} (body : M A) (handler : string -> M A) : M A :=
  fun w =>
    match body w with
    | (Raises (AuthError msg), w') => handler msg w'
    | r => r
    end.

(** *** Library calls *)

Definition print (line : string) : M unit := emit (Printed line).

(** [time.time()]: the float, here in microseconds. *)
Definition time_time : M Z := w ← get_world; mret (reading w).

(** [int(time.time())]. *)
Definition int_time_time : M Z := w ← get_world; mret (clock w).

(** [secrets.token_bytes(n)]. *)
Definition token_bytes (n : nat) : M (list byte) :=
  w ← get_world;
  modify (set_urandom_pos (urandom_pos w + n)%nat);;
  mret (map (urandom w) (seq (urandom_pos w) n)).

(** [os.path.exists(token_file)]. *)
Definition path_exists : M bool :=
  w ← get_world; mret (bool_decide (is_Some (token_file w))).

(** [with open(token_file, "r") as f: json.load(f)], the file existing. *)
Definition json_load : M pyval :=
  w ← get_world;
  match token_file w with
  | Some (JsonText v) => mret v
  | Some Unparseable => raise JSONDecodeError
  | None => raise OSError
  end.

(** [with open(token_file, "w") as f: json.dump(token_data, f)]. *)
Definition json_dump (v : pyval) : M unit :=
  modify (set_token_file (Some (JsonText v)));; emit (FileWritten v).

(** [httpx.Client(...).post(url, data=data)]. *)
Definition client_post (url : string) (data : list (string * pyval)) : M response :=
  emit (Posted url data);;
  w ← get_world;
  match replies w with
  | r :: rest => modify (set_replies rest);; mret r
  | [] => raise HTTPError
  end.

(** [response.json()]. *)
Definition response_json (r : response) : M pyval :=
  match json_body r with
  | Some v => mret v
  | None => raise JSONDecodeError
  end.

(** [socketserver.TCPServer(("localhost", 8000), CallbackHandler)]: the
    constructor binds and listens, and fails when the port cannot be
    bound ([allow_reuse_address] is left at [False]). *)
Definition tcp_server : M unit :=
  w ← get_world;
  match listener w with
  | PortFree => modify (set_listener (Bound false));; emit ServerBound
  | Bound _ => raise OSError
  end.

(** [server_thread.start()] with [target=server.serve_forever]: a new
    thread, which nothing holds yet. *)
Definition thread_start : M unit :=
  modify (set_listener (Bound true));;
  modify (set_stalled false);;
  emit ThreadStarted.

(** [server.shutdown()]: tells serve_forever to stop and waits until it
    has.  The loop stops between two requests, so the wait has no end
    when its thread is held by a handler that waits for a silent
    connection.  Nothing else is done: the socket is closed by
    [server_close()], which auth.py never calls, so the port stays bound
    when the call is over.  When it can be bound again (the socket closed
    with its server object, no connection of it left in TIME_WAIT) is up
    to the runtime and the operating system. *)
Definition server_shutdown : M unit :=
  modify (set_listener (Bound false));;
  emit ServerShutdown;;
  w ← get_world;
  if stalled w then lift Unfinished else mret tt.

Definition webbrowser_open (url : string) : M unit := emit (BrowserOpened url).

(** *** PKCE *)

(** [generate_code_verifier()]. *)
Definition generate_code_verifier : M string :=
  random ← token_bytes 32;
  mret (Codec.rstrip "=" (Codec.urlsafe_b64encode random)).

(** [generate_code_challenge(verifier)]. *)
Definition generate_code_challenge (verifier : string) : string :=
  let challenge_bytes := Codec.sha256 (Codec.utf8_encode verifier) in
  Codec.rstrip "=" (Codec.urlsafe_b64encode challenge_bytes).

(** *** The redirect listener *)

Definition success_page : string :=
  "<html><body><h1>Authentication successful!</h1><p>You can close this window now.</p></body></html>".
Definition failure_page : string :=
  "<html><body><h1>Authentication failed!</h1><p>No authorization code received.</p></body></html>".

(** [parse_qs(...)[name]]: the values given for [name], in order; the
    name is a key of the parsed query exactly when the list is not empty. *)
Definition query_values (name : string) (query : request) : list string :=
  map snd (filter (fun kv => String.eqb (fst kv) name = true) query).

(** [CallbackHandler.do_GET]. *)
Definition do_GET (query : request) : M unit :=
  match query_values "code" query with
  | code :: _ =>
      modify (set_handler_code (Some code));;
      emit (Responded 200 success_page)
  | [] =>
      emit (Responded 400 failure_page)
  end.

(** serve_forever: the connections are taken one by one, in the one
    thread of the server; a silent one holds it from then on. *)
Fixpoint serve (batch : list connection) : M unit :=
  match batch with
  | [] => mret tt
  | Sends query :: rest => do_GET query;; serve rest
  | Silent :: _ => modify (set_stalled true)
  end.

(** What a sleep brings when [arrivals] has run out: nobody connects. *)
Definition quiet_nap : nap := Nap 1 [].

(** [time.sleep(1)]: a second and more passes, during which the listener
    thread, if it is serving and not held, handles who connects. *)
Definition time_sleep : M unit :=
  w ← get_world;
  let n := default quiet_nap (head (arrivals w)) in
  modify (set_arrivals (tail (arrivals w)));;
  match listener w, stalled w with
  | Bound true, false => serve (callers n)
  | _, _ => mret tt
  end;;
  modify (set_reading (reading w + (one_second + Z.pos (overrun n))));;
  emit Slept.

(** The polling loop of [get_authorization_code]:
    [while CallbackHandler.code is None: ...], with [timeout = 300]. *)
Fixpoint wait_for_code (fuel : nat) (start_time : Z) : M unit :=
  w ← get_world;
  match handler_code w with
  | Some _ => mret tt
  | None =>
      now ← time_time;
      if now - start_time >? 300 * one_second then
        server_shutdown;;
        raise (AuthError "Authentication timed out after 5 minutes")
      else
        match fuel with
        | O => lift Unfinished
        | S fuel' => time_sleep;; wait_for_code fuel' start_time
        end
  end.

(** Rounds that the loop can take at most: every sleep lasts more than a
    second, so after 300 of them the time check fires. *)
Definition poll_fuel : nat := 300.

(** [get_authorization_code()]. *)
Definition get_authorization_code : M (option string * string) :=
  code_verifier ← generate_code_verifier;
  let code_challenge := generate_code_challenge code_verifier in
  tcp_server;;
  thread_start;;
  w ← get_world;
  let params :=
    [ ("client_id", env_str (ADOBE_CLIENT_ID (cfg w)));
      ("redirect_uri", ADOBE_REDIRECT_URI (cfg w));
      ("response_type", "code");
      ("scope", "openid,AdobeID,creative_sdk,lr_partner_apis");
      ("code_challenge_method", "S256");
      ("code_challenge", code_challenge) ] in
  let auth_url := ADOBE_AUTH_URL +:+ "?" +:+ Codec.urlencode params in
  print "Opening browser for authentication...";;
  webbrowser_open auth_url;;
  print "Waiting for authentication callback...";;
  start_time ← time_time;
  wait_for_code poll_fuel start_time;;
  server_shutdown;;
  w' ← get_world;
  mret (handler_code w', code_verifier).

(** *** The token endpoint *)

(** [get_access_token(auth_code, code_verifier)]. *)
Definition get_access_token (auth_code : option string) (code_verifier : string)
  : M pyval :=
  w ← get_world;
  let data :=
    [ ("grant_type", PyStr "authorization_code");
      ("client_id", env_value (ADOBE_CLIENT_ID (cfg w)));
      ("client_secret", env_value (ADOBE_CLIENT_SECRET (cfg w)));
      ("code", env_value auth_code);
      ("redirect_uri", PyStr (ADOBE_REDIRECT_URI (cfg w)));
      ("code_verifier", PyStr code_verifier) ] in
  response ← client_post ADOBE_TOKEN_URL data;
  if negb (status_code response =? 200) then
    raise (AuthError ("Failed to get access token: " +:+ text response))
  else response_json response.

(** [refresh_access_token(refresh_token)]. *)
Definition refresh_access_token (refresh_token : pyval) : M pyval :=
  w ← get_world;
  let data :=
    [ ("grant_type", PyStr "refresh_token");
      ("client_id", env_value (ADOBE_CLIENT_ID (cfg w)));
      ("client_secret", env_value (ADOBE_CLIENT_SECRET (cfg w)));
      ("refresh_token", refresh_token) ] in
  response ← client_post ADOBE_TOKEN_URL data;
  if negb (status_code response =? 200) then
    raise (AuthError ("Failed to refresh access token: " +:+ text response))
  else response_json response.

(** *** The token cache *)

(** The path of the cache file, [~] standing for the user's home
    directory: the program holds and prints the path with the directory
    in its place ([os.path.expanduser]). *)
Definition token_file_path : string := "~/.adobe_mcp/tokens.json".

(** [save_tokens(token_data)].  [os.makedirs(..., exist_ok=True)] has no
    effect the model keeps: the file system is the one file. *)
Definition save_tokens (token_data : pyval) : M pyval :=
  now ← int_time_time;
  token_data ← lift (py_setitem token_data "timestamp" (PyInt now));
  json_dump token_data;;
  print ("Tokens saved to " +:+ token_file_path);;
  mret token_data.

(** The test of [load_tokens]:
    [current_time - timestamp > expires_in - 300]. *)
Definition needs_refresh (current_time : Z) (timestamp expires_in : pyval)
  : outcome bool :=
  match py_sub (PyInt current_time) timestamp, py_sub expires_in (PyInt 300) with
  | Some age, Some limit => Returns (age >? limit)
  | _, _ => Raises TypeError
  end.

(** The body of [load_tokens] under its [if]: the [try] statement. *)
Definition refresh_branch (token_data : pyval) : M pyval :=
  try_except_AuthError
    (refresh_token ← lift (py_get token_data "refresh_token" PyNone);
     if truthy refresh_token then
       new_token_data ← refresh_access_token refresh_token;
       in_new ← lift (py_contains "refresh_token" new_token_data);
       keep ← (if (in_new : bool) then mret false
               else lift (py_contains "refresh_token" token_data));
       new_token_data ←
         (if (keep : bool) then
            old ← lift (py_getitem token_data "refresh_token");
            lift (py_setitem new_token_data "refresh_token" old)
          else mret new_token_data);
       save_tokens new_token_data
     else
       (* no [return] is reached: control leaves the [if] statement *)
       mret token_data)
    (fun e => print ("Error refreshing token: " +:+ e);; mret PyNone).

(** [load_tokens()]; Python's [None] is [PyNone]. *)
Definition load_tokens : M pyval :=
  present ← path_exists;
  if negb present then mret PyNone
  else
    token_data ← json_load;
    expires_in ← lift (py_get token_data "expires_in" (PyInt 86400));
    timestamp ← lift (py_get token_data "timestamp" (PyInt 0));
    current_time ← int_time_time;
    stale ← lift (needs_refresh current_time timestamp expires_in);
    if (stale : bool) then refresh_branch token_data
    else mret token_data.

(** *** The entry points *)

(** The value of the f-string [f"Bearer {token}"]. *)
Inductive header := Bearer (token : pyval).

(** [if tokens and "access_token" in tokens], with [and] short-circuiting. *)
Definition has_access_token (tokens : pyval) : M bool :=
  if truthy tokens then lift (py_contains "access_token" tokens)
  else mret false.

(** [get_authorization_header()]; [None] is Python's [None]. *)
Definition get_authorization_header : M (option header) :=
  token_data ← load_tokens;
  usable ← has_access_token token_data;
  if negb usable then mret None
  else
    access_token ← lift (py_getitem token_data "access_token");
    mret (Some (Bearer access_token)).

(** [authenticate()]. *)
Definition authenticate : M pyval :=
  tokens ← load_tokens;
  usable ← has_access_token tokens;
  if (usable : bool) then
    print "Using existing access token";;
    mret tokens
  else
    try_except_AuthError
      ('(auth_code, code_verifier) ← get_authorization_code;
       token_data ← get_access_token auth_code code_verifier;
       save_tokens token_data)
      (fun e => print ("Authentication error: " +:+ e);; mret PyNone).

End Auth.

Import Auth.

(* ===================================================================== *)
(** ** The specification's own definitions, to compare the code with *)
(* ===================================================================== *)

Module Spec.

Definition REFRESH_MARGIN : Z := 300.

(** [isFresh(record, now)]: true when
    [now - issuedAtEpoch <= expiresInSeconds - REFRESH_MARGIN]. *)
Definition isFresh (expiresInSeconds issuedAtEpoch now : Z) : bool :=
  now - issuedAtEpoch <=? expiresInSeconds - REFRESH_MARGIN.

End Spec.

(* ===================================================================== *)
(** ** What a run leaves behind: the vocabulary of the statements *)
(* ===================================================================== *)

(** The fields [load_tokens] reads from a cached dict, with the defaults
    of its two [.get] calls. *)
Definition cached_expires_in (m : gmap string pyval) : pyval :=
  default (PyInt 86400) (m !! "expires_in").

Definition cached_timestamp (m : gmap string pyval) : pyval :=
  default (PyInt 0) (m !! "timestamp").

(** The form posted by [refresh_access_token]. *)
Definition refresh_form (c : config) (refresh_token : pyval) : list (string * pyval) :=
  [ ("grant_type", PyStr "refresh_token");
    ("client_id", env_value (ADOBE_CLIENT_ID c));
    ("client_secret", env_value (ADOBE_CLIENT_SECRET c));
    ("refresh_token", refresh_token) ].

(** The world once a POST was sent and its reply taken. *)
Definition after_post (data : list (string * pyval)) (rest : list response)
    (w : world) : world :=
  set_replies rest (log (Posted ADOBE_TOKEN_URL data) w).

(** The world once [save_tokens] stored the dict [m]. *)
Definition stamped (now : Z) (m : gmap string pyval) : gmap string pyval :=
  <["timestamp" := PyInt now]> m.

Definition after_save (m : gmap string pyval) (w : world) : world :=
  log (Printed ("Tokens saved to " +:+ token_file_path))
    (log (FileWritten (PyDict (stamped (clock w) m)))
       (set_token_file (Some (JsonText (PyDict (stamped (clock w) m)))) w)).

(** The lifetime a dict announces is an integer of at least 300 seconds,
    or is left to the default of 86400. *)
Definition lifetime_covers_margin (m : gmap string pyval) : bool :=
  match m !! "expires_in" with
  | None => true
  | Some v =>
      match as_int v with
      | Some n => 300 <=? n
      | None => false
      end
  end.

(** A computation [keeps] a relation between the worlds before and after
    it when every run of it does, whatever its outcome. *)
Definition keeps (R : relation world) {A} (m : M A) : Prop :=
  forall w, R w (m w).2.

(** A computation [finishes] when every run of it has an end: it returns
    or raises. *)
Definition finishes {A} (m : M A) : Prop :=
  forall w, (m w).1 <> Unfinished.

(** The effects of the cache path: printing, posting to the token
    endpoint, writing the cache file. *)
Definition offline_event (e : event) : bool :=
  match e with
  | Printed _ | Posted _ _ | FileWritten _ => true
  | _ => false
  end.

(** [offline w w']: from [w] to [w'] no time has passed, the listener and
    the captured code are as they were, no randomness was drawn, and the
    trace grew by offline events only. *)
Definition offline (w w' : world) : Prop :=
  cfg w' = cfg w /\ clock w' = clock w /\ handler_code w' = handler_code w
  /\ listener w' = listener w /\ arrivals w' = arrivals w
  /\ urandom_pos w' = urandom_pos w
  /\ exists evs, trace w' = trace w ++ evs /\ forallb offline_event evs = true.

(** The header made from a dict: [Bearer] of its access token, if any. *)
Definition header_of (m : gmap string pyval) : option header :=
  Bearer <$> (m !! "access_token").

Definition timeout_message : string := "Authentication timed out after 5 minutes".

Definition add_events (evs : list event) (w : world) : world :=
  World (cfg w) (clock w) (token_file w) (handler_code w) (listener w)
        (arrivals w) (replies w) (urandom w) (urandom_pos w) (trace w ++ evs)
        (fraction w) (stalled w).

Definition carries_code (q : request) : bool :=
  match query_values "code" q with
  | [] => false
  | _ :: _ => true
  end.

(** The world once the handler has answered the request [q]. *)
Definition answered (q : request) (w : world) : world :=
  match query_values "code" q with
  | code :: _ => log (Responded 200 success_page) (set_handler_code (Some code) w)
  | [] => log (Responded 400 failure_page) w
  end.

(** The world once the server thread has taken the connections of a
    sleep, as far as it gets. *)
Fixpoint served (batch : list connection) (w : world) : world :=
  match batch with
  | [] => w
  | Sends q :: rest => served rest (answered q w)
  | Silent :: _ => set_stalled true w
  end.

(** [CallbackHandler.code] once the server thread has taken the
    connections of a sleep. *)
Fixpoint captured_code (batch : list connection) (old : option string)
  : option string :=
  match batch with
  | [] => old
  | Sends q :: rest =>
      captured_code rest (match query_values "code" q with
                          | code :: _ => Some code
                          | [] => old
                          end)
  | Silent :: _ => old
  end.

(** What the next sleep brings, and how long a sleep lasts, in
    microseconds. *)
Definition next_nap (w : world) : nap := default quiet_nap (head (arrivals w)).

Definition duration (n : nap) : Z := one_second + Z.pos (overrun n).

(** The world one [time.sleep(1)] later. *)
Definition slept (w : world) : world :=
  let waited := set_arrivals (tail (arrivals w)) w in
  log Slept
    (set_reading (reading w + duration (next_nap w))
       (match listener w, stalled w with
        | Bound true, false => served (callers (next_nap w)) waited
        | _, _ => waited
        end)).

(** The world once [server.shutdown()] was called. *)
Definition shut_down (w : world) : world :=
  log ServerShutdown (set_listener (Bound false) w).

(** What a call gets that ends with [server.shutdown()] in [w]: its
    result if the server thread is free, no end if it is held. *)
Definition behind_shutdown {A} (w : world) (o : outcome A) : outcome A :=
  if stalled w then Unfinished else o.

(** The window of the loop, in microseconds. *)
Definition window : Z := 300 * one_second.

(** A connection brings a code; a connection sends its request. *)
Definition brings_code (c : connection) : bool :=
  match c with
  | Sends q => carries_code q
  | Silent => false
  end.

Definition sends (c : connection) : bool :=
  match c with
  | Sends _ => true
  | Silent => false
  end.

(** Nobody brings a code during the sleep; everybody who connects during
    it sends a request. *)
Definition without_code (n : nap) : bool :=
  forallb (fun c => negb (brings_code c)) (callers n).

Definition all_send (n : nap) : bool := forallb sends (callers n).

(** The same of the next [n] sleeps. *)
Definition quiet_for (n : nat) (w : world) : bool :=
  forallb without_code (take n (arrivals w)).

Definition all_send_for (n : nat) (w : world) : bool :=
  forallb all_send (take n (arrivals w)).

(** [untouched w w']: what neither the listener nor the loop changes, and
    a trace that only grows. *)
Definition untouched (w w' : world) : Prop :=
  cfg w' = cfg w /\ token_file w' = token_file w /\ replies w' = replies w
  /\ urandom w' = urandom w /\ urandom_pos w' = urandom_pos w
  /\ exists evs, trace w' = trace w ++ evs.

(** The verifier a call made in [w] generates, and the URL it opens. *)
Definition pkce_verifier (w : world) : string :=
  Codec.rstrip "=" (Codec.urlsafe_b64encode (map (urandom w) (seq (urandom_pos w) 32))).

Definition authorization_url (c : config) (code_challenge : string) : string :=
  ADOBE_AUTH_URL +:+ "?" +:+
  Codec.urlencode
    [ ("client_id", env_str (ADOBE_CLIENT_ID c));
      ("redirect_uri", ADOBE_REDIRECT_URI c);
      ("response_type", "code");
      ("scope", "openid,AdobeID,creative_sdk,lr_partner_apis");
      ("code_challenge_method", "S256");
      ("code_challenge", code_challenge) ].

(** What [get_authorization_code] does before its loop, and the world
    when the loop is entered: the verifier drawn, the listener serving,
    the browser opened. *)
Definition opening_events (w : world) : list event :=
  [ ServerBound; ThreadStarted;
    Printed "Opening browser for authentication...";
    BrowserOpened (authorization_url (cfg w)
                     (generate_code_challenge (pkce_verifier w)));
    Printed "Waiting for authentication callback..." ].

Definition flow_opened (w : world) : world :=
  add_events (opening_events w)
    (set_stalled false
       (set_listener (Bound true) (set_urandom_pos (urandom_pos w + 32)%nat w))).

(** The loop sleeps 300 times at most ([poll_fuel]): what the sleeps after
    those bring does not matter. *)
Definition no_code_arrives (w : world) : bool := quiet_for 300 w.

Definition everyone_sends (w : world) : bool := all_send_for 300 w.

(** How many sleeps a stretch of the trace holds. *)
Definition is_sleep (e : event) : bool :=
  match e with
  | Slept => true
  | _ => false
  end.

Definition sleeps (evs : list event) : nat :=
  length (filter (fun e => is_sleep e = true) evs).

(** A sleep is seen in the trace as the replies of the handler, if any,
    and one [Slept]. *)
Definition sleep_frame (w w' : world) : Prop :=
  cfg w' = cfg w /\ token_file w' = token_file w /\ replies w' = replies w
  /\ urandom w' = urandom w /\ urandom_pos w' = urandom_pos w
  /\ listener w' = listener w
  /\ exists evs, trace w' = trace w ++ evs /\ sleeps evs = 0%nat.

(** How long a run of sleeps lasts. *)
Definition total_duration (naps : list nap) : Z :=
  foldr (fun n acc => duration n + acc) 0 naps.

(* ===================================================================== *)
(** ** Concrete worlds *)
(* ===================================================================== *)

Module Scenario.

Definition dict (entries : list (string * pyval)) : gmap string pyval :=
  list_to_map entries.

Definition sample_config : config :=
  Config (Some "client-id") (Some "client-secret") "http://localhost:8000/callback".

(** The thirty-two octets of RFC 7636, appendix B. *)
Definition rfc7636_octets : list Z :=
  [116; 24; 223; 180; 151; 153; 224; 37; 79; 250; 96; 125; 216; 173; 187; 186;
   22; 212; 37; 77; 105; 214; 191; 240; 91; 88; 5; 88; 83; 132; 141; 121].

(** A random source that yields those octets first, then the same octets
    raised by one, by two, and so on. *)
Definition sample_urandom (n : nat) : byte :=
  Codec.to_byte (nth (n mod 32) rfc7636_octets 0 + Z.of_nat (n / 32)).

(** A process that has done nothing yet: no cache file, no captured code,
    the port free, nobody calling, the endpoint unreachable. *)
Definition idle_world (now : Z) : world :=
  World sample_config now None None PortFree [] [] sample_urandom 0 [] 0 false.

Definition with_cache (content : file_content) (w : world) : world :=
  set_token_file (Some content) w.

Definition garbled_cache_world : world :=
  with_cache Unparseable (idle_world 1700000000).

(** The scenario of the specification: a stale dict with a refresh token,
    and a reply [{"access_token": "tok2"}]. *)
Definition stale_refreshable : gmap string pyval :=
  dict [("access_token", PyStr "tok1"); ("refresh_token", PyStr "refresh1");
        ("expires_in", PyInt 3600); ("timestamp", PyInt 1700000000)].

(** (The [text] of a reply is only read when its status is not 200.) *)
Definition tok2_reply : response :=
  Response 200 "{access_token: tok2}"
           (Some (PyDict (dict [("access_token", PyStr "tok2")]))).

Definition stale_refreshable_world : world :=
  set_replies [tok2_reply]
    (with_cache (JsonText (PyDict stale_refreshable)) (idle_world 1700003400)).

Definition day_long_tokens : gmap string pyval :=
  dict [("access_token", PyStr "tok1"); ("expires_in", PyInt 86399);
        ("timestamp", PyInt 12345)].

(** A token dict with a one-minute lifetime and a refresh token, and an
    endpoint that rejects the refresh. *)
Definition short_lived_tokens : gmap string pyval :=
  dict [("access_token", PyStr "tok1"); ("refresh_token", PyStr "refresh1");
        ("expires_in", PyInt 60)].

Definition rejecting_world : world :=
  set_replies [Response 400 "invalid_grant" None] (idle_world 1700000000).

(** A reply to a refresh that grants a one-minute token. *)
Definition one_minute_reply : response :=
  Response 200 "{access_token: tok2, expires_in: 60}"
           (Some (PyDict (dict [("access_token", PyStr "tok2");
                                ("expires_in", PyInt 60)]))).

Definition one_minute_refresh_world : world :=
  set_replies [one_minute_reply]
    (with_cache (JsonText (PyDict stale_refreshable)) (idle_world 1700003400)).

(** A cached dict that is past the refresh margin (stamped 3400 seconds
    ago, valid for 3600) and has no refresh token. *)
Definition stale_unrefreshable : gmap string pyval :=
  dict [("access_token", PyStr "tok1"); ("expires_in", PyInt 3600);
        ("timestamp", PyInt 1700000000)].

Definition stale_unrefreshable_world : world :=
  with_cache (JsonText (PyDict stale_unrefreshable)) (idle_world 1700003400).

(** A process in which an earlier flow left its code in
    [CallbackHandler.code]; the endpoint rejects the exchange. *)
Definition leftover_code_world : world :=
  set_replies [Response 400 "invalid_grant" None]
    (set_handler_code (Some "OLDCODE") (idle_world 1700000000)).

(** A sleep that overruns the second by a quarter of a millisecond,
    during which the given requests arrive. *)
Definition calls (queries : list request) : nap := Nap 250 (map Sends queries).

(** The user denies consent: the one request that reaches the listener
    carries [error=access_denied] and no code. *)
Definition denied_world : world :=
  set_arrivals [ calls [ [("error", "access_denied")] ] ] (idle_world 1700000000).

(** A first flow that captures [ABC123]. *)
Definition code_arrives_world : world :=
  set_arrivals [ calls [ [("code", "ABC123"); ("state", "xyz")] ] ]
    (idle_world 1700000000).


End Scenario.

(* ===================================================================== *)
(** ** The callers of get_authorization_header *)
(* ===================================================================== *)

Module Connections.

(** The dict that [get_headers] returns. *)
Record headers := Headers {
  Authorization : header;
  X_API_Key : option string;    (* config.ADOBE_CLIENT_ID *)
  Content_Type : string
}.

(** What a connection method gives: its return value, or the error it
    raises itself ([LightroomError] in connections/lightroom.py,
    [AeroError] in connections/aero.py).  Exceptions of auth.py pass
    through as [Raises]. *)
Inductive connection_result (A : Type) :=
  | ConnectionError (msg : string)
  | Done (a : A).
Arguments ConnectionError {A} msg.
Arguments Done {A} a.

(** [LightroomConnection.get_headers] and [AeroConnection.get_headers]:
    the two methods have the same body. *)
Definition get_headers : M (connection_result headers) :=
  auth_header ← get_authorization_header;
  match auth_header with
  | None =>
      mret (ConnectionError "Not authenticated. Run authentication flow first.")
  | Some bearer =>
      w ← get_world;
      mret (Done (Headers bearer (ADOBE_CLIENT_ID (cfg w)) "application/json"))
  end.

End Connections.

(* ===================================================================== *)
(** ** Further vocabulary *)
(* ===================================================================== *)

(** The form posted by [get_access_token]. *)
Definition exchange_form (c : config) (auth_code : option string)
    (code_verifier : string) : list (string * pyval) :=
  [ ("grant_type", PyStr "authorization_code");
    ("client_id", env_value (ADOBE_CLIENT_ID c));
    ("client_secret", env_value (ADOBE_CLIENT_SECRET c));
    ("code", env_value auth_code);
    ("redirect_uri", PyStr (ADOBE_REDIRECT_URI c));
    ("code_verifier", PyStr code_verifier) ].

(** How many POSTs a stretch of the trace holds. *)
Definition is_post (e : event) : bool :=
  match e with
  | Posted _ _ => true
  | _ => false
  end.

Definition posts (evs : list event) : nat := length (filter (fun e => is_post e = true) evs).

(** The cache file holds a dict whose [timestamp] is an integer between
    [lo] and [hi]. *)
Definition stamped_between (lo hi : Z) (f : option file_content) : Prop :=
  exists m t, f = Some (JsonText (PyDict m))
              /\ m !! "timestamp" = Some (PyInt t) /\ lo <= t <= hi.

(** [written_locally w w']: time did not run backwards, and the cache
    file is either what it was or a dict stamped with a clock reading
    taken between [w] and [w']. *)
Definition written_locally (w w' : world) : Prop :=
  clock w <= clock w'
  /\ (token_file w' = token_file w
      \/ stamped_between (clock w) (clock w') (token_file w')).

(** [code_kept w w']: a code held by [CallbackHandler.code] in [w] is not
    cleared in [w']. *)
Definition code_kept (w w' : world) : Prop :=
  is_Some (handler_code w) -> is_Some (handler_code w').

(** What a quoted string is made of: unreserved characters, and the
    percent and plus signs of the escapes. *)
Definition quoted_char (c : ascii) : bool :=
  Codec.url_safe_char c || Ascii.eqb c "%" || Ascii.eqb c "+".

(** The message of [LightroomError] and [AeroError] in [get_headers]. *)
Definition not_authenticated : string :=
  "Not authenticated. Run authentication flow first.".

(** The test at the head of [authenticate]:
    [tokens = load_tokens()] and [tokens and "access_token" in tokens]. *)
Definition cache_check : M bool :=
  tokens ← load_tokens; has_access_token tokens.

(** What [authenticate] does when the test fails. *)
Definition interactive_flow : M pyval :=
  try_except_AuthError
    ('(auth_code, code_verifier) ← get_authorization_code;
     token_data ← get_access_token auth_code code_verifier;
     save_tokens token_data)
    (fun e => print ("Authentication error: " +:+ e);; mret PyNone).

Module Cases.
Import Scenario.

(** A stale dict with a refresh token, and an endpoint that rejects it. *)
Definition rejected_refresh_world : world :=
  set_replies [Response 401 "invalid_token" None]
    (with_cache (JsonText (PyDict stale_refreshable)) (idle_world 1700003400)).

(** The same cache with the endpoint out of reach. *)
Definition unreachable_world : world :=
  with_cache (JsonText (PyDict stale_refreshable)) (idle_world 1700003400).

(** The same cache, and a reply that brings a new refresh token. *)
Definition rotating_reply : response :=
  Response 200 "{access_token: tok2, refresh_token: refresh2, expires_in: 3600}"
           (Some (PyDict (dict [("access_token", PyStr "tok2");
                                ("refresh_token", PyStr "refresh2");
                                ("expires_in", PyInt 3600)]))).

Definition rotating_world : world :=
  set_replies [rotating_reply]
    (with_cache (JsonText (PyDict stale_refreshable)) (idle_world 1700003400)).

(** The same cache, and a 200 reply whose JSON is a list. *)
Definition list_reply_world : world :=
  set_replies [Response 200 "[1]" (Some (PyList [PyInt 1]))]
    (with_cache (JsonText (PyDict stale_refreshable)) (idle_world 1700003400)).

(** Two seconds in which nobody connects, then a second in which three
    requests come: one with a code, one with two codes, one with none. *)
Definition busy_world : world :=
  set_replies [Response 200 "{access_token: tok1, expires_in: 3600}"
                 (Some (PyDict (dict [("access_token", PyStr "tok1");
                                      ("expires_in", PyInt 3600)])))]
    (set_arrivals [ calls []; calls [];
                    calls [ [("code", "FIRST")];
                            [("code", "SECOND"); ("code", "THIRD")];
                            [("state", "xyz")] ];
                    calls [ [("code", "LATE")] ] ]
       (idle_world 1700000000)).

(** The redirect with the code arrives, and with it a connection on which
    nothing is sent. *)
Definition silent_world : world :=
  set_arrivals [ Nap 250 [ Sends [("code", "ABC123")]; Silent ] ]
    (idle_world 1700000000).

(** A code arrives; the endpoint rejects the exchange. *)
Definition rejected_exchange_world : world :=
  set_replies [Response 400 "invalid_grant" None] code_arrives_world.

(** Port 8000 is held by the server of an earlier call. *)
Definition port_taken_world : world :=
  set_listener (Bound false) (idle_world 1700000000).

(** A cache stamped 100 seconds ago. *)
Definition fresh_tokens : gmap string pyval :=
  dict [("access_token", PyStr "tok1"); ("expires_in", PyInt 3600);
        ("timestamp", PyInt 1700000000)].

Definition fresh_world : world :=
  with_cache (JsonText (PyDict fresh_tokens)) (idle_world 1700000100).

End Cases.

(* ===================================================================== *)
(** ** Known answers *)
(* ===================================================================== *)

(** Known answers: FIPS 180-4's ["abc"] vector and the PKCE pair of
    RFC 7636, appendix B. *)
Example sha256_abc :
  map Codec.byte_val (Codec.sha256 (Codec.utf8_encode "abc"))
  = [0xba; 0x78; 0x16; 0xbf; 0x8f; 0x01; 0xcf; 0xea;
     0x41; 0x41; 0x40; 0xde; 0x5d; 0xae; 0x22; 0x23;
     0xb0; 0x03; 0x61; 0xa3; 0x96; 0x17; 0x7a; 0x9c;
     0xb4; 0x10; 0xff; 0x61; 0xf2; 0x00; 0x15; 0xad].
Proof. vm_compute. reflexivity. Qed.

Example rfc7636_appendix_b :
  Codec.rstrip "="
    (Codec.urlsafe_b64encode
       (Codec.sha256 (Codec.utf8_encode "dBjftJeZ4CVP-mB92K27uhbUJU1p1r_wW1gFWFOEjXk")))
  = "E9Melhoa2OwvFrEMTJguCHaoeK1t8URWbuGJSstw-cM".
Proof. vm_compute. reflexivity. Qed.

Example urlencode_redirect_uri :
  Codec.urlencode [("redirect_uri", "http://localhost:8000/callback");
                   ("scope", "openid,AdobeID")]
  = "redirect_uri=http%3A%2F%2Flocalhost%3A8000%2Fcallback&scope=openid%2CAdobeID".
Proof. vm_compute. reflexivity. Qed.

(* ===================================================================== *)
(** ** Facts about the codecs *)
(* ===================================================================== *)

Section CodecFacts.
Import Codec.

Lemma byte_val_range (b : byte) : 0 <= byte_val b < 256.
Proof.
  unfold byte_val. pose proof (Byte.to_N_bounded b) as H. lia.
Qed.

Lemma byte_val_inj (a b : byte) : byte_val a = byte_val b -> a = b.
Proof.
  unfold byte_val. intros H.
  assert (E : Byte.to_N a = Byte.to_N b) by lia.
  assert (S : Some a = Some b)
    by (rewrite <- (Byte.of_to_N a), <- (Byte.of_to_N b), E; reflexivity).
  congruence.
Qed.

Lemma sextet1_range b : 0 <= b < 256 -> 0 <= sextet1 b < 64.
Proof. unfold sextet1. intros. split; [apply Z.div_pos | apply Z.div_lt_upper_bound]; lia. Qed.

Lemma sextet2_range b1 b2 : 0 <= b2 < 256 -> 0 <= sextet2 b1 b2 < 64.
Proof.
  unfold sextet2. intros.
  pose proof (Z.mod_pos_bound b1 4). 
  assert (0 <= b2 / 16 < 16)
    by (split; [apply Z.div_pos | apply Z.div_lt_upper_bound]; lia).
  lia.
Qed.

Lemma sextet3_range b2 b3 : 0 <= b3 < 256 -> 0 <= sextet3 b2 b3 < 64.
Proof.
  unfold sextet3. intros.
  pose proof (Z.mod_pos_bound b2 16).
  assert (0 <= b3 / 64 < 4)
    by (split; [apply Z.div_pos | apply Z.div_lt_upper_bound]; lia).
  lia.
Qed.

Lemma sextet4_range b : 0 <= sextet4 b < 64.
Proof. unfold sextet4. apply Z.mod_pos_bound. lia. Qed.

(** A property of every six-bit group, checked by running through the
    sixty-four of them. *)
Lemma sextet_forall (p : Z -> bool) :
  forallb (fun n => p (Z.of_nat n)) (seq 0 64) = true ->
  forall i, 0 <= i < 64 -> p i = true.
Proof.
  intros H i Hi. rewrite forallb_forall in H.
  specialize (H (Z.to_nat i)). rewrite Z2Nat.id in H by lia.
  apply H, in_seq. lia.
Qed.

Lemma urlsafe_translate_b64_char i :
  0 <= i < 64 -> urlsafe_translate (b64_char i) = b64url_char i.
Proof.
  intros Hi.
  apply Ascii.eqb_eq.
  apply (sextet_forall
           (fun i => Ascii.eqb (urlsafe_translate (b64_char i)) (b64url_char i)));
    [vm_compute; reflexivity | exact Hi].
Qed.

Lemma b64url_char_not_pad i : 0 <= i < 64 -> Ascii.eqb (b64url_char i) "=" = false.
Proof.
  intros Hi.
  apply negb_true_iff.
  apply (sextet_forall (fun i => negb (Ascii.eqb (b64url_char i) "=")));
    [vm_compute; reflexivity | exact Hi].
Qed.

Lemma b64url_char_url_safe i : 0 <= i < 64 -> url_safe_char (b64url_char i) = true.
Proof.
  intros Hi.
  apply (sextet_forall (fun i => url_safe_char (b64url_char i)));
    [vm_compute; reflexivity | exact Hi].
Qed.

Lemma b64url_alphabet_NoDup : List.NoDup b64url_alphabet.
Proof.
  apply (NoDup_ListNoDup b64url_alphabet).
  apply (bool_decide_unpack _). vm_compute. reflexivity.
Qed.

Lemma b64url_char_inj i j :
  0 <= i < 64 -> 0 <= j < 64 -> b64url_char i = b64url_char j -> i = j.
Proof.
  intros Hi Hj E. unfold b64url_char in E.
  assert (L : length b64url_alphabet = 64%nat) by reflexivity.
  pose proof (proj1 (List.NoDup_nth b64url_alphabet "="%char) b64url_alphabet_NoDup
                (Z.to_nat i) (Z.to_nat j)) as N.
  rewrite L in N. specialize (N ltac:(lia) ltac:(lia) E). lia.
Qed.

(** Induction over a byte string three bytes at a time, the way Base64
    consumes it. *)
Lemma list_ind3 {A} (P : list A -> Prop) :
  P [] -> (forall x, P [x]) -> (forall x y, P [x; y]) ->
  (forall x y z l, P l -> P (x :: y :: z :: l)) ->
  forall l, P l.
Proof.
  intros H0 H1 H2 H3.
  assert (G : forall l, P l /\ (forall x, P (x :: l)) /\ (forall x y, P (x :: y :: l))).
  { induction l as [|a l (IH0 & IH1 & IH2)].
    - auto.
    - repeat split; auto. }
  intros l. apply G.
Qed.

Lemma rstrip_cons_ne c a r :
  Ascii.eqb a c = false -> rstrip c (String a r) = String a (rstrip c r).
Proof.
  intros H. simpl. rewrite H. destruct (rstrip c r); reflexivity.
Qed.

(** What auth.py computes, [urlsafe_b64encode(...).rstrip('=')], is the
    unpadded URL-safe Base64 of the specification. *)
Lemma rstrip_urlsafe_b64encode (bs : list byte) :
  rstrip "=" (urlsafe_b64encode bs) = base64url_nopad bs.
Proof.
  unfold urlsafe_b64encode.
  induction bs as [|x|x y|x y z l IH] using list_ind3.
  - reflexivity.
  - pose proof (byte_val_range x).
    cbn [b64encode translate base64url_nopad].
    rewrite !urlsafe_translate_b64_char
      by (first [apply sextet1_range | apply sextet2_range]; lia).
    rewrite !rstrip_cons_ne
      by (apply b64url_char_not_pad;
          first [apply sextet1_range | apply sextet2_range]; lia).
    reflexivity.
  - pose proof (byte_val_range x). pose proof (byte_val_range y).
    cbn [b64encode translate base64url_nopad].
    rewrite !urlsafe_translate_b64_char
      by (first [apply sextet1_range | apply sextet2_range | apply sextet3_range]; lia).
    rewrite !rstrip_cons_ne
      by (apply b64url_char_not_pad;
          first [apply sextet1_range | apply sextet2_range | apply sextet3_range]; lia).
    reflexivity.
  - pose proof (byte_val_range x). pose proof (byte_val_range y).
    pose proof (byte_val_range z).
    cbn [b64encode translate base64url_nopad].
    rewrite !urlsafe_translate_b64_char
      by (first [apply sextet1_range | apply sextet2_range
                | apply sextet3_range | apply sextet4_range]; lia).
    rewrite !rstrip_cons_ne
      by (apply b64url_char_not_pad;
          first [apply sextet1_range | apply sextet2_range
                | apply sextet3_range | apply sextet4_range]; lia).
    rewrite IH. reflexivity.
Qed.

Lemma base64url_nopad_length (bs : list byte) :
  String.length (base64url_nopad bs) = ((4 * length bs + 2) / 3)%nat.
Proof.
  induction bs as [|x|x y|x y z l IH] using list_ind3; try reflexivity.
  cbn [base64url_nopad String.length length]. rewrite IH.
  replace (4 * S (S (S (length l))) + 2)%nat
    with ((4 * length l + 2) + 4 * 3)%nat by lia.
  rewrite Nat.div_add by lia. lia.
Qed.

Lemma base64url_nopad_url_safe (bs : list byte) :
  string_forallb url_safe_char (base64url_nopad bs) = true.
Proof.
  induction bs as [|x|x y|x y z l IH] using list_ind3; try reflexivity;
    pose proof (byte_val_range x);
    try pose proof (byte_val_range y); try pose proof (byte_val_range z);
    cbn [base64url_nopad string_forallb];
    rewrite ?IH, !b64url_char_url_safe
      by (first [apply sextet1_range | apply sextet2_range
                | apply sextet3_range | apply sextet4_range]; lia);
    reflexivity.
Qed.

(** Equal six-bit groups come from equal bytes. *)
Lemma sextets_inj_1 b c :
  0 <= b < 256 -> 0 <= c < 256 ->
  sextet1 b = sextet1 c -> sextet2 b 0 = sextet2 c 0 -> b = c.
Proof.
  unfold sextet1, sextet2. intros Hb Hc E1 E2.
  rewrite (Z.div_mod b 4), (Z.div_mod c 4) by lia.
  change (0 / 16) with 0 in E2. lia.
Qed.

Lemma sextets_inj_2 b1 b2 c1 c2 :
  0 <= b1 < 256 -> 0 <= c1 < 256 -> 0 <= b2 < 256 -> 0 <= c2 < 256 ->
  sextet1 b1 = sextet1 c1 -> sextet2 b1 b2 = sextet2 c1 c2 ->
  sextet3 b2 0 = sextet3 c2 0 ->
  b1 = c1 /\ b2 = c2.
Proof.
  unfold sextet1, sextet2, sextet3. intros Hb1 Hc1 Hb2 Hc2 E1 E2 E3.
  change (0 / 64) with 0 in E3.
  pose proof (Z.div_mod b1 4 ltac:(lia)). pose proof (Z.div_mod c1 4 ltac:(lia)).
  pose proof (Z.div_mod b2 16 ltac:(lia)). pose proof (Z.div_mod c2 16 ltac:(lia)).
  pose proof (Z.mod_pos_bound b1 4 ltac:(lia)).
  pose proof (Z.mod_pos_bound c1 4 ltac:(lia)).
  pose proof (Z.mod_pos_bound b2 16 ltac:(lia)).
  pose proof (Z.mod_pos_bound c2 16 ltac:(lia)).
  assert (0 <= b2 / 16 < 16)
    by (split; [apply Z.div_pos | apply Z.div_lt_upper_bound]; lia).
  assert (0 <= c2 / 16 < 16)
    by (split; [apply Z.div_pos | apply Z.div_lt_upper_bound]; lia).
  lia.
Qed.

Lemma sextets_inj_3 b1 b2 b3 c1 c2 c3 :
  0 <= b1 < 256 -> 0 <= c1 < 256 -> 0 <= b2 < 256 -> 0 <= c2 < 256 ->
  0 <= b3 < 256 -> 0 <= c3 < 256 ->
  sextet1 b1 = sextet1 c1 -> sextet2 b1 b2 = sextet2 c1 c2 ->
  sextet3 b2 b3 = sextet3 c2 c3 -> sextet4 b3 = sextet4 c3 ->
  b1 = c1 /\ b2 = c2 /\ b3 = c3.
Proof.
  unfold sextet1, sextet2, sextet3, sextet4.
  intros Hb1 Hc1 Hb2 Hc2 Hb3 Hc3 E1 E2 E3 E4.
  pose proof (Z.div_mod b1 4 ltac:(lia)). pose proof (Z.div_mod c1 4 ltac:(lia)).
  pose proof (Z.div_mod b2 16 ltac:(lia)). pose proof (Z.div_mod c2 16 ltac:(lia)).
  pose proof (Z.div_mod b3 64 ltac:(lia)). pose proof (Z.div_mod c3 64 ltac:(lia)).
  pose proof (Z.mod_pos_bound b1 4 ltac:(lia)).
  pose proof (Z.mod_pos_bound c1 4 ltac:(lia)).
  pose proof (Z.mod_pos_bound b2 16 ltac:(lia)).
  pose proof (Z.mod_pos_bound c2 16 ltac:(lia)).
  pose proof (Z.mod_pos_bound b3 64 ltac:(lia)).
  pose proof (Z.mod_pos_bound c3 64 ltac:(lia)).
  assert (0 <= b2 / 16 < 16)
    by (split; [apply Z.div_pos | apply Z.div_lt_upper_bound]; lia).
  assert (0 <= c2 / 16 < 16)
    by (split; [apply Z.div_pos | apply Z.div_lt_upper_bound]; lia).
  assert (0 <= b3 / 64 < 4)
    by (split; [apply Z.div_pos | apply Z.div_lt_upper_bound]; lia).
  assert (0 <= c3 / 64 < 4)
    by (split; [apply Z.div_pos | apply Z.div_lt_upper_bound]; lia).
  lia.
Qed.

Ltac sextet_eq H :=
  apply b64url_char_inj in H;
  [ | first [apply sextet1_range | apply sextet2_range
            | apply sextet3_range | apply sextet4_range]; lia .. ].

(** No randomness is lost in the encoding: byte strings of one length
    with the same unpadded Base64 are the same. *)
Lemma base64url_nopad_inj (l1 : list byte) :
  forall l2, length l1 = length l2 ->
             base64url_nopad l1 = base64url_nopad l2 -> l1 = l2.
Proof.
  induction l1 as [|x|x y|x y z l IH] using list_ind3; intros l2 L E.
  - destruct l2; [reflexivity | discriminate].
  - destruct l2 as [|x' [|? ?]]; try discriminate.
    pose proof (byte_val_range x). pose proof (byte_val_range x').
    cbn [base64url_nopad] in E. injection E as E1 E2.
    sextet_eq E1. sextet_eq E2.
    f_equal. apply byte_val_inj. eapply sextets_inj_1; eauto.
  - destruct l2 as [|x' [|y' [|? ?]]]; try discriminate.
    pose proof (byte_val_range x). pose proof (byte_val_range x').
    pose proof (byte_val_range y). pose proof (byte_val_range y').
    cbn [base64url_nopad] in E. injection E as E1 E2 E3.
    sextet_eq E1. sextet_eq E2. sextet_eq E3.
    destruct (sextets_inj_2 (byte_val x) (byte_val y) (byte_val x') (byte_val y'))
      as [A B]; auto.
    apply byte_val_inj in A, B. congruence.
  - destruct l2 as [|x' [|y' [|z' l']]]; try discriminate.
    pose proof (byte_val_range x). pose proof (byte_val_range x').
    pose proof (byte_val_range y). pose proof (byte_val_range y').
    pose proof (byte_val_range z). pose proof (byte_val_range z').
    cbn [base64url_nopad] in E. injection E as E1 E2 E3 E4 E5.
    sextet_eq E1. sextet_eq E2. sextet_eq E3. sextet_eq E4.
    destruct (sextets_inj_3 (byte_val x) (byte_val y) (byte_val z)
                            (byte_val x') (byte_val y') (byte_val z'))
      as (A & B & C); auto.
    apply byte_val_inj in A, B, C.
    rewrite (IH l') by (simpl in L; lia || assumption). congruence.
Qed.

(** A SHA-256 digest is thirty-two bytes. *)
Lemma sha256_length (data : list byte) : length (sha256 data) = 32%nat.
Proof.
  unfold sha256, digest_bytes. rewrite !length_app. reflexivity.
Qed.

End CodecFacts.

(** From here on the codecs are never unfolded by simplification; they are
    run on concrete inputs only. *)
Arguments Codec.sha256 : simpl never.
Arguments Codec.urlsafe_b64encode : simpl never.
Arguments Codec.rstrip : simpl never.
Arguments Codec.urlencode : simpl never.
Arguments Auth.generate_code_challenge : simpl never.

(* ===================================================================== *)
(** ** Running the cache functions *)
(* ===================================================================== *)

Section CacheRuns.
Import Auth.

Ltac unfold_M :=
  unfold mbind, M_bind, mret, M_ret, lift, raise, get_world, modify, emit,
    print, try_except_AuthError in *.

Lemma save_tokens_dict (m : gmap string pyval) (w : world) :
  save_tokens (PyDict m) w = (Returns (PyDict (stamped (clock w) m)), after_save m w).
Proof.
  destruct w. unfold save_tokens, json_dump, int_time_time, after_save. unfold_M.
  reflexivity.
Qed.

Lemma save_tokens_not_dict (v : pyval) (w : world) :
  (forall m, v <> PyDict m) -> save_tokens v w = (Raises TypeError, w).
Proof.
  intros H. destruct w. unfold save_tokens, int_time_time. unfold_M.
  destruct v; try reflexivity. exfalso. eapply H. reflexivity.
Qed.

(** [load_tokens], branch by branch. *)
Lemma load_tokens_eq (w : world) :
  load_tokens w =
  match token_file w with
  | None => (Returns PyNone, w)
  | Some Unparseable => (Raises JSONDecodeError, w)
  | Some (JsonText (PyDict m)) =>
      match needs_refresh (clock w) (cached_timestamp m) (cached_expires_in m) with
      | Returns true => refresh_branch (PyDict m) w
      | Returns false => (Returns (PyDict m), w)
      | Raises e => (Raises e, w)
      | Unfinished => (Unfinished, w)
      end
  | Some (JsonText _) => (Raises AttributeError, w)
  end.
Proof.
  destruct w as [c t f h l a r u p tr].
  unfold load_tokens, path_exists, json_load, int_time_time. unfold_M.
  destruct f as [[|v]|]; simpl; try reflexivity.
  destruct v; simpl; try reflexivity.
  unfold cached_timestamp, cached_expires_in.
  destruct (needs_refresh _ _ _) as [[|]| |]; reflexivity.
Qed.

(** The refresh branch when the cached dict has no usable refresh token:
    control falls out of the [try] and the cached dict is returned. *)
Lemma refresh_branch_no_refresh_token (m : gmap string pyval) (w : world) :
  truthy (default PyNone (m !! "refresh_token")) = false ->
  refresh_branch (PyDict m) w = (Returns (PyDict m), w).
Proof.
  intros H. unfold refresh_branch. unfold_M. simpl. rewrite H. reflexivity.
Qed.

(** The refresh branch when the endpoint rejects the refresh token. *)
Lemma refresh_branch_rejected (m : gmap string pyval) (w : world) rt resp rest :
  truthy (default PyNone (m !! "refresh_token")) = true ->
  default PyNone (m !! "refresh_token") = rt ->
  replies w = resp :: rest ->
  status_code resp <> 200 ->
  refresh_branch (PyDict m) w =
  (Returns PyNone,
   log (Printed ("Error refreshing token: Failed to refresh access token: " +:+ text resp))
     (after_post (refresh_form (cfg w) rt) rest w)).
Proof.
  intros T E R S. destruct w as [c t f h l a r u p tr]. simpl in *. subst.
  unfold refresh_branch, refresh_access_token, client_post. unfold_M. simpl.
  rewrite T. simpl.
  assert (Q : (status_code resp =? 200) = false) by lia. rewrite Q. reflexivity.
Qed.

(** The refresh branch when the endpoint answers 200 with a JSON object:
    the old refresh token is put into the new dict if it has none, and
    the result is saved. *)
Lemma refresh_branch_accepted (m r : gmap string pyval) (w : world) rt txt rest :
  m !! "refresh_token" = Some rt ->
  truthy rt = true ->
  replies w = Response 200 txt (Some (PyDict r)) :: rest ->
  refresh_branch (PyDict m) w =
  save_tokens
    (PyDict (match r !! "refresh_token" with
             | Some _ => r
             | None => <["refresh_token" := rt]> r
             end))
    (after_post (refresh_form (cfg w) rt) rest w).
Proof.
  intros E T R. destruct w as [c t f h l a rs u p tr fr sd]. simpl in *. subst.
  unfold refresh_branch, refresh_access_token, client_post, response_json.
  unfold_M. simpl. rewrite E. simpl. rewrite T. simpl.
  destruct (r !! "refresh_token") as [x|] eqn:Er; simpl;
    rewrite ?E; simpl; rewrite save_tokens_dict; reflexivity.
Qed.

End CacheRuns.

(* ===================================================================== *)
(** ** load_tokens and save_tokens *)
(* ===================================================================== *)

Section CacheTheorems.
Import Auth Scenario.

(** C3, as the code has it.  When the cache file does not exist,
    [load_tokens] returns [None] and changes nothing.  When the file
    exists, nothing in [load_tokens] handles unusable content: if the text
    is not JSON the [JSONDecodeError] of [json.load] reaches the caller,
    and if it is JSON but not an object the [AttributeError] of [.get]
    does. *)
Theorem load_tokens_missing_or_malformed (w : world) :
  match token_file w with
  | None => load_tokens w = (Returns PyNone, w)
  | Some Unparseable => load_tokens w = (Raises JSONDecodeError, w)
  | Some (JsonText (PyDict _)) => True
  | Some (JsonText _) => load_tokens w = (Raises AttributeError, w)
  end.
Proof.
  rewrite load_tokens_eq.
  destruct (token_file w) as [[|v]|]; try reflexivity.
  destruct v; auto.
Qed.

(** C3 fails as stated: with a cache file whose text is not JSON,
    [load_tokens] raises instead of returning [None]. *)
Lemma load_tokens_raises_on_garbled_cache :
  token_file garbled_cache_world = Some Unparseable
  /\ load_tokens garbled_cache_world = (Raises JSONDecodeError, garbled_cache_world)
  /\ (load_tokens garbled_cache_world).1 <> Returns PyNone.
Proof.
  split; [reflexivity|]. split; [reflexivity|]. discriminate.
Qed.

(** C6.  A refresh of a stale cached dict that holds a refresh token,
    answered by a 200 whose JSON object has no [refresh_token] key, saves
    (and returns) the new dict with the previous refresh token added and
    the time of saving as [timestamp]; the new access token is untouched. *)
Theorem refresh_keeps_previous_refresh_token
    (w : world) (m r : gmap string pyval) (rt : pyval) (txt : string)
    (rest : list response) :
  token_file w = Some (JsonText (PyDict m)) ->
  needs_refresh (clock w) (cached_timestamp m) (cached_expires_in m) = Returns true ->
  m !! "refresh_token" = Some rt ->
  truthy rt = true ->
  replies w = Response 200 txt (Some (PyDict r)) :: rest ->
  r !! "refresh_token" = None ->
  let saved := <["timestamp" := PyInt (clock w)]> (<["refresh_token" := rt]> r) in
  exists w',
    load_tokens w = (Returns (PyDict saved), w')
    /\ token_file w' = Some (JsonText (PyDict saved))
    /\ saved !! "refresh_token" = Some rt
    /\ saved !! "access_token" = r !! "access_token".
Proof.
  intros F S E T R N saved.
  rewrite load_tokens_eq, F, S.
  rewrite (refresh_branch_accepted m r w rt txt rest E T R), N.
  rewrite save_tokens_dict.
  eexists. split; [reflexivity|].
  split; [destruct w; reflexivity|].
  subst saved. split.
  - rewrite lookup_insert_ne by discriminate. apply lookup_insert_eq.
  - rewrite !lookup_insert_ne by discriminate. reflexivity.
Qed.

(** C6 on the scenario of the specification. *)
Lemma refresh_keeps_previous_refresh_token_witness :
  let w := stale_refreshable_world in
  let saved := dict [("access_token", PyStr "tok2");
                     ("refresh_token", PyStr "refresh1");
                     ("timestamp", PyInt 1700003400)] in
  exists w',
    load_tokens w = (Returns (PyDict saved), w')
    /\ token_file w' = Some (JsonText (PyDict saved))
    /\ saved !! "refresh_token" = Some (PyStr "refresh1")
    /\ saved !! "access_token" = Some (PyStr "tok2").
Proof.
  exact (refresh_keeps_previous_refresh_token
           stale_refreshable_world stale_refreshable
           (dict [("access_token", PyStr "tok2")]) (PyStr "refresh1")
           "{access_token: tok2}" []
           eq_refl eq_refl eq_refl eq_refl eq_refl eq_refl).
Defined.

(** C7.  The test of [load_tokens] is the negation of the specification's
    [isFresh]: a cached dict is returned as it is exactly when
    [now - timestamp <= expires_in - 300], and goes through the refresh
    branch otherwise.  With [expires_in = 3600], a dict stamped 3400
    seconds ago is stale, and if it holds a refresh token the first thing
    that happens is the refresh POST; a dict stamped 100 seconds ago is
    fresh. *)
Theorem needs_refresh_iff_not_fresh
    (now issuedAtEpoch expiresInSeconds : Z) (m : gmap string pyval) (w : world) :
  let record := <["expires_in" := PyInt expiresInSeconds]>
                  (<["timestamp" := PyInt issuedAtEpoch]> m) in
  let cached := set_clock now (with_cache (JsonText (PyDict record)) w) in
  needs_refresh now (PyInt issuedAtEpoch) (PyInt expiresInSeconds)
    = Returns (negb (Spec.isFresh expiresInSeconds issuedAtEpoch now))
  /\ (Spec.isFresh expiresInSeconds issuedAtEpoch now = true
      <-> now - issuedAtEpoch <= expiresInSeconds - 300)
  /\ load_tokens cached
      = (if Spec.isFresh expiresInSeconds issuedAtEpoch now
         then (Returns (PyDict record), cached)
         else refresh_branch (PyDict record) cached)
  /\ Spec.isFresh 3600 (now - 3400) now = false
  /\ Spec.isFresh 3600 (now - 100) now = true
  /\ (let stale := <["expires_in" := PyInt 3600]>
                     (<["timestamp" := PyInt (now - 3400)]>
                        (<["refresh_token" := PyStr "r"]> m)) in
      let w0 := set_clock now (with_cache (JsonText (PyDict stale)) w) in
      exists evs,
        trace (load_tokens w0).2
        = trace w ++ Posted ADOBE_TOKEN_URL (refresh_form (cfg w) (PyStr "r")) :: evs).
Proof.
  intros record cached.
  assert (N : forall t e, needs_refresh now (PyInt t) (PyInt e)
                          = Returns (negb (Spec.isFresh e t now))).
  { intros t e. unfold needs_refresh, Spec.isFresh, Spec.REFRESH_MARGIN. simpl.
    f_equal. destruct (Z.leb_spec (now - t) (e - 300)); simpl; lia. }
  split; [apply N|].
  split; [unfold Spec.isFresh, Spec.REFRESH_MARGIN; lia|].
  split.
  { rewrite load_tokens_eq.
    replace (token_file cached) with (Some (JsonText (PyDict record)))
      by (destruct w; reflexivity).
    replace (clock cached) with now by (destruct w; reflexivity).
    unfold cached_timestamp, cached_expires_in, record.
    rewrite lookup_insert_eq, lookup_insert_ne, lookup_insert_eq by discriminate.
    cbn [default from_option id]. rewrite N.
    destruct (Spec.isFresh expiresInSeconds issuedAtEpoch now); reflexivity. }
  split; [unfold Spec.isFresh, Spec.REFRESH_MARGIN; lia|].
  split; [unfold Spec.isFresh, Spec.REFRESH_MARGIN; lia|].
  intros stale w0.
  rewrite load_tokens_eq.
  replace (token_file w0) with (Some (JsonText (PyDict stale)))
    by (destruct w; reflexivity).
  replace (clock w0) with now by (destruct w; reflexivity).
  unfold cached_timestamp, cached_expires_in, stale.
  rewrite lookup_insert_eq, lookup_insert_ne, lookup_insert_eq by discriminate.
  cbn [default from_option id]. rewrite N.
  replace (Spec.isFresh 3600 (now - 3400) now) with false
    by (unfold Spec.isFresh, Spec.REFRESH_MARGIN; lia).
  simpl. fold stale.
  assert (E : stale !! "refresh_token" = Some (PyStr "r")).
  { unfold stale. rewrite !lookup_insert_ne by discriminate. apply lookup_insert_eq. }
  destruct w as [c t f h l a rs u p tr fr sd].
  unfold refresh_branch, refresh_access_token, client_post, response_json,
    save_tokens, json_dump, int_time_time, try_except_AuthError,
    mbind, M_bind, mret, M_ret, lift, raise, get_world, modify, emit, print.
  simpl. rewrite E. simpl.
  destruct rs as [|[st tx [v|]] rest]; simpl; [eexists; reflexivity|..];
    destruct (st =? 200); simpl; try (eexists; rewrite <- ?app_assoc; reflexivity);
    destruct v; simpl; try (eexists; rewrite <- ?app_assoc; reflexivity).
  - destruct (substring_of "refresh_token" s); simpl;
      eexists; rewrite <- ?app_assoc; reflexivity.
  - destruct (existsb (is_str "refresh_token") l0); simpl;
      eexists; rewrite <- ?app_assoc; reflexivity.
  - destruct (bool_decide (is_Some (m0 !! "refresh_token"))); simpl;
      rewrite ?E; simpl; eexists; rewrite <- ?app_assoc; reflexivity.
Qed.

(** C8, as the code has it.  For a token dict whose [expires_in] is absent
    or an integer of at least 300, [load_tokens] run right after
    [save_tokens] (at the same clock reading) returns the dict that was
    saved: the input with its [timestamp] set to the clock reading at the
    save, whatever [timestamp] the input carried, every other key as it
    was. *)
Theorem load_after_save (w : world) (m : gmap string pyval) :
  lifetime_covers_margin m = true ->
  let saved := <["timestamp" := PyInt (clock w)]> m in
  exists w1,
    save_tokens (PyDict m) w = (Returns (PyDict saved), w1)
    /\ load_tokens w1 = (Returns (PyDict saved), w1)
    /\ saved !! "timestamp" = Some (PyInt (clock w))
    /\ (forall k, k <> "timestamp" -> saved !! k = m !! k).
Proof.
  intros L saved. rewrite save_tokens_dict. eexists. split; [reflexivity|].
  split; [|split].
  - rewrite load_tokens_eq.
    replace (token_file (after_save m w)) with (Some (JsonText (PyDict saved)))
      by (destruct w; reflexivity).
    replace (clock (after_save m w)) with (clock w) by (destruct w; reflexivity).
    unfold cached_timestamp, cached_expires_in, saved.
    rewrite lookup_insert_eq, lookup_insert_ne by discriminate.
    cbn [default from_option id].
    unfold lifetime_covers_margin in L. unfold needs_refresh, py_sub.
    destruct (m !! "expires_in") as [v|]; cbn [default from_option id as_int].
    + destruct (as_int v) as [n|]; [|discriminate].
      replace (clock w - clock w >? n - 300) with false by lia. reflexivity.
    + replace (clock w - clock w >? 86400 - 300) with false by lia. reflexivity.
  - apply lookup_insert_eq.
  - intros k Hk. apply lookup_insert_ne. congruence.
Qed.

(** C8 on a dict that carries a [timestamp] of its own. *)
Lemma load_after_save_witness :
  lifetime_covers_margin day_long_tokens = true
  /\ exists w1,
       save_tokens (PyDict day_long_tokens) (idle_world 1700000000)
       = (Returns (PyDict (<["timestamp" := PyInt 1700000000]> day_long_tokens)), w1)
       /\ load_tokens w1
          = (Returns (PyDict (<["timestamp" := PyInt 1700000000]> day_long_tokens)), w1)
       /\ <["timestamp" := PyInt 1700000000]> day_long_tokens !! "timestamp"
          = Some (PyInt 1700000000)
       /\ (forall k, k <> "timestamp" ->
                     <["timestamp" := PyInt 1700000000]> day_long_tokens !! k
                     = day_long_tokens !! k).
Proof.
  split; [reflexivity|].
  exact (load_after_save (idle_world 1700000000) day_long_tokens eq_refl).
Defined.

(** C8 fails as stated: the dict just saved is already past the refresh
    margin, so the [load_tokens] that follows tries to refresh it, is
    rejected, and returns [None] instead of the saved dict. *)
Lemma load_after_save_short_lived :
  let r := save_tokens (PyDict short_lived_tokens) rejecting_world in
  r.1 = Returns (PyDict (<["timestamp" := PyInt 1700000000]> short_lived_tokens))
  /\ (load_tokens r.2).1 = Returns PyNone.
Proof.
  split; vm_compute; reflexivity.
Qed.

End CacheTheorems.

(* ===================================================================== *)
(** ** What a computation leaves alone *)
(* ===================================================================== *)

(** A computation [keeps] a relation between the worlds before and after
    it when every run of it does, whatever its outcome.  For a preorder
    this is compositional: it passes through sequencing and [try]. *)
Section Frame.
Import Auth.
Context (R : relation world) `{!PreOrder R}.

Lemma keeps_mret {A} (a : A) : keeps R (mret a).
Proof. intros w. simpl. reflexivity. Qed.

Lemma keeps_raise {A} (e : exn) : keeps R (@raise A e).
Proof. intros w. simpl. reflexivity. Qed.

Lemma keeps_lift {A} (o : outcome A) : keeps R (lift o).
Proof. intros w. simpl. reflexivity. Qed.

Lemma keeps_get_world : keeps R get_world.
Proof. intros w. simpl. reflexivity. Qed.

Lemma keeps_modify (f : world -> world) : (forall w, R w (f w)) -> keeps R (modify f).
Proof. intros H w. apply H. Qed.

Lemma keeps_bind {A B} (m : M A) (f : A -> M B) :
  keeps R m -> (forall a, keeps R (f a)) -> keeps R (m ≫= f).
Proof.
  intros Hm Hf w. unfold mbind, M_bind.
  specialize (Hm w). destruct (m w) as [[a| |] w1]; simpl in *; auto.
  transitivity w1; [exact Hm | apply Hf].
Qed.

Lemma keeps_try {A} (body : M A) (handler : string -> M A) :
  keeps R body -> (forall msg, keeps R (handler msg)) ->
  keeps R (try_except_AuthError body handler).
Proof.
  intros Hb Hh w. unfold try_except_AuthError.
  specialize (Hb w). destruct (body w) as [[a|e|] w1]; simpl in *; auto.
  destruct e; simpl; auto.
  transitivity w1; [exact Hb | apply Hh].
Qed.

End Frame.

Ltac keeps_step :=
  first
    [ apply keeps_bind; [ typeclasses eauto | | intros ? ]
    | apply keeps_try; [ typeclasses eauto | | intros ? ]
    | apply keeps_mret; typeclasses eauto
    | apply keeps_raise; typeclasses eauto
    | apply keeps_lift; typeclasses eauto
    | apply keeps_get_world; typeclasses eauto
    | match goal with
      | |- keeps _ (match ?x with _ => _ end) => destruct x
      end ].

(* ===================================================================== *)
(** ** The non-interactive path *)
(* ===================================================================== *)

Section Offline.
Import Auth Scenario.

#[local] Instance offline_preorder : PreOrder offline.
Proof.
  split.
  - intros w. unfold offline. repeat split; try reflexivity.
    exists []. rewrite app_nil_r. split; reflexivity.
  - intros w1 w2 w3 (A1 & A2 & A3 & A4 & A5 & A6 & e1 & T1 & F1)
                    (B1 & B2 & B3 & B4 & B5 & B6 & e2 & T2 & F2).
    unfold offline. repeat split; try congruence.
    exists (e1 ++ e2). rewrite T2, T1, <- app_assoc. split; [reflexivity|].
    rewrite forallb_app, F1, F2. reflexivity.
Qed.

Lemma offline_emit (e : event) : offline_event e = true -> keeps offline (emit e).
Proof.
  intros H. apply keeps_modify. intros w. destruct w.
  unfold offline. simpl. repeat split; try reflexivity.
  exists [e]. split; [reflexivity|]. simpl. rewrite H. reflexivity.
Qed.

Lemma offline_set_replies rs : keeps offline (modify (set_replies rs)).
Proof.
  apply keeps_modify. intros w. destruct w.
  unfold offline. simpl. repeat split; try reflexivity.
  exists []. rewrite app_nil_r. split; reflexivity.
Qed.

Lemma offline_set_token_file f : keeps offline (modify (set_token_file f)).
Proof.
  apply keeps_modify. intros w. destruct w.
  unfold offline. simpl. repeat split; try reflexivity.
  exists []. rewrite app_nil_r. split; reflexivity.
Qed.

Create HintDb offline_db.
#[local] Hint Resolve offline_set_replies offline_set_token_file : offline_db.
#[local] Hint Extern 1 (keeps offline (emit _)) =>
  apply offline_emit; reflexivity : offline_db.

Ltac offline_tac :=
  repeat first
    [ solve [eauto with offline_db nocore]
    | progress unfold response_json, client_post, print, json_dump, int_time_time,
        path_exists, json_load, has_access_token
    | keeps_step ].

Lemma offline_save_tokens v : keeps offline (save_tokens v).
Proof. unfold save_tokens. offline_tac. Qed.
#[local] Hint Resolve offline_save_tokens : offline_db.

Lemma offline_refresh_access_token rt : keeps offline (refresh_access_token rt).
Proof. unfold refresh_access_token. offline_tac. Qed.
#[local] Hint Resolve offline_refresh_access_token : offline_db.

Lemma offline_refresh_branch v : keeps offline (refresh_branch v).
Proof. unfold refresh_branch. offline_tac. Qed.
#[local] Hint Resolve offline_refresh_branch : offline_db.

Lemma offline_load_tokens : keeps offline load_tokens.
Proof. unfold load_tokens. offline_tac. Qed.
#[local] Hint Resolve offline_load_tokens : offline_db.

Lemma offline_get_authorization_header : keeps offline get_authorization_header.
Proof. unfold get_authorization_header. offline_tac. Qed.

Lemma offline_get_access_token code verifier :
  keeps offline (get_access_token code verifier).
Proof. unfold get_access_token. offline_tac. Qed.
#[local] Hint Resolve offline_get_access_token : offline_db.

(** What [authenticate] does once it has a code: the exchange, the write
    and the handler of the [try]. *)
Lemma offline_after_flow (code : option string) (verifier : string) :
  keeps offline
    (try_except_AuthError
       (token_data ← get_access_token code verifier; save_tokens token_data)
       (fun e => print ("Authentication error: " +:+ e);; mret PyNone)).
Proof. offline_tac. Qed.

(** The test on the loaded tokens reads them and touches nothing. *)
Lemma has_access_token_world (tokens : pyval) (w : world) :
  (has_access_token tokens w).2 = w.
Proof.
  unfold has_access_token. destruct (truthy tokens); reflexivity.
Qed.

Lemma has_access_token_dict (m : gmap string pyval) (w : world) :
  has_access_token (PyDict m) w
  = (Returns (bool_decide (is_Some (m !! "access_token"))), w).
Proof.
  unfold has_access_token, truthy.
  destruct (decide (m = ∅)) as [->|]; [|reflexivity].
  rewrite lookup_empty. reflexivity.
Qed.

(** [get_authorization_header] after [load_tokens] returned a dict or
    [None]. *)
Lemma get_authorization_header_dict (w w' : world) (m : gmap string pyval) :
  load_tokens w = (Returns (PyDict m), w') ->
  get_authorization_header w = (Returns (header_of m), w').
Proof.
  intros L. unfold get_authorization_header, header_of.
  unfold mbind at 1. unfold M_bind. rewrite L.
  unfold mbind at 1. unfold M_bind. rewrite has_access_token_dict.
  destruct (m !! "access_token") as [v|] eqn:E; simpl.
  - unfold mbind, M_bind, lift, mret, M_ret. simpl. rewrite E. reflexivity.
  - reflexivity.
Qed.

Lemma get_authorization_header_none (w w' : world) :
  load_tokens w = (Returns PyNone, w') ->
  get_authorization_header w = (Returns None, w').
Proof.
  intros L. unfold get_authorization_header.
  unfold mbind at 1. unfold M_bind. rewrite L. reflexivity.
Qed.

End Offline.

(* ===================================================================== *)
(** ** The redirect listener and the polling loop *)
(* ===================================================================== *)

Section Listener.
Import Auth Scenario.

Lemma do_GET_eq (q : request) (w : world) :
  do_GET q w = (Returns tt, answered q w).
Proof.
  unfold do_GET, answered. destruct (query_values "code" q); reflexivity.
Qed.

Lemma serve_eq (batch : list connection) :
  forall w, serve batch w = (Returns tt, served batch w).
Proof.
  induction batch as [|[q|] rest IH]; intros w; try reflexivity.
  cbn [serve served]. unfold mbind, M_bind. rewrite do_GET_eq. apply IH.
Qed.

Lemma time_sleep_eq (w : world) : time_sleep w = (Returns tt, slept w).
Proof.
  unfold time_sleep, slept, next_nap, duration.
  unfold mbind at 1. unfold M_bind, get_world.
  unfold mbind at 1. unfold M_bind, modify.
  unfold mbind at 1. unfold M_bind.
  destruct (listener w) as [|[|]] eqn:L; destruct (stalled w) eqn:S;
    try (destruct w; simpl in *; subst; reflexivity).
  rewrite serve_eq. destruct w; simpl in *; subst; reflexivity.
Qed.

(** *** The clock *)

Lemma reading_set_reading (r : Z) (w : world) : reading (set_reading r w) = r.
Proof.
  unfold reading, set_reading. cbn [clock fraction].
  rewrite Z.mod_mod by (unfold one_second; lia).
  pose proof (Z.div_mod r one_second). unfold one_second in *. lia.
Qed.

Lemma reading_log e w : reading (log e w) = reading w.
Proof. destruct w; reflexivity. Qed.

Lemma duration_long (n : nap) : one_second + 1 <= duration n.
Proof. unfold duration. lia. Qed.

Lemma reading_slept (w : world) :
  reading (slept w) = reading w + duration (next_nap w).
Proof. unfold slept. rewrite reading_log. apply reading_set_reading. Qed.

Lemma reading_flow_opened w : reading (flow_opened w) = reading w.
Proof. destruct w; reflexivity. Qed.

Lemma clock_reading (w : world) : clock w = reading w / one_second.
Proof.
  unfold reading.
  assert (B : 0 <= fraction w mod one_second < one_second)
    by (apply Z.mod_pos_bound; reflexivity).
  apply Z.div_unique with (r := fraction w mod one_second); [left; exact B | lia].
Qed.

Lemma slept_clock (w : world) : clock w + 1 <= clock (slept w).
Proof.
  rewrite (clock_reading (slept w)), reading_slept.
  pose proof (duration_long (next_nap w)).
  rewrite (clock_reading w).
  assert (E : reading w / one_second + 1 = (reading w + one_second) / one_second).
  { replace (reading w + one_second) with (reading w + 1 * one_second) by lia.
    rewrite Z.div_add by (unfold one_second; lia). reflexivity. }
  rewrite E. apply Z.div_le_mono; [unfold one_second|]; lia.
Qed.

(** *** What a sleep leaves alone *)

Lemma untouched_refl w : untouched w w.
Proof.
  unfold untouched. repeat split; auto. exists []. rewrite app_nil_r. reflexivity.
Qed.

Lemma untouched_trans w1 w2 w3 : untouched w1 w2 -> untouched w2 w3 -> untouched w1 w3.
Proof.
  intros (A1 & A2 & A3 & A4 & A5 & e1 & T1) (B1 & B2 & B3 & B4 & B5 & e2 & T2).
  unfold untouched. repeat split; try congruence.
  exists (e1 ++ e2). rewrite T2, T1, <- app_assoc. reflexivity.
Qed.

Lemma answered_frame q w : sleep_frame w (answered q w).
Proof.
  unfold answered, sleep_frame.
  destruct (query_values "code" q); destruct w; simpl;
    repeat apply conj; try reflexivity; eexists; (split; [reflexivity|reflexivity]).
Qed.

Lemma served_frame (batch : list connection) :
  forall w, sleep_frame w (served batch w).
Proof.
  induction batch as [|[q|] rest IH]; intros w; cbn [served].
  - unfold sleep_frame. repeat apply conj; try reflexivity.
    exists []. rewrite app_nil_r. split; reflexivity.
  - destruct (answered_frame q w) as (A1 & A2 & A3 & A4 & A5 & A6 & e1 & T1 & S1).
    destruct (IH (answered q w)) as (B1 & B2 & B3 & B4 & B5 & B6 & e2 & T2 & S2).
    unfold sleep_frame. repeat apply conj; try congruence.
    exists (e1 ++ e2). split; [rewrite T2, T1, <- app_assoc; reflexivity|].
    unfold sleeps in *. rewrite filter_app, length_app. lia.
  - destruct w; unfold sleep_frame; simpl. repeat apply conj; try reflexivity.
    exists []. rewrite app_nil_r. split; reflexivity.
Qed.

Lemma slept_frame (w : world) :
  cfg (slept w) = cfg w /\ token_file (slept w) = token_file w
  /\ replies (slept w) = replies w /\ urandom (slept w) = urandom w
  /\ urandom_pos (slept w) = urandom_pos w /\ listener (slept w) = listener w
  /\ arrivals (slept w) = tail (arrivals w)
  /\ exists evs, trace (slept w) = trace w ++ evs /\ sleeps evs = 1%nat.
Proof.
  unfold slept.
  set (waited := set_arrivals (tail (arrivals w)) w).
  assert (W : sleep_frame w waited /\ arrivals waited = tail (arrivals w)).
  { subst waited. destruct w; unfold sleep_frame; simpl.
    repeat apply conj; try reflexivity.
    exists []. rewrite app_nil_r. split; reflexivity. }
  destruct W as [W Wa].
  assert (X : forall x, sleep_frame w x -> arrivals x = tail (arrivals w) ->
              let y := log Slept (set_reading (reading w + duration (next_nap w)) x) in
              cfg y = cfg w /\ token_file y = token_file w
              /\ replies y = replies w /\ urandom y = urandom w
              /\ urandom_pos y = urandom_pos w /\ listener y = listener w
              /\ arrivals y = tail (arrivals w)
              /\ exists evs, trace y = trace w ++ evs /\ sleeps evs = 1%nat).
  { intros x (A1 & A2 & A3 & A4 & A5 & A6 & e & T & S) Ax. cbv zeta.
    destruct x; simpl in *. repeat apply conj; auto.
    exists (e ++ [Slept]). split; [rewrite T, <- app_assoc; reflexivity|].
    unfold sleeps in *. rewrite filter_app, length_app, S. reflexivity. }
  destruct (listener w) as [|[|]]; destruct (stalled w); try (apply X; assumption).
  apply X.
  - destruct (served_frame (callers (next_nap w)) waited)
      as (B1 & B2 & B3 & B4 & B5 & B6 & e2 & T2 & S2).
    destruct W as (A1 & A2 & A3 & A4 & A5 & A6 & e1 & T1 & S1).
    unfold sleep_frame. repeat apply conj; try congruence.
    exists (e1 ++ e2). split; [rewrite T2, T1, <- app_assoc; reflexivity|].
    unfold sleeps in *. rewrite filter_app, length_app. lia.
  - assert (Q : forall b x, arrivals (served b x) = arrivals x).
    { induction b as [|[q|] r IH]; intros x; cbn [served]; auto.
      rewrite IH. unfold answered.
      destruct (query_values "code" q); destruct x; reflexivity. }
    rewrite Q. exact Wa.
Qed.

Lemma slept_arrivals w : arrivals (slept w) = tail (arrivals w).
Proof. apply (slept_frame w). Qed.

Lemma slept_token_file w : token_file (slept w) = token_file w.
Proof. apply (slept_frame w). Qed.

Lemma untouched_slept w : untouched w (slept w).
Proof.
  destruct (slept_frame w) as (A1 & A2 & A3 & A4 & A5 & _ & _ & e & T & _).
  unfold untouched. repeat apply conj; auto. exists e. exact T.
Qed.

(** [n] sleeps in a row. *)
Lemma sleeps_frame (n : nat) :
  forall w,
    let w' := Nat.iter n slept w in
    untouched w w' /\ listener w' = listener w
    /\ arrivals w' = drop n (arrivals w)
    /\ exists evs, trace w' = trace w ++ evs /\ sleeps evs = n.
Proof.
  induction n as [|n IH]; intros w; cbv zeta.
  - simpl. split; [apply untouched_refl|]. split; [reflexivity|].
    split; [reflexivity|].
    exists []. rewrite app_nil_r. split; reflexivity.
  - rewrite Nat.iter_succ_r.
    destruct (IH (slept w)) as (U & L & A & e2 & T2 & S2).
    destruct (slept_frame w) as (_ & _ & _ & _ & _ & L1 & A1 & e1 & T1 & S1).
    split; [|split; [|split]].
    + eapply untouched_trans; [apply untouched_slept | exact U].
    + congruence.
    + rewrite A, A1. destruct (arrivals w); simpl; rewrite ?drop_nil; reflexivity.
    + exists (e1 ++ e2). split; [rewrite T2, T1, <- app_assoc; reflexivity|].
      unfold sleeps in *. rewrite filter_app, length_app. lia.
Qed.

(** The time [n] sleeps take is that of the naps they go through. *)
Lemma total_duration_app (l1 l2 : list nap) :
  total_duration (l1 ++ l2) = total_duration l1 + total_duration l2.
Proof.
  induction l1 as [|a l1 IH]; simpl; [reflexivity|].
  unfold total_duration in *. simpl. rewrite IH. lia.
Qed.

Lemma total_duration_long (l : list nap) :
  Z.of_nat (length l) * (one_second + 1) <= total_duration l.
Proof.
  induction l as [|a l IH]; [simpl; lia|].
  unfold total_duration in *. cbn [foldr length].
  pose proof (duration_long a). lia.
Qed.

Lemma reading_sleeps (n : nat) :
  forall w,
    (n <= length (arrivals w))%nat ->
    reading (Nat.iter n slept w) = reading w + total_duration (take n (arrivals w)).
Proof.
  induction n as [|n IH]; intros w L.
  - change (Nat.iter 0 slept w) with w. cbn [take]. unfold total_duration. simpl. lia.
  - rewrite Nat.iter_succ_r. destruct (arrivals w) as [|a l] eqn:A; [simpl in L; lia|].
    rewrite IH by (rewrite slept_arrivals, A; simpl in *; lia).
    rewrite reading_slept, slept_arrivals, A. unfold next_nap. rewrite A.
    cbn [head default from_option id tail take]. unfold total_duration. cbn [foldr]. lia.
Qed.

(** *** The rounds of the loop *)

Lemma wait_for_code_done fuel start w :
  is_Some (handler_code w) -> wait_for_code fuel start w = (Returns tt, w).
Proof.
  intros [c H]. destruct fuel; simpl; unfold mbind, M_bind, get_world;
    rewrite H; reflexivity.
Qed.

Lemma server_shutdown_eq {A} (e : exn) (w : world) :
  (server_shutdown;; @raise A e) w = (behind_shutdown w (Raises e), shut_down w).
Proof.
  unfold server_shutdown, behind_shutdown, shut_down, emit, modify, raise, lift,
    mbind, M_bind, mret, M_ret, get_world.
  destruct w as [c t f h l a rs u p tr fr sd]. simpl. destruct sd; reflexivity.
Qed.

Lemma wait_for_code_timeout fuel start w :
  handler_code w = None -> window < reading w - start ->
  wait_for_code fuel start w
  = (behind_shutdown w (Raises (AuthError timeout_message)), shut_down w).
Proof.
  intros H T.
  assert (E : (reading w - start >? 300 * one_second) = true)
    by (unfold window in T; lia).
  destruct fuel; cbn [wait_for_code];
    (unfold mbind at 1; unfold M_bind, get_world; rewrite H;
     unfold mbind at 1; unfold M_bind, time_time;
     unfold mbind at 1; unfold M_bind, get_world; cbn [mret M_ret];
     rewrite E; apply server_shutdown_eq).
Qed.

Lemma wait_for_code_round fuel start w :
  handler_code w = None -> reading w - start <= window ->
  wait_for_code (S fuel) start w = wait_for_code fuel start (slept w).
Proof.
  intros H T.
  assert (E : (reading w - start >? 300 * one_second) = false)
    by (unfold window in T; lia).
  cbn [wait_for_code]. unfold mbind at 1. unfold M_bind, get_world. rewrite H.
  unfold mbind at 1. unfold M_bind, time_time.
  unfold mbind at 1. unfold M_bind, get_world. cbn [mret M_ret]. rewrite E.
  unfold mbind at 1. unfold M_bind. rewrite time_sleep_eq. reflexivity.
Qed.

(** The loop, whatever arrives.  With fuel for the rounds that the window
    leaves room for, it sleeps [n] times, each time finding no code and
    the window open, and then either finds a code or finds the window
    closed and calls [server.shutdown()]. *)
Lemma wait_for_code_runs (fuel : nat) :
  forall start w,
    (300 - Z.of_nat fuel) * (one_second + 1) <= reading w - start ->
    exists n,
      (n <= fuel)%nat
      /\ (forall k, (k < n)%nat ->
            handler_code (Nat.iter k slept w) = None
            /\ reading (Nat.iter k slept w) - start <= window)
      /\ ((is_Some (handler_code (Nat.iter n slept w))
           /\ wait_for_code fuel start w = (Returns tt, Nat.iter n slept w))
          \/ (handler_code (Nat.iter n slept w) = None
              /\ window < reading (Nat.iter n slept w) - start
              /\ wait_for_code fuel start w
                 = (behind_shutdown (Nat.iter n slept w)
                      (Raises (AuthError timeout_message)),
                    shut_down (Nat.iter n slept w)))).
Proof.
  induction fuel as [|fuel IH]; intros start w I.
  - exists 0%nat. split; [lia|]. split; [intros k K; lia|]. change (Nat.iter 0 slept w) with w.
    destruct (handler_code w) as [c|] eqn:H.
    + left. split; [eauto|]. apply wait_for_code_done. rewrite H. eauto.
    + right. assert (T : window < reading w - start)
        by (unfold window, one_second in *; lia).
      repeat apply conj; auto. apply wait_for_code_timeout; auto.
  - destruct (handler_code w) as [c|] eqn:H.
    + exists 0%nat. split; [lia|]. split; [intros k K; lia|]. change (Nat.iter 0 slept w) with w.
      left. split; [eauto|]. apply wait_for_code_done. rewrite H. eauto.
    + destruct (Z_lt_le_dec window (reading w - start)) as [T|T].
      * exists 0%nat. split; [lia|]. split; [intros k K; lia|]. change (Nat.iter 0 slept w) with w.
        right. repeat apply conj; auto. apply wait_for_code_timeout; auto.
      * destruct (IH start (slept w)) as (n & N & Q & R).
        { rewrite reading_slept. pose proof (duration_long (next_nap w)).
          unfold one_second in *. lia. }
        exists (S n). split; [lia|]. split.
        -- intros [|k] K; [change (Nat.iter 0 slept w) with w; auto|].
           rewrite Nat.iter_succ_r. apply Q. lia.
        -- rewrite Nat.iter_succ_r, wait_for_code_round by auto. exact R.
Qed.

(** *** get_authorization_code around the loop *)

Lemma get_authorization_code_eq (w : world) :
  listener w = PortFree ->
  get_authorization_code w =
  match wait_for_code poll_fuel (reading w) (flow_opened w) with
  | (Returns _, w1) =>
      (behind_shutdown w1 (Returns (handler_code w1, pkce_verifier w)), shut_down w1)
  | (Raises e, w1) => (Raises e, w1)
  | (Unfinished, w1) => (Unfinished, w1)
  end.
Proof.
  intros L. destruct w as [c t f h l a rs u p tr fr sd]. simpl in L. subst l.
  unfold get_authorization_code. generalize poll_fuel. intros fuel.
  unfold generate_code_verifier, token_bytes, tcp_server, thread_start,
    webbrowser_open, print, time_time, server_shutdown, emit,
    flow_opened, opening_events, pkce_verifier, authorization_url, add_events,
    shut_down, behind_shutdown, reading, lift,
    log, set_listener, set_urandom_pos, set_stalled,
    mbind, M_bind, mret, M_ret, get_world, modify.
  cbn [cfg clock token_file handler_code listener arrivals replies urandom
       urandom_pos trace fraction stalled].
  rewrite <- !app_assoc. cbn [app].
  match goal with |- context [wait_for_code fuel ?t ?x] =>
    destruct (wait_for_code fuel t x) as [[[]|e|] w1] end; try reflexivity.
  destruct w1 as [c1 t1 f1 h1 l1 a1 rs1 u1 p1 tr1 fr1 sd1]. simpl.
  destruct sd1; reflexivity.
Qed.

Lemma get_authorization_code_port_taken (w : world) (serving : bool) :
  listener w = Bound serving ->
  get_authorization_code w
  = (Raises OSError, set_urandom_pos (urandom_pos w + 32)%nat w).
Proof.
  intros L. destruct w as [c t f h l a rs u p tr fr sd]. simpl in L. subst l.
  unfold get_authorization_code, generate_code_verifier, token_bytes, tcp_server.
  unfold mbind, M_bind, mret, M_ret, get_world, modify. simpl. reflexivity.
Qed.

(** A call that could bind the port, whatever arrives: it sleeps [n]
    times, 300 at most, and ends in [server.shutdown()], called on a
    listener that was serving, either with the code it found or because
    more than 300 seconds have passed. *)
Lemma get_authorization_code_runs (w : world) :
  listener w = PortFree ->
  exists n,
    (n <= 300)%nat
    /\ (forall k, (k < n)%nat ->
          handler_code (Nat.iter k slept (flow_opened w)) = None
          /\ reading (Nat.iter k slept (flow_opened w)) - reading w <= window)
    /\ let w1 := Nat.iter n slept (flow_opened w) in
       listener w1 = Bound true
       /\ ((exists code,
              handler_code w1 = Some code
              /\ get_authorization_code w
                 = (behind_shutdown w1 (Returns (Some code, pkce_verifier w)),
                    shut_down w1))
           \/ (handler_code w1 = None
               /\ window < reading w1 - reading w
               /\ get_authorization_code w
                  = (behind_shutdown w1 (Raises (AuthError timeout_message)),
                     shut_down w1))).
Proof.
  intros L. rewrite get_authorization_code_eq by exact L.
  destruct (wait_for_code_runs poll_fuel (reading w) (flow_opened w))
    as (n & N & Q & R).
  { rewrite reading_flow_opened. unfold poll_fuel. lia. }
  exists n. split; [exact N|]. split; [exact Q|]. cbv zeta.
  set (w1 := Nat.iter n slept (flow_opened w)) in *.
  split.
  { destruct (sleeps_frame n (flow_opened w)) as (_ & L1 & _). fold w1 in L1.
    rewrite L1. destruct w; reflexivity. }
  destruct R as [([code C] & E) | (H & T & E)]; rewrite E.
  - left. exists code. split; [exact C|]. rewrite C. reflexivity.
  - right. split; [exact H|]. split; [exact T|].
    unfold behind_shutdown. destruct (stalled w1); reflexivity.
Qed.

(** The fuel of the loop is never what ends it: with more fuel the call
    does the same. *)
Lemma poll_fuel_enough (extra : nat) (w : world) :
  wait_for_code (poll_fuel + extra) (reading w) w
  = wait_for_code poll_fuel (reading w) w.
Proof.
  assert (G : forall fuel start x,
             (300 - Z.of_nat fuel) * (one_second + 1) <= reading x - start ->
             wait_for_code (fuel + extra) start x = wait_for_code fuel start x).
  { induction fuel as [|fuel IH]; intros start x I.
    - destruct (handler_code x) as [c|] eqn:H.
      + rewrite !wait_for_code_done by (rewrite H; eauto). reflexivity.
      + rewrite !wait_for_code_timeout; auto; unfold window, one_second in *; lia.
    - destruct (handler_code x) as [c|] eqn:H.
      + rewrite !wait_for_code_done by (rewrite H; eauto). reflexivity.
      + destruct (Z_lt_le_dec window (reading x - start)) as [T|T].
        * rewrite !wait_for_code_timeout by auto. reflexivity.
        * cbn [Nat.add]. rewrite !wait_for_code_round by auto. apply IH.
          rewrite reading_slept. pose proof (duration_long (next_nap x)).
          unfold one_second in *. lia. }
  apply G. unfold poll_fuel. lia.
Qed.

(** *** When nobody brings a code, and when everybody sends *)

Lemma handler_code_served (batch : list connection) :
  forall w, handler_code (served batch w) = captured_code batch (handler_code w).
Proof.
  induction batch as [|[q|] rest IH]; intros w; cbn [served captured_code].
  - reflexivity.
  - rewrite IH. unfold answered.
    destruct (query_values "code" q); destruct w; reflexivity.
  - destruct w; reflexivity.
Qed.

Lemma stalled_served (batch : list connection) :
  forall w, stalled (served batch w) = negb (forallb sends batch) || stalled w.
Proof.
  induction batch as [|[q|] rest IH]; intros w; cbn [served forallb sends].
  - reflexivity.
  - rewrite IH. cbn [andb]. unfold answered.
    destruct (query_values "code" q); destruct w; reflexivity.
  - destruct w; reflexivity.
Qed.

Lemma slept_handler_code (w : world) :
  handler_code (slept w)
  = match listener w, stalled w with
    | Bound true, false => captured_code (callers (next_nap w)) (handler_code w)
    | _, _ => handler_code w
    end.
Proof.
  unfold slept.
  destruct (listener w) as [|[|]]; destruct (stalled w);
    try (destruct w; reflexivity).
  cbn [handler_code log set_reading]. rewrite handler_code_served.
  destruct w; reflexivity.
Qed.

Lemma slept_stalled (w : world) :
  stalled (slept w)
  = match listener w, stalled w with
    | Bound true, false => negb (all_send (next_nap w))
    | _, _ => stalled w
    end.
Proof.
  unfold slept.
  destruct (listener w) as [|[|]]; destruct (stalled w) eqn:S;
    try (destruct w; simpl in *; subst; reflexivity).
  cbn [stalled log set_reading]. rewrite stalled_served.
  destruct w; simpl in *; subst. rewrite orb_false_r. reflexivity.
Qed.

Lemma captured_code_none (batch : list connection) (old : option string) :
  forallb (fun c => negb (brings_code c)) batch = true ->
  captured_code batch old = old.
Proof.
  induction batch as [|[q|] rest IH]; intros H; try reflexivity.
  cbn [forallb brings_code] in H. apply andb_true_iff in H as [Hq Hr].
  cbn [captured_code]. unfold carries_code in Hq.
  destruct (query_values "code" q); [auto | discriminate].
Qed.

(** The next sleep and the ones after it, in a list of naps that are all
    of some kind. *)
Lemma forallb_take_step (p : nap -> bool) (n : nat) (w : world) :
  p quiet_nap = true ->
  forallb p (take (S n) (arrivals w)) = true ->
  p (next_nap w) = true /\ forallb p (take n (arrivals (slept w))) = true.
Proof.
  intros D Q. rewrite slept_arrivals. unfold next_nap.
  destruct (arrivals w) as [|a l]; simpl in *.
  - rewrite take_nil. auto.
  - apply andb_true_iff in Q. exact Q.
Qed.

Lemma quiet_for_step (n : nat) (w : world) :
  handler_code w = None -> quiet_for (S n) w = true ->
  handler_code (slept w) = None /\ quiet_for n (slept w) = true.
Proof.
  intros H Q. unfold quiet_for in *.
  destruct (forallb_take_step without_code n w eq_refl Q) as [Q1 Q2].
  split; [|exact Q2].
  rewrite slept_handler_code.
  destruct (listener w) as [|[|]]; destruct (stalled w); auto.
  rewrite captured_code_none by exact Q1. exact H.
Qed.

Lemma all_send_for_step (n : nat) (w : world) :
  stalled w = false -> all_send_for (S n) w = true ->
  stalled (slept w) = false /\ all_send_for n (slept w) = true.
Proof.
  intros H Q. unfold all_send_for in *.
  destruct (forallb_take_step all_send n w eq_refl Q) as [Q1 Q2].
  split; [|exact Q2].
  rewrite slept_stalled, H.
  destruct (listener w) as [|[|]]; auto. rewrite Q1. reflexivity.
Qed.

Lemma forallb_take_le {A} (p : A -> bool) (l : list A) :
  forall n m, (n <= m)%nat ->
    forallb p (take m l) = true -> forallb p (take n l) = true.
Proof.
  induction l as [|a l IH]; intros n m L Q.
  - rewrite take_nil. reflexivity.
  - destruct n as [|n]; [reflexivity|]. destruct m as [|m]; [lia|].
    cbn [take forallb] in *. apply andb_true_iff in Q as [Q1 Q2].
    rewrite Q1. cbn [andb]. apply (IH n m); [lia | exact Q2].
Qed.

(** While nobody brings a code, none is captured. *)
Lemma quiet_rounds (n : nat) :
  forall w,
    handler_code w = None -> quiet_for n w = true ->
    forall k, (k <= n)%nat -> handler_code (Nat.iter k slept w) = None.
Proof.
  assert (G : forall k w, handler_code w = None -> quiet_for k w = true ->
                          handler_code (Nat.iter k slept w) = None).
  { induction k as [|k IH]; intros w H Q; [exact H|].
    rewrite Nat.iter_succ_r.
    destruct (quiet_for_step k w H Q) as [H1 Q1]. apply IH; assumption. }
  intros w H Q k K. apply G; [exact H|].
  unfold quiet_for in *. apply (forallb_take_le _ _ k n); assumption.
Qed.

(** While everybody sends, the server thread stays free. *)
Lemma sending_rounds (n : nat) :
  forall w,
    stalled w = false -> all_send_for n w = true ->
    forall k, (k <= n)%nat -> stalled (Nat.iter k slept w) = false.
Proof.
  assert (G : forall k w, stalled w = false -> all_send_for k w = true ->
                          stalled (Nat.iter k slept w) = false).
  { induction k as [|k IH]; intros w H Q; [exact H|].
    rewrite Nat.iter_succ_r.
    destruct (all_send_for_step k w H Q) as [H1 Q1]. apply IH; assumption. }
  intros w H Q k K. apply G; [exact H|].
  unfold all_send_for in *. apply (forallb_take_le _ _ k n); assumption.
Qed.

(** With no code captured before and none arriving, the loop gives up:
    after at most 300 sleeps it finds that more than 300 seconds have
    passed and calls [server.shutdown()]. *)
Lemma get_authorization_code_times_out (w : world) :
  listener w = PortFree -> handler_code w = None -> no_code_arrives w = true ->
  exists n,
    (n <= 300)%nat
    /\ let w1 := Nat.iter n slept (flow_opened w) in
       handler_code w1 = None /\ listener w1 = Bound true
       /\ window < reading w1 - reading w
       /\ (forall k, (k < n)%nat ->
             reading (Nat.iter k slept (flow_opened w)) - reading w <= window)
       /\ get_authorization_code w
          = (behind_shutdown w1 (Raises (AuthError timeout_message)), shut_down w1).
Proof.
  intros L H N.
  destruct (get_authorization_code_runs w L) as (n & Le & Q & L1 & R).
  exists n. split; [exact Le|]. cbv zeta.
  assert (H1 : handler_code (Nat.iter n slept (flow_opened w)) = None).
  { apply (quiet_rounds 300); [destruct w; exact H | destruct w; exact N | exact Le]. }
  destruct R as [(code & C & _) | (_ & T & E)]; [congruence|].
  repeat apply conj; auto. intros k K. apply Q. exact K.
Qed.

End Listener.

(* ===================================================================== *)
(** ** Which calls have an end *)
(* ===================================================================== *)

Section Totality.
Import Auth.

Lemma finishes_mret {A} (a : A) : finishes (mret a).
Proof. intros w. discriminate. Qed.

Lemma finishes_raise {A} (e : exn) : finishes (@raise A e).
Proof. intros w. discriminate. Qed.

Lemma finishes_lift {A} (o : outcome A) : o <> Unfinished -> finishes (lift o).
Proof. intros H w. exact H. Qed.

Lemma finishes_get_world : finishes get_world.
Proof. intros w. discriminate. Qed.

Lemma finishes_modify (f : world -> world) : finishes (modify f).
Proof. intros w. discriminate. Qed.

Lemma finishes_bind {A B} (m : M A) (f : A -> M B) :
  finishes m -> (forall a, finishes (f a)) -> finishes (m ≫= f).
Proof.
  intros Hm Hf w. unfold mbind, M_bind.
  specialize (Hm w). destruct (m w) as [[a|e|] w1]; simpl in *.
  - apply Hf.
  - discriminate.
  - congruence.
Qed.

Lemma finishes_try {A} (body : M A) (handler : string -> M A) :
  finishes body -> (forall msg, finishes (handler msg)) ->
  finishes (try_except_AuthError body handler).
Proof.
  intros Hb Hh w. unfold try_except_AuthError.
  specialize (Hb w). destruct (body w) as [[a|e|] w1]; simpl in *.
  - discriminate.
  - destruct e; try discriminate. apply Hh.
  - congruence.
Qed.

(** The operations on Python values return or raise. *)
Lemma py_get_finishes d k dflt : py_get d k dflt <> Unfinished.
Proof. destruct d; discriminate. Qed.

Lemma py_contains_finishes k d : py_contains k d <> Unfinished.
Proof. destruct d; discriminate. Qed.

Lemma py_getitem_finishes d k : py_getitem d k <> Unfinished.
Proof. destruct d; try discriminate. simpl. destruct (m !! k); discriminate. Qed.

Lemma py_setitem_finishes d k v : py_setitem d k v <> Unfinished.
Proof. destruct d; discriminate. Qed.

Lemma needs_refresh_finishes now t e : needs_refresh now t e <> Unfinished.
Proof.
  unfold needs_refresh.
  destruct (py_sub (PyInt now) t); [|discriminate].
  destruct (py_sub e (PyInt 300)); discriminate.
Qed.

Ltac finishes_tac :=
  repeat first
    [ assumption
    | apply finishes_bind; [ | intros ? ]
    | apply finishes_try; [ | intros ? ]
    | apply finishes_mret | apply finishes_raise | apply finishes_get_world
    | apply finishes_modify
    | apply finishes_lift;
      first [ apply py_get_finishes | apply py_contains_finishes
            | apply py_getitem_finishes | apply py_setitem_finishes
            | apply needs_refresh_finishes ]
    | progress unfold response_json, client_post, print, json_dump, int_time_time,
        path_exists, json_load, has_access_token, emit
    | match goal with
      | |- finishes (match ?x with _ => _ end) => destruct x
      end ].

Lemma save_tokens_finishes v : finishes (save_tokens v).
Proof. unfold save_tokens. finishes_tac. Qed.

Lemma refresh_access_token_finishes rt : finishes (refresh_access_token rt).
Proof. unfold refresh_access_token. finishes_tac. Qed.

Lemma get_access_token_finishes code verifier :
  finishes (get_access_token code verifier).
Proof. unfold get_access_token. finishes_tac. Qed.

Lemma load_tokens_finishes : finishes load_tokens.
Proof.
  pose proof save_tokens_finishes. pose proof refresh_access_token_finishes.
  unfold load_tokens, refresh_branch. finishes_tac.
Qed.

Lemma get_authorization_header_finishes : finishes get_authorization_header.
Proof.
  pose proof load_tokens_finishes. unfold get_authorization_header. finishes_tac.
Qed.

Lemma after_flow_finishes (code : option string) (verifier : string) :
  finishes
    (try_except_AuthError
       (token_data ← get_access_token code verifier; save_tokens token_data)
       (fun e => print ("Authentication error: " +:+ e);; mret PyNone)).
Proof.
  pose proof get_access_token_finishes. pose proof save_tokens_finishes.
  finishes_tac.
Qed.

(** When everybody who connects sends a request, the call has an end. *)
Lemma get_authorization_code_finishes (w : world) :
  everyone_sends w = true -> (get_authorization_code w).1 <> Unfinished.
Proof.
  intros E. destruct (listener w) as [|b] eqn:L.
  - destruct (get_authorization_code_runs w L) as (n & N & _ & _ & R).
    assert (S : stalled (Nat.iter n slept (flow_opened w)) = false).
    { apply (sending_rounds 300); [destruct w; reflexivity | destruct w; exact E | exact N]. }
    cbv zeta in R. unfold behind_shutdown in R. rewrite S in R.
    destruct R as [(code & _ & G) | (_ & _ & G)]; rewrite G; discriminate.
  - rewrite (get_authorization_code_port_taken w b L). discriminate.
Qed.

End Totality.

(* ===================================================================== *)
(** ** get_authorization_header and authenticate *)
(* ===================================================================== *)

Section EntryPoints.
Import Auth Scenario Cases.

(** C1, as the code has it.  [get_authorization_header] never starts the
    listener, opens a browser, draws randomness or lets time pass: it
    only prints, posts to the token endpoint and writes the cache file.
    With no cache file it returns [None].  With a cached dict that passes
    the freshness test it returns [Bearer] of the cached access token
    ([None] if the dict has none) and does nothing else.  With a stale
    dict that holds a refresh token it posts a refresh: a reply other than
    200 gives [None]; a 200 with a JSON object gives [Bearer] of the
    access token of that object, which is saved without a second look at
    its lifetime. *)
Theorem get_authorization_header_cases (w : world) :
  offline w (get_authorization_header w).2
  /\ match token_file w with
     | None => get_authorization_header w = (Returns None, w)
     | Some (JsonText (PyDict m)) =>
         match needs_refresh (clock w) (cached_timestamp m) (cached_expires_in m) with
         | Returns false => get_authorization_header w = (Returns (header_of m), w)
         | Returns true =>
             match m !! "refresh_token", replies w with
             | Some rt, resp :: rest =>
                 if truthy rt then
                   if status_code resp =? 200 then
                     match json_body resp with
                     | Some (PyDict r) =>
                         let merged := match r !! "refresh_token" with
                                       | Some _ => r
                                       | None => <["refresh_token" := rt]> r
                                       end in
                         get_authorization_header w
                         = (Returns (header_of r),
                            after_save merged
                              (after_post (refresh_form (cfg w) rt) rest w))
                     | _ => True
                     end
                   else (get_authorization_header w).1 = Returns None
                 else True
             | _, _ => True
             end
         | _ => True
         end
     | _ => True
     end.
Proof.
  split; [apply offline_get_authorization_header|].
  destruct (token_file w) as [[|[| | | | |m]]|] eqn:F; auto.
  - destruct (needs_refresh _ _ _) as [[|]| |] eqn:S; auto.
    + destruct (m !! "refresh_token") as [rt|] eqn:E; auto.
      destruct (replies w) as [|resp rest] eqn:R; auto.
      destruct (truthy rt) eqn:T; auto.
      destruct (Z.eqb_spec (status_code resp) 200) as [St|St].
      * destruct resp as [st tx [[| | | | |r]|]]; simpl; auto. simpl in St. subst st.
        cbv zeta.
        set (merged := match r !! "refresh_token" with
                       | Some _ => r
                       | None => <["refresh_token" := rt]> r
                       end).
        assert (L : load_tokens w
                    = (Returns (PyDict (stamped (clock w) merged)),
                       after_save merged (after_post (refresh_form (cfg w) rt) rest w))).
        { rewrite load_tokens_eq, F, S.
          rewrite (refresh_branch_accepted m r w rt tx rest E T R).
          rewrite save_tokens_dict. destruct w; reflexivity. }
        rewrite (get_authorization_header_dict _ _ _ L). f_equal. f_equal.
        unfold header_of, stamped. rewrite lookup_insert_ne by discriminate.
        subst merged. destruct (r !! "refresh_token") eqn:Er; [reflexivity|].
        rewrite lookup_insert_ne by discriminate. reflexivity.
      * erewrite get_authorization_header_none; [reflexivity|].
        rewrite load_tokens_eq, F, S.
        apply (refresh_branch_rejected m w rt resp rest);
          [rewrite E; exact T | rewrite E; reflexivity | exact R | exact St].
    + apply get_authorization_header_dict. rewrite load_tokens_eq, F, S. reflexivity.
  - apply get_authorization_header_none. rewrite load_tokens_eq, F. reflexivity.
Qed.

(** C1 fails as stated: after a refresh that grants a token of sixty
    seconds, [get_authorization_header] returns [Bearer] of that token,
    although the dict it was taken from (now the cache content) does not
    pass the freshness test at that very moment. *)
Lemma header_from_one_minute_refresh :
  let r := get_authorization_header one_minute_refresh_world in
  r.1 = Returns (Some (Bearer (PyStr "tok2")))
  /\ token_file r.2
     = Some (JsonText (PyDict (dict [("access_token", PyStr "tok2");
                                     ("expires_in", PyInt 60);
                                     ("refresh_token", PyStr "refresh1");
                                     ("timestamp", PyInt 1700003400)])))
  /\ needs_refresh (clock r.2) (PyInt 1700003400) (PyInt 60) = Returns true
  /\ Spec.isFresh 60 1700003400 (clock r.2) = false.
Proof.
  repeat split; vm_compute; reflexivity.
Qed.

(** C2 at its failing input: the cached dict is stale and cannot be
    refreshed, and [authenticate] returns it at once, printing
    [Using existing access token]: no verifier is drawn, no listener is
    started, no browser is opened. *)
Lemma authenticate_returns_stale_tokens :
  needs_refresh (clock stale_unrefreshable_world)
    (cached_timestamp stale_unrefreshable) (cached_expires_in stale_unrefreshable)
  = Returns true
  /\ stale_unrefreshable !! "refresh_token" = None
  /\ authenticate stale_unrefreshable_world
     = (Returns (PyDict stale_unrefreshable),
        log (Printed "Using existing access token") stale_unrefreshable_world).
Proof.
  repeat split; vm_compute; reflexivity.
Qed.

(** *** authenticate around the interactive flow *)

#[local] Existing Instance offline_preorder.

Lemma bind_run {A B} (m : M A) (k : A -> M B) (w : world) :
  (m ≫= k) w
  = match m w with
    | (Returns a, w1) => k a w1
    | (Raises e, w1) => (Raises e, w1)
    | (Unfinished, w1) => (Unfinished, w1)
    end.
Proof. reflexivity. Qed.

(** [try] around a sequence: the first part's [AuthError] goes to the
    handler, its result to the rest under the same [try]. *)
Lemma try_bind {A B} (m : M A) (k : A -> M B) (h : string -> M B) (w : world) :
  try_except_AuthError (m ≫= k) h w
  = match m w with
    | (Returns a, w1) => try_except_AuthError (k a) h w1
    | (Raises (AuthError msg), w1) => h msg w1
    | (Raises e, w1) => (Raises e, w1)
    | (Unfinished, w1) => (Unfinished, w1)
    end.
Proof.
  unfold try_except_AuthError, mbind, M_bind.
  destruct (m w) as [[a|e|] w1]; try reflexivity. destruct e; reflexivity.
Qed.

(** The test on the cache, and what [authenticate] does when it fails. *)
Lemma cache_check_offline (w : world) : offline w (cache_check w).2.
Proof.
  unfold cache_check. rewrite bind_run.
  pose proof (offline_load_tokens w) as O.
  destruct (load_tokens w) as [[tokens|e|] w0]; cbn [snd] in *; try exact O.
  rewrite has_access_token_world. exact O.
Qed.

Lemma authenticate_flow (w w0 : world) :
  cache_check w = (Returns false, w0) -> authenticate w = interactive_flow w0.
Proof.
  unfold cache_check, authenticate. rewrite !bind_run.
  destruct (load_tokens w) as [[tokens|e|] wA]; try discriminate.
  rewrite bind_run. intros C. rewrite C. reflexivity.
Qed.

Lemma cache_check_without_cache (w : world) :
  token_file w = None -> cache_check w = (Returns false, w).
Proof.
  intros F. unfold cache_check. rewrite bind_run, load_tokens_eq, F. reflexivity.
Qed.

Lemma authenticate_without_cache (w : world) :
  token_file w = None -> authenticate w = interactive_flow w.
Proof.
  intros F. apply authenticate_flow, cache_check_without_cache, F.
Qed.

(** What the failed test leaves as it was. *)
Lemma cache_check_keeps (w w0 : world) (usable : bool) :
  cache_check w = (Returns usable, w0) ->
  handler_code w0 = handler_code w /\ listener w0 = listener w
  /\ no_code_arrives w0 = no_code_arrives w
  /\ everyone_sends w0 = everyone_sends w
  /\ arrivals w0 = arrivals w.
Proof.
  intros C. pose proof (cache_check_offline w) as (_ & _ & H & L & A & _).
  rewrite C in *. cbn [snd] in *.
  unfold no_code_arrives, everyone_sends, quiet_for, all_send_for.
  rewrite A. auto.
Qed.

Lemma interactive_flow_fails (w w1 : world) (msg : string) :
  get_authorization_code w = (Raises (AuthError msg), w1) ->
  interactive_flow w
  = (Returns PyNone, log (Printed ("Authentication error: " +:+ msg)) w1).
Proof.
  intros G. unfold interactive_flow. rewrite try_bind, G. reflexivity.
Qed.

(** A call that could bind the port ends in [server.shutdown()], after
    300 sleeps at most, whatever its outcome. *)
Lemma get_authorization_code_ends (w : world) :
  listener w = PortFree ->
  exists n,
    (n <= 300)%nat
    /\ (get_authorization_code w).2 = shut_down (Nat.iter n slept (flow_opened w)).
Proof.
  intros L. destruct (get_authorization_code_runs w L) as (n & N & _ & _ & R).
  exists n. split; [exact N|].
  destruct R as [(code & _ & G) | (_ & _ & G)]; rewrite G; reflexivity.
Qed.

(** What [get_authorization_code] leaves alone. *)
Lemma get_authorization_code_frame (w : world) :
  let w' := (get_authorization_code w).2 in
  cfg w' = cfg w /\ token_file w' = token_file w /\ replies w' = replies w
  /\ urandom w' = urandom w /\ urandom_pos w' = (urandom_pos w + 32)%nat
  /\ (listener w = PortFree ->
      exists evs, trace w' = trace w ++ opening_events w ++ evs).
Proof.
  cbv zeta. destruct (listener w) as [|b] eqn:L.
  - destruct (get_authorization_code_ends w L) as (n & _ & E). rewrite E.
    destruct (sleeps_frame n (flow_opened w))
      as ((A & B & C & D & F & _) & _ & _ & evs & T & _).
    set (w1 := Nat.iter n slept (flow_opened w)) in *.
    assert (TO : trace (flow_opened w) = trace w ++ opening_events w)
      by (destruct w; reflexivity).
    split; [|split; [|split; [|split; [|split]]]].
    + destruct w, w1; simpl in *; congruence.
    + destruct w, w1; simpl in *; congruence.
    + destruct w, w1; simpl in *; congruence.
    + destruct w, w1; simpl in *; congruence.
    + destruct w, w1; simpl in *; congruence.
    + intros _. exists (evs ++ [ServerShutdown]).
      replace (trace (shut_down w1)) with (trace w1 ++ [ServerShutdown])
        by (destruct w1; reflexivity).
      rewrite T, TO, <- !app_assoc. reflexivity.
  - rewrite (get_authorization_code_port_taken w b L).
    destruct w; simpl. repeat apply conj; try reflexivity. discriminate.
Qed.

(** A call that returns could bind the port, and returns the verifier
    it drew. *)
Lemma get_authorization_code_returns (w w1 : world) (code : option string)
    (verifier : string) :
  get_authorization_code w = (Returns (code, verifier), w1) ->
  listener w = PortFree /\ verifier = pkce_verifier w.
Proof.
  intros G. destruct (listener w) as [|b] eqn:L.
  - split; [reflexivity|].
    destruct (get_authorization_code_runs w L) as (n & _ & _ & _ & R).
    cbv zeta in R. unfold behind_shutdown in R.
    destruct R as [(c' & _ & G') | (_ & _ & G')]; rewrite G' in G;
      destruct (stalled (Nat.iter n slept (flow_opened w))); congruence.
  - rewrite (get_authorization_code_port_taken w b L) in G. discriminate.
Qed.

(** [authenticate] is the cache path, then possibly the flow, then the
    exchange and the write. *)
Lemma authenticate_stages (w : world) :
  exists w0,
    offline w w0
    /\ (offline w0 (authenticate w).2
        \/ offline (get_authorization_code w0).2 (authenticate w).2).
Proof.
  unfold authenticate. rewrite bind_run.
  pose proof (offline_load_tokens w) as O.
  destruct (load_tokens w) as [[tokens|e|] w0]; cbn [snd] in O;
    try (exists w0; split; [exact O | left; reflexivity]).
  exists w0. split; [exact O|].
  rewrite bind_run.
  pose proof (has_access_token_world tokens w0) as Hw.
  destruct (has_access_token tokens w0) as [[[|]|e|] w0']; cbn [snd] in Hw; subst w0';
    try (left; reflexivity).
  - left. rewrite bind_run.
    apply (offline_emit (Printed "Using existing access token") eq_refl w0).
  - right. rewrite try_bind.
    destruct (get_authorization_code w0) as [[[code v]|e|] w1]; cbn [snd];
      try reflexivity.
    + apply offline_after_flow.
    + destruct e; try reflexivity. rewrite bind_run.
      apply (offline_emit (Printed ("Authentication error: " +:+ msg)) eq_refl w1).
Qed.


(** With no code left from before, none arriving and everybody sending,
    the flow gives up: after 300 sleeps at most the loop finds that more
    than 300 seconds have passed, not having found so before. *)
Lemma flow_times_out (w : world) :
  listener w = PortFree -> handler_code w = None ->
  no_code_arrives w = true -> everyone_sends w = true ->
  exists n,
    (n <= 300)%nat
    /\ let w1 := Nat.iter n slept (flow_opened w) in
       handler_code w1 = None
       /\ window < reading w1 - reading w
       /\ (forall k, (k < n)%nat ->
             reading (Nat.iter k slept (flow_opened w)) - reading w <= window)
       /\ get_authorization_code w
          = (Raises (AuthError timeout_message), shut_down w1)
       /\ interactive_flow w
          = (Returns PyNone,
             log (Printed ("Authentication error: " +:+ timeout_message))
               (shut_down w1)).
Proof.
  intros L H N E.
  destruct (get_authorization_code_times_out w L H N) as (n & Le & H1 & _ & T & Q & G).
  exists n. split; [exact Le|]. cbv zeta.
  assert (S : stalled (Nat.iter n slept (flow_opened w)) = false).
  { apply (sending_rounds 300); [destruct w; reflexivity | destruct w; exact E | exact Le]. }
  unfold behind_shutdown in G. rewrite S in G.
  repeat apply conj; auto. apply interactive_flow_fails. exact G.
Qed.




(** C5, as the code has it.  To a request without a [code] parameter the
    handler replies 400 with the failure page and does nothing else:
    [CallbackHandler.code] stays as it was and nothing is signalled to the
    waiting loop.  So when such a request comes first, nobody brings a
    code and everybody who connects sends a request, [authenticate] goes
    on polling until more than 300 seconds have passed and fails with the
    timeout error, the only error the flow has. *)
Theorem request_without_code (q : request) (w : world) :
  carries_code q = false ->
  do_GET q w = (Returns tt, log (Responded 400 failure_page) w)
  /\ handler_code (do_GET q w).2 = handler_code w
  /\ (forall x x0 late batch rest,
        cache_check x = (Returns false, x0) ->
        handler_code x = None -> listener x = PortFree ->
        arrivals x = Nap late (Sends q :: batch) :: rest ->
        no_code_arrives x = true -> everyone_sends x = true ->
        exists n evs,
          (1 <= n <= 300)%nat
          /\ let w1 := Nat.iter n slept (flow_opened x0) in
             authenticate x
             = (Returns PyNone,
                log (Printed ("Authentication error: " +:+ timeout_message))
                  (shut_down w1))
             /\ window < reading w1 - reading x0 /\ handler_code w1 = None
             /\ trace w1
                = trace x0 ++ opening_events x0
                  ++ Responded 400 failure_page :: evs).
Proof.
  intros Q.
  assert (D : forall x, answered q x = log (Responded 400 failure_page) x).
  { intros x. unfold answered. unfold carries_code in Q.
    destruct (query_values "code" q); [reflexivity | discriminate]. }
  split; [rewrite do_GET_eq, D; reflexivity|].
  split; [rewrite do_GET_eq, D; destruct w; reflexivity|].
  intros x x0 late batch rest C H L A N E.
  destruct (cache_check_keeps x x0 false C) as (H0 & L0 & N0 & E0 & A0).
  destruct (flow_times_out x0) as (n & Le & H1 & T & _ & _ & Au); try congruence.
  destruct n as [|n].
  { exfalso. change (Nat.iter 0 slept (flow_opened x0)) with (flow_opened x0) in T.
    rewrite reading_flow_opened in T. unfold window, one_second in T. lia. }
  set (fo := flow_opened x0) in *.
  assert (Ta : exists e1, trace (slept fo)
               = trace x0 ++ opening_events x0 ++ Responded 400 failure_page :: e1).
  { assert (Af : arrivals fo = Nap late (Sends q :: batch) :: rest)
      by (subst fo; destruct x0; simpl in *; congruence).
    assert (Lf : listener fo = Bound true) by (subst fo; destruct x0; reflexivity).
    assert (Sf : stalled fo = false) by (subst fo; destruct x0; reflexivity).
    assert (Tf : trace fo = trace x0 ++ opening_events x0)
      by (subst fo; destruct x0; reflexivity).
    unfold slept, next_nap. rewrite Lf, Sf, Af.
    cbn [head default from_option id callers served tail]. rewrite D.
    destruct (served_frame batch
                (log (Responded 400 failure_page) (set_arrivals rest fo)))
      as (_ & _ & _ & _ & _ & _ & e & Te & _).
    exists (e ++ [Slept]).
    cbn [trace log set_reading]. rewrite Te.
    destruct fo; simpl in *. rewrite Tf, <- !app_assoc. reflexivity. }
  destruct Ta as (e1 & Ta).
  exists (S n). cbv zeta in *. rewrite Nat.iter_succ_r in *.
  destruct (sleeps_frame n (slept fo)) as (_ & _ & _ & e2 & T2 & _).
  exists (e1 ++ e2). split; [lia|].
  split; [rewrite (authenticate_flow x x0 C); exact Au|].
  split; [exact T|]. split; [exact H1|].
  rewrite T2, Ta, <- !app_assoc. cbn [app]. rewrite <- ?app_assoc. reflexivity.
Qed.

(** C5 on the redirect of a denied consent, and on the flow that
    receives it and nothing else. *)
Lemma request_without_code_witness :
  carries_code [("error", "access_denied")] = false
  /\ do_GET [("error", "access_denied")] (idle_world 1700000000)
     = (Returns tt, log (Responded 400 failure_page) (idle_world 1700000000))
  /\ (authenticate denied_world).1 = Returns PyNone.
Proof.
  destruct (request_without_code [("error", "access_denied")]
              (idle_world 1700000000) eq_refl) as (D & _ & Fl).
  split; [reflexivity|]. split; [exact D|].
  destruct (Fl denied_world denied_world 250%positive [] []
              eq_refl eq_refl eq_refl eq_refl eq_refl eq_refl)
    as (n & evs & _ & A & _).
  rewrite A. reflexivity.
Defined.

(** C5 fails as stated: after the denial [authenticate] does not fail
    with a denial error; it goes on sleeping, 300 times, until more than
    300 seconds have passed, and then reports the timeout. *)
Lemma authenticate_after_denial :
  let r := authenticate denied_world in
  r.1 = Returns PyNone
  /\ trace r.2 !! 5%nat = Some (Responded 400 failure_page)
  /\ handler_code r.2 = None
  /\ sleeps (trace r.2) = 300%nat
  /\ 300 * one_second < reading r.2 - reading denied_world
  /\ last (trace r.2)
     = Some (Printed "Authentication error: Authentication timed out after 5 minutes").
Proof.
  repeat apply conj; vm_compute; reflexivity.
Qed.

(** *** The code left in CallbackHandler.code *)




(** *** The PKCE pair *)

(** C9.  The verifier is the unpadded URL-safe Base64 of the thirty-two
    bytes (256 bits) that [secrets.token_bytes] draws from the operating
    system's random source, and no two such byte strings give the same
    verifier; it has 43 characters, all of them unreserved URL
    characters.  The challenge is the unpadded URL-safe Base64 of the
    SHA-256 digest of the verifier's bytes.  [get_authorization_code]
    opens the authorization URL with the challenge of the very verifier
    it returns. *)
Theorem pkce_pair (w : world) :
  let random := map (urandom w) (seq (urandom_pos w) 32) in
  let verifier := Codec.base64url_nopad random in
  let challenge := generate_code_challenge verifier in
  generate_code_verifier w
  = (Returns verifier, set_urandom_pos (urandom_pos w + 32)%nat w)
  /\ length random = 32%nat
  /\ (forall random', length random' = 32%nat ->
                      Codec.base64url_nopad random' = verifier -> random' = random)
  /\ String.length verifier = 43%nat
  /\ (43 <= String.length verifier <= 128)%nat
  /\ Codec.string_forallb Codec.url_safe_char verifier = true
  /\ challenge = Codec.base64url_nopad (Codec.sha256 (Codec.utf8_encode verifier))
  /\ String.length challenge = 43%nat
  /\ (forall code v, (get_authorization_code w).1 = Returns (code, v) ->
                     v = verifier)
  /\ (listener w = PortFree ->
      exists evs,
        trace (get_authorization_code w).2
        = trace w
          ++ [ ServerBound; ThreadStarted;
               Printed "Opening browser for authentication...";
               BrowserOpened (authorization_url (cfg w) challenge) ]
          ++ evs).
Proof.
  intros random verifier challenge.
  assert (V : pkce_verifier w = verifier)
    by (unfold pkce_verifier; apply rstrip_urlsafe_b64encode).
  assert (LR : length random = 32%nat)
    by (unfold random; rewrite length_map, length_seq; reflexivity).
  assert (LV : String.length verifier = 43%nat)
    by (unfold verifier; rewrite base64url_nopad_length, LR; reflexivity).
  repeat apply conj.
  - unfold generate_code_verifier, token_bytes.
    unfold mbind, M_bind, mret, M_ret, get_world, modify. cbn [fst snd].
    fold random. rewrite rstrip_urlsafe_b64encode. reflexivity.
  - exact LR.
  - intros random' L' E.
    apply base64url_nopad_inj; [rewrite L', LR; reflexivity | exact E].
  - exact LV.
  - lia.
  - lia.
  - apply base64url_nopad_url_safe.
  - unfold challenge, generate_code_challenge. apply rstrip_urlsafe_b64encode.
  - unfold challenge, generate_code_challenge.
    rewrite rstrip_urlsafe_b64encode, base64url_nopad_length, sha256_length.
    reflexivity.
  - intros code v E. destruct (listener w) as [|b] eqn:L.
    + destruct (get_authorization_code_runs w L) as (n & _ & _ & _ & R).
      cbv zeta in R. unfold behind_shutdown in R.
      destruct R as [(code' & _ & G) | (_ & _ & G)]; rewrite G in E;
        destruct (stalled (Nat.iter n slept (flow_opened w))); try discriminate.
      cbn [fst] in E. congruence.
    + rewrite (get_authorization_code_port_taken w b L) in E. discriminate.
  - intros L.
    destruct (get_authorization_code_frame w) as (_ & _ & _ & _ & _ & T).
    destruct (T L) as [evs Tr].
    exists ([Printed "Waiting for authentication callback..."] ++ evs).
    rewrite Tr. unfold opening_events, challenge. rewrite V. reflexivity.
Qed.

End EntryPoints.

(* ===================================================================== *)
(** ** More on the token cache *)
(* ===================================================================== *)

Section CacheMore.
Import Auth Scenario Cases.

(** X1.  Freshness does not come back with age: a cached dict that
    [load_tokens] returns untouched at one time is returned untouched at
    every earlier time as well. *)
Theorem fresh_at_earlier_times (w : world) (m : gmap string pyval) (earlier : Z) :
  token_file w = Some (JsonText (PyDict m)) ->
  needs_refresh (clock w) (cached_timestamp m) (cached_expires_in m) = Returns false ->
  earlier <= clock w ->
  needs_refresh earlier (cached_timestamp m) (cached_expires_in m) = Returns false
  /\ load_tokens (set_clock earlier w) = (Returns (PyDict m), set_clock earlier w).
Proof.
  intros F N E.
  assert (N' : needs_refresh earlier (cached_timestamp m) (cached_expires_in m)
               = Returns false).
  { unfold needs_refresh, py_sub in *. cbn [as_int] in *.
    destruct (as_int (cached_timestamp m)) as [t|]; [|discriminate].
    destruct (as_int (cached_expires_in m)) as [e|]; [|discriminate].
    injection N as N. f_equal. lia. }
  split; [exact N'|].
  rewrite load_tokens_eq.
  replace (token_file (set_clock earlier w)) with (Some (JsonText (PyDict m)))
    by (destruct w; simpl in *; congruence).
  replace (clock (set_clock earlier w)) with earlier by (destruct w; reflexivity).
  rewrite N'. reflexivity.
Qed.

Lemma fresh_at_earlier_times_witness :
  load_tokens (set_clock 1700000050 fresh_world)
  = (Returns (PyDict fresh_tokens), set_clock 1700000050 fresh_world).
Proof.
  exact (proj2 (fresh_at_earlier_times fresh_world fresh_tokens 1700000050
                  eq_refl eq_refl ltac:(vm_compute; discriminate))).
Defined.

(** X2.  A refresh that the endpoint rejects is not retried and does not
    touch the cache: [load_tokens] sends the one POST, prints the error
    with the reply's text, leaves the file as it was and returns [None],
    and [get_authorization_header] returns [None] in turn. *)
Theorem rejected_refresh_keeps_cache
    (w : world) (m : gmap string pyval) (rt : pyval) (resp : response)
    (rest : list response) :
  token_file w = Some (JsonText (PyDict m)) ->
  needs_refresh (clock w) (cached_timestamp m) (cached_expires_in m) = Returns true ->
  m !! "refresh_token" = Some rt -> truthy rt = true ->
  replies w = resp :: rest -> status_code resp <> 200 ->
  exists w',
    load_tokens w = (Returns PyNone, w')
    /\ get_authorization_header w = (Returns None, w')
    /\ token_file w' = token_file w
    /\ replies w' = rest
    /\ trace w'
       = trace w
         ++ [ Posted ADOBE_TOKEN_URL (refresh_form (cfg w) rt);
              Printed ("Error refreshing token: Failed to refresh access token: "
                       +:+ text resp) ].
Proof.
  intros F S E T R St.
  assert (L : load_tokens w
              = (Returns PyNone,
                 log (Printed ("Error refreshing token: Failed to refresh access token: "
                               +:+ text resp))
                   (after_post (refresh_form (cfg w) rt) rest w))).
  { rewrite load_tokens_eq, F, S.
    apply (refresh_branch_rejected m w rt resp rest);
      [rewrite E; exact T | rewrite E; reflexivity | exact R | exact St]. }
  eexists. split; [exact L|].
  split; [apply get_authorization_header_none; exact L|].
  destruct w; simpl. repeat apply conj; try reflexivity.
  rewrite <- app_assoc. reflexivity.
Qed.

Lemma rejected_refresh_keeps_cache_witness :
  exists w',
    load_tokens rejected_refresh_world = (Returns PyNone, w')
    /\ token_file w' = token_file rejected_refresh_world
    /\ replies w' = [].
Proof.
  destruct (rejected_refresh_keeps_cache rejected_refresh_world stale_refreshable
              (PyStr "refresh1") (Response 401 "invalid_token" None) []
              eq_refl eq_refl eq_refl eq_refl eq_refl
              ltac:(vm_compute; discriminate))
    as (w' & L & _ & F & R & _).
  exists w'. repeat apply conj; assumption.
Defined.

(** X3.  Only [AuthError] is caught around a refresh.  When no response
    comes back, the transport error of httpx leaves [load_tokens] and
    [get_authorization_header]; when a 200 reply has a body that is not
    JSON, the [JSONDecodeError] of [response.json()] does.  The cache
    file is untouched in both cases. *)
Theorem refresh_errors_propagate
    (w : world) (m : gmap string pyval) (rt : pyval) :
  token_file w = Some (JsonText (PyDict m)) ->
  needs_refresh (clock w) (cached_timestamp m) (cached_expires_in m) = Returns true ->
  m !! "refresh_token" = Some rt -> truthy rt = true ->
  match replies w with
  | [] =>
      let w' := log (Posted ADOBE_TOKEN_URL (refresh_form (cfg w) rt)) w in
      load_tokens w = (Raises HTTPError, w')
      /\ get_authorization_header w = (Raises HTTPError, w')
      /\ token_file w' = token_file w
  | resp :: rest =>
      status_code resp = 200 -> json_body resp = None ->
      let w' := after_post (refresh_form (cfg w) rt) rest w in
      load_tokens w = (Raises JSONDecodeError, w')
      /\ get_authorization_header w = (Raises JSONDecodeError, w')
      /\ token_file w' = token_file w
  end.
Proof.
  intros F S E T.
  assert (H : forall e w', load_tokens w = (Raises e, w') ->
                           get_authorization_header w = (Raises e, w')).
  { intros e w' L. unfold get_authorization_header.
    unfold mbind at 1. unfold M_bind. rewrite L. reflexivity. }
  destruct (replies w) as [|resp rest] eqn:R.
  - assert (L : load_tokens w
                = (Raises HTTPError,
                   log (Posted ADOBE_TOKEN_URL (refresh_form (cfg w) rt)) w)).
    { rewrite load_tokens_eq, F, S.
      destruct w as [c t f h l a rs u p tr fr sd]. simpl in *. subst.
      unfold refresh_branch, refresh_access_token, client_post,
        try_except_AuthError, mbind, M_bind, mret, M_ret, lift, raise,
        get_world, modify, emit.
      simpl. rewrite E. simpl. rewrite T. reflexivity. }
    cbv zeta. repeat apply conj; [exact L | apply H; exact L | destruct w; reflexivity].
  - intros St B.
    assert (L : load_tokens w
                = (Raises JSONDecodeError,
                   after_post (refresh_form (cfg w) rt) rest w)).
    { rewrite load_tokens_eq, F, S.
      destruct w as [c t f h l a rs u p tr fr sd]. simpl in *. subst.
      destruct resp as [st tx b]. simpl in *. subst.
      unfold refresh_branch, refresh_access_token, client_post, response_json,
        try_except_AuthError, mbind, M_bind, mret, M_ret, lift, raise,
        get_world, modify, emit.
      simpl. rewrite E. simpl. rewrite T. reflexivity. }
    cbv zeta. repeat apply conj; [exact L | apply H; exact L | destruct w; reflexivity].
Qed.

Lemma refresh_errors_propagate_witness :
  (get_authorization_header unreachable_world).1 = Raises HTTPError
  /\ token_file (get_authorization_header unreachable_world).2
     = token_file unreachable_world.
Proof.
  pose proof (refresh_errors_propagate unreachable_world stale_refreshable
                (PyStr "refresh1") eq_refl eq_refl eq_refl eq_refl) as H.
  cbv beta iota zeta in H. change (replies unreachable_world) with (@nil response) in H.
  cbv beta iota zeta in H.
  destruct H as (_ & G & F). rewrite G. split; [reflexivity | exact F].
Defined.

(** X4.  When the 200 reply to a refresh brings a refresh token of its
    own, that one is saved and the previous one is gone: the saved dict is
    the reply with the time of saving as [timestamp], nothing of the old
    dict is carried over. *)
Theorem refresh_takes_new_refresh_token
    (w : world) (m r : gmap string pyval) (rt new_rt : pyval) (txt : string)
    (rest : list response) :
  token_file w = Some (JsonText (PyDict m)) ->
  needs_refresh (clock w) (cached_timestamp m) (cached_expires_in m) = Returns true ->
  m !! "refresh_token" = Some rt -> truthy rt = true ->
  replies w = Response 200 txt (Some (PyDict r)) :: rest ->
  r !! "refresh_token" = Some new_rt ->
  let saved := <["timestamp" := PyInt (clock w)]> r in
  exists w',
    load_tokens w = (Returns (PyDict saved), w')
    /\ token_file w' = Some (JsonText (PyDict saved))
    /\ saved !! "refresh_token" = Some new_rt
    /\ (forall k, k <> "timestamp" -> saved !! k = r !! k).
Proof.
  intros F S E T R N saved.
  rewrite load_tokens_eq, F, S.
  rewrite (refresh_branch_accepted m r w rt txt rest E T R), N.
  rewrite save_tokens_dict.
  eexists. split; [reflexivity|].
  split; [destruct w; reflexivity|].
  subst saved. split.
  - rewrite lookup_insert_ne by discriminate. exact N.
  - intros k Hk. apply lookup_insert_ne. congruence.
Qed.

Lemma refresh_takes_new_refresh_token_witness :
  exists w',
    load_tokens rotating_world
    = (Returns (PyDict (dict [("access_token", PyStr "tok2");
                              ("refresh_token", PyStr "refresh2");
                              ("expires_in", PyInt 3600);
                              ("timestamp", PyInt 1700003400)])), w').
Proof.
  destruct (refresh_takes_new_refresh_token rotating_world stale_refreshable
              (dict [("access_token", PyStr "tok2");
                     ("refresh_token", PyStr "refresh2");
                     ("expires_in", PyInt 3600)])
              (PyStr "refresh1") (PyStr "refresh2")
              "{access_token: tok2, refresh_token: refresh2, expires_in: 3600}" []
              eq_refl eq_refl eq_refl eq_refl eq_refl eq_refl)
    as (w' & L & _).
  exists w'. exact L.
Defined.

(** What [load_tokens] finds right after a save. *)
Lemma load_tokens_after_save (w : world) (m : gmap string pyval) :
  lifetime_covers_margin m = true ->
  load_tokens (after_save m w)
  = (Returns (PyDict (stamped (clock w) m)), after_save m w).
Proof.
  intros L. rewrite load_tokens_eq.
  replace (token_file (after_save m w))
    with (Some (JsonText (PyDict (stamped (clock w) m))))
    by (destruct w; reflexivity).
  replace (clock (after_save m w)) with (clock w) by (destruct w; reflexivity).
  unfold cached_timestamp, cached_expires_in, stamped.
  rewrite lookup_insert_eq, lookup_insert_ne by discriminate.
  cbn [default from_option id].
  unfold lifetime_covers_margin in L. unfold needs_refresh, py_sub.
  destruct (m !! "expires_in") as [v|]; cbn [default from_option id as_int].
  - destruct (as_int v) as [n|]; [|discriminate].
    replace (clock w - clock w >? n - 300) with false by lia. reflexivity.
  - replace (clock w - clock w >? 86400 - 300) with false by lia. reflexivity.
Qed.

(** X5.  A refresh is made once: after [load_tokens] refreshed a stale
    dict and the new dict announces a lifetime of at least 300 seconds
    (or none), the next [load_tokens] returns the dict just saved and
    does nothing else, whatever the endpoint would answer. *)
Theorem load_after_refresh_is_quiet
    (w : world) (m r : gmap string pyval) (rt : pyval) (txt : string)
    (rest : list response) :
  token_file w = Some (JsonText (PyDict m)) ->
  needs_refresh (clock w) (cached_timestamp m) (cached_expires_in m) = Returns true ->
  m !! "refresh_token" = Some rt -> truthy rt = true ->
  replies w = Response 200 txt (Some (PyDict r)) :: rest ->
  lifetime_covers_margin r = true ->
  exists saved w',
    load_tokens w = (Returns (PyDict saved), w')
    /\ load_tokens w' = (Returns (PyDict saved), w')
    /\ get_authorization_header w' = (Returns (header_of r), w').
Proof.
  intros F S E T R L.
  set (merged := match r !! "refresh_token" with
                 | Some _ => r
                 | None => <["refresh_token" := rt]> r
                 end).
  assert (LM : lifetime_covers_margin merged = true).
  { subst merged. destruct (r !! "refresh_token"); [exact L|].
    unfold lifetime_covers_margin in *.
    rewrite lookup_insert_ne by discriminate. exact L. }
  set (w0 := after_post (refresh_form (cfg w) rt) rest w).
  assert (C : clock w0 = clock w) by (destruct w; reflexivity).
  exists (stamped (clock w) merged), (after_save merged w0).
  assert (L1 : load_tokens w
               = (Returns (PyDict (stamped (clock w) merged)), after_save merged w0)).
  { rewrite load_tokens_eq, F, S.
    rewrite (refresh_branch_accepted m r w rt txt rest E T R).
    rewrite save_tokens_dict. fold merged. fold w0. rewrite C. reflexivity. }
  assert (L2 : load_tokens (after_save merged w0)
               = (Returns (PyDict (stamped (clock w) merged)), after_save merged w0)).
  { rewrite <- C. apply load_tokens_after_save. exact LM. }
  repeat apply conj; [exact L1 | exact L2 |].
  rewrite (get_authorization_header_dict _ _ _ L2). f_equal. f_equal.
  unfold header_of, stamped. rewrite lookup_insert_ne by discriminate.
  subst merged. destruct (r !! "refresh_token"); [reflexivity|].
  rewrite lookup_insert_ne by discriminate. reflexivity.
Qed.

Lemma load_after_refresh_is_quiet_witness :
  exists saved w',
    load_tokens rotating_world = (Returns (PyDict saved), w')
    /\ load_tokens w' = (Returns (PyDict saved), w')
    /\ get_authorization_header w' = (Returns (Some (Bearer (PyStr "tok2"))), w').
Proof.
  exact (load_after_refresh_is_quiet rotating_world stale_refreshable
           (dict [("access_token", PyStr "tok2");
                  ("refresh_token", PyStr "refresh2");
                  ("expires_in", PyInt 3600)])
           (PyStr "refresh1")
           "{access_token: tok2, refresh_token: refresh2, expires_in: 3600}" []
           eq_refl eq_refl eq_refl eq_refl eq_refl eq_refl).
Defined.

(** X6.  A 200 reply to a refresh whose JSON is not an object never
    reaches the cache: whatever the value is, [load_tokens] ends in a
    [TypeError] that is not caught, and the cache file is as it was. *)
Theorem refresh_with_non_object_reply
    (w : world) (m : gmap string pyval) (rt v : pyval) (txt : string)
    (rest : list response) :
  token_file w = Some (JsonText (PyDict m)) ->
  needs_refresh (clock w) (cached_timestamp m) (cached_expires_in m) = Returns true ->
  m !! "refresh_token" = Some rt -> truthy rt = true ->
  replies w = Response 200 txt (Some v) :: rest ->
  (forall r, v <> PyDict r) ->
  load_tokens w = (Raises TypeError, after_post (refresh_form (cfg w) rt) rest w)
  /\ token_file (load_tokens w).2 = token_file w.
Proof.
  intros F S E T R V.
  assert (L : load_tokens w
              = (Raises TypeError, after_post (refresh_form (cfg w) rt) rest w)).
  { rewrite load_tokens_eq, F, S.
    destruct w as [c t f h l a rs u p tr fr sd]. simpl in *. subst.
    unfold refresh_branch, refresh_access_token, client_post, response_json,
      save_tokens, int_time_time, try_except_AuthError, mbind, M_bind, mret, M_ret,
      lift, raise, get_world, modify, emit.
    simpl. rewrite E. simpl. rewrite T. simpl.
    destruct v as [|b|n|s|l0|r]; simpl; try reflexivity.
    - destruct (substring_of "refresh_token" s); simpl; rewrite ?E; reflexivity.
    - destruct (existsb (is_str "refresh_token") l0); simpl; rewrite ?E; reflexivity.
    - exfalso. apply (V r). reflexivity. }
  split; [exact L|]. rewrite L. destruct w; reflexivity.
Qed.

Lemma refresh_with_non_object_reply_witness :
  (load_tokens list_reply_world).1 = Raises TypeError
  /\ token_file (load_tokens list_reply_world).2 = token_file list_reply_world.
Proof.
  destruct (refresh_with_non_object_reply list_reply_world stale_refreshable
              (PyStr "refresh1") (PyList [PyInt 1]) "[1]" []
              eq_refl eq_refl eq_refl eq_refl eq_refl
              ltac:(intros r; discriminate))
    as [L F].
  split; [rewrite L; reflexivity | exact F].
Defined.

(** The header is made from what [load_tokens] returns, with no further
    effect. *)
Lemma get_authorization_header_world (w : world) :
  (get_authorization_header w).2 = (load_tokens w).2.
Proof.
  unfold get_authorization_header. unfold mbind at 1. unfold M_bind.
  destruct (load_tokens w) as [[t| |] w']; try reflexivity.
  unfold mbind at 1. unfold M_bind.
  pose proof (has_access_token_world t w') as H.
  destruct (has_access_token t w') as [[[|]| |] w'']; cbn [snd] in *; subst;
    try reflexivity.
  unfold mbind, M_bind, lift, mret, M_ret.
  destruct (py_getitem t "access_token"); reflexivity.
Qed.

Lemma refresh_branch_posts_once (v : pyval) (w : world) :
  exists evs,
    trace (refresh_branch v w).2 = trace w ++ evs /\ (posts evs <= 1)%nat.
Proof.
  destruct w as [c t f h l a rs u p tr fr sd].
  unfold refresh_branch, refresh_access_token, client_post, response_json,
    save_tokens, json_dump, int_time_time, print, try_except_AuthError,
    mbind, M_bind, mret, M_ret, lift, raise, get_world, modify, emit.
  assert (Z0 : forall evs : list event, evs = [] -> tr = tr ++ evs)
    by (intros ? ->; rewrite app_nil_r; reflexivity).
  destruct v as [|b|n|s|l0|m]; simpl;
    try (exists []; split; [apply Z0; reflexivity | unfold posts; simpl; lia]).
  destruct (truthy (default PyNone (m !! "refresh_token"))); simpl;
    [|exists []; split; [apply Z0; reflexivity | unfold posts; simpl; lia]].
  destruct rs as [|[st tx b] rest]; simpl;
    [eexists; split; [reflexivity | unfold posts; simpl; lia]|].
  destruct (st =? 200); simpl;
    [|eexists; split; [rewrite <- ?app_assoc; reflexivity | unfold posts; simpl; lia]].
  destruct b as [[|b|n|s|l0|r]|]; simpl;
    try (eexists; split; [rewrite <- ?app_assoc; reflexivity | unfold posts; simpl; lia]).
  - destruct (substring_of "refresh_token" s); simpl;
      try destruct (bool_decide (is_Some (m !! "refresh_token"))); simpl;
      try destruct (m !! "refresh_token"); simpl;
      eexists; (split; [rewrite <- ?app_assoc; reflexivity | unfold posts; simpl; lia]).
  - destruct (existsb (is_str "refresh_token") l0); simpl;
      try destruct (bool_decide (is_Some (m !! "refresh_token"))); simpl;
      try destruct (m !! "refresh_token"); simpl;
      eexists; (split; [rewrite <- ?app_assoc; reflexivity | unfold posts; simpl; lia]).
  - destruct (bool_decide (is_Some (r !! "refresh_token"))); simpl;
      try destruct (bool_decide (is_Some (m !! "refresh_token"))); simpl;
      try destruct (m !! "refresh_token"); simpl;
      eexists; (split; [rewrite <- ?app_assoc; reflexivity | unfold posts; simpl; lia]).
Qed.

(** X7.  Whatever the cache holds and whatever the endpoint answers, one
    call of [get_authorization_header] (or of [load_tokens]) sends at most
    one POST; with no cache file it has no effect at all. *)
Theorem header_posts_at_most_once (w : world) :
  (get_authorization_header w).2 = (load_tokens w).2
  /\ (exists evs,
        trace (get_authorization_header w).2 = trace w ++ evs
        /\ (posts evs <= 1)%nat)
  /\ match token_file w with
     | None => (get_authorization_header w).2 = w
     | Some _ => True
     end.
Proof.
  split; [apply get_authorization_header_world|]. split.
  - rewrite get_authorization_header_world, load_tokens_eq.
    assert (Z0 : exists evs, trace w = trace w ++ evs /\ (posts evs <= 1)%nat)
      by (exists []; rewrite app_nil_r; split; [reflexivity | unfold posts; simpl; lia]).
    destruct (token_file w) as [[|[| | | | |m]]|]; try exact Z0.
    destruct (needs_refresh _ _ _) as [[|]| |]; try exact Z0.
    apply refresh_branch_posts_once.
  - destruct (token_file w) eqn:F; [exact I|].
    rewrite get_authorization_header_world, load_tokens_eq, F. reflexivity.
Qed.

End CacheMore.

(* ===================================================================== *)
(** ** More on the interactive flow *)
(* ===================================================================== *)

Section FlowMore.
Import Auth Scenario Cases.

Lemma total_duration_nonneg (l : list nap) : 0 <= total_duration l.
Proof. pose proof (total_duration_long l). unfold one_second in *. lia. Qed.

Lemma total_duration_take (k : nat) (l : list nap) :
  total_duration (take k l) <= total_duration l.
Proof.
  rewrite <- (take_drop k l) at 2. rewrite total_duration_app.
  pose proof (total_duration_nonneg (drop k l)). lia.
Qed.

(** In the connections of one sleep, the code that stays is the first
    value given by the last request that carries one. *)
Lemma captured_code_last (before after : list connection) (q : request)
    (code : string) (more : list string) (old : option string) :
  forallb sends before = true ->
  query_values "code" q = code :: more ->
  forallb (fun c => negb (brings_code c)) after = true ->
  captured_code (before ++ Sends q :: after) old = Some code.
Proof.
  intros B Q A. revert old.
  induction before as [|[b|] before IH]; intros old.
  - cbn [app captured_code]. rewrite Q. apply captured_code_none. exact A.
  - cbn [app captured_code]. apply IH. exact B.
  - discriminate.
Qed.

(** X8.  A code that arrives while the window is open is returned.  Let
    the loop go through sleeps in which nobody brings a code and
    everybody who connects sends a request, lasting 300 seconds or less
    together: when it tests the time once more the window is still open,
    so it sleeps again, and the connections of that sleep are all served
    before it looks at the code.  The code returned is the first [code]
    value of the last request of that sleep that carries one; earlier
    codes of the same sleep are overwritten, and what later sleeps would
    bring is never taken.  The listener is then shut down. *)
Theorem code_within_window_is_returned
    (w : world) (idle : list nap) (late : positive)
    (before after : list connection) (q : request)
    (code : string) (more : list string) (later : list nap) :
  handler_code w = None -> listener w = PortFree ->
  arrivals w = idle ++ Nap late (before ++ Sends q :: after) :: later ->
  total_duration idle <= window ->
  forallb without_code idle = true -> forallb all_send idle = true ->
  forallb sends before = true ->
  query_values "code" q = code :: more ->
  forallb (fun c => negb (brings_code c)) after = true ->
  forallb sends after = true ->
  let w1 := Nat.iter (S (length idle)) slept (flow_opened w) in
  get_authorization_code w
  = (Returns (Some code, pkce_verifier w), shut_down w1)
  /\ reading w1 = reading w + total_duration idle + (one_second + Z.pos late)
  /\ arrivals w1 = later
  /\ handler_code w1 = Some code
  /\ listener (shut_down w1) = Bound false.
Proof.
  intros H L A W I Sd B Q Af Sa. cbv zeta.
  set (m := length idle).
  set (fo := flow_opened w).
  set (busy := Nap late (before ++ Sends q :: after)) in *.
  assert (H0 : handler_code fo = None) by (subst fo; destruct w; exact H).
  assert (S0 : stalled fo = false) by (subst fo; destruct w; reflexivity).
  assert (L0 : listener fo = Bound true) by (subst fo; destruct w; reflexivity).
  assert (A0 : arrivals fo = idle ++ busy :: later) by (subst fo; destruct w; exact A).
  assert (R0 : reading fo = reading w) by apply reading_flow_opened.
  assert (Tk : take m (arrivals fo) = idle)
    by (rewrite A0; apply take_app_length).
  assert (Qm : quiet_for m fo = true) by (unfold quiet_for; rewrite Tk; exact I).
  assert (Sm : all_send_for m fo = true) by (unfold all_send_for; rewrite Tk; exact Sd).
  assert (Len : (S m <= length (arrivals fo))%nat)
    by (rewrite A0, length_app; fold m; simpl; lia).
  (* the sleeps in which nobody brings a code *)
  assert (Idle : forall k, (k <= m)%nat ->
            handler_code (Nat.iter k slept fo) = None
            /\ stalled (Nat.iter k slept fo) = false
            /\ reading (Nat.iter k slept fo) - reading w <= window).
  { intros k K. split; [apply (quiet_rounds m); auto|].
    split; [apply (sending_rounds m); auto|].
    rewrite reading_sleeps by lia. rewrite R0.
    replace (take k (arrivals fo)) with (take k idle)
      by (rewrite A0, take_app_le by (fold m; lia); reflexivity).
    pose proof (total_duration_take k idle). lia. }
  (* the sleep in which the code arrives *)
  set (wm := Nat.iter m slept fo) in *.
  destruct (sleeps_frame m fo) as (_ & Lm & Am & _). fold wm in Lm, Am.
  assert (Am' : arrivals wm = busy :: later)
    by (rewrite Am, A0; apply drop_app_length).
  destruct (Idle m (Nat.le_refl m)) as (Hm & Stm & _). fold wm in Hm, Stm.
  assert (Nx : next_nap wm = busy) by (unfold next_nap; rewrite Am'; reflexivity).
  assert (W1 : Nat.iter (S m) slept fo = slept wm) by reflexivity.
  assert (Hs : handler_code (slept wm) = Some code).
  { rewrite slept_handler_code, Lm, L0, Stm, Nx, Hm.
    apply (captured_code_last before after q code more); assumption. }
  assert (Ss : stalled (slept wm) = false).
  { rewrite slept_stalled, Lm, L0, Stm, Nx. unfold all_send, busy. cbn [callers].
    rewrite forallb_app. cbn [forallb sends]. rewrite B, Sa. reflexivity. }
  (* the loop takes exactly these sleeps *)
  destruct (get_authorization_code_runs w L) as (n & _ & Qn & _ & R).
  fold fo in Qn, R. cbv zeta in R.
  assert (N : n = S m).
  { destruct (Nat.lt_trichotomy n (S m)) as [Lt | [Eq | Gt]]; [|exact Eq|].
    - exfalso. destruct (Idle n ltac:(lia)) as (Hn & _ & Tn).
      destruct R as [(c & C & _) | (_ & T & _)]; [congruence | lia].
    - exfalso. destruct (Qn (S m) Gt) as [Hn _]. rewrite W1 in Hn. congruence. }
  subst n. rewrite W1 in *.
  destruct R as [(c & C & G) | (Hn & _)]; [|congruence].
  unfold behind_shutdown in G. rewrite Ss in G.
  assert (c = code) by congruence. subst c.
  split; [exact G|]. split; [|split; [|split]].
  - rewrite reading_slept, Nx. unfold wm. rewrite reading_sleeps by lia.
    rewrite Tk, R0. unfold duration, busy. cbn [overrun]. lia.
  - rewrite slept_arrivals, Am'. reflexivity.
  - exact Hs.
  - destruct (slept wm); reflexivity.
Qed.

Lemma code_within_window_is_returned_witness :
  let w1 := Nat.iter 3 slept (flow_opened busy_world) in
  get_authorization_code busy_world
  = (Returns (Some "SECOND", pkce_verifier busy_world), shut_down w1)
  /\ arrivals w1 = [ calls [ [("code", "LATE")] ] ].
Proof.
  destruct (code_within_window_is_returned busy_world
              [ calls []; calls [] ] 250
              [ Sends [("code", "FIRST")] ] [ Sends [("state", "xyz")] ]
              [("code", "SECOND"); ("code", "THIRD")] "SECOND" ["THIRD"]
              [ calls [ [("code", "LATE")] ] ]
              eq_refl eq_refl eq_refl ltac:(vm_compute; discriminate)
              eq_refl eq_refl eq_refl eq_refl eq_refl eq_refl)
    as (G & _ & A & _).
  split; assumption.
Defined.

(** *** authenticate through the exchange *)

Lemma get_access_token_eq (code : option string) (verifier : string) (w : world)
    (resp : response) (rest : list response) :
  replies w = resp :: rest ->
  get_access_token code verifier w
  = (if status_code resp =? 200
     then match json_body resp with
          | Some v => Returns v
          | None => Raises JSONDecodeError
          end
     else Raises (AuthError ("Failed to get access token: " +:+ text resp)),
     after_post (exchange_form (cfg w) code verifier) rest w).
Proof.
  intros R. destruct w as [c t f h l a rs u p tr fr sd]. simpl in R. subst rs.
  unfold get_access_token, client_post, response_json,
    mbind, M_bind, mret, M_ret, raise, get_world, modify, emit.
  simpl. destruct (status_code resp =? 200); simpl; [|reflexivity].
  destruct (json_body resp); reflexivity.
Qed.

(** X9.  When the flow has captured a code and the endpoint answers the
    exchange with 200 and a JSON object, [authenticate] returns that
    object stamped with the time of saving, and the cache file holds it.
    The one POST carries the captured code together with the verifier
    whose challenge was put into the authorization URL that was opened. *)
Theorem authenticate_success
    (w w1 : world) (code : option string) (verifier txt : string)
    (r : gmap string pyval) (rest : list response) :
  token_file w = None ->
  get_authorization_code w = (Returns (code, verifier), w1) ->
  replies w = Response 200 txt (Some (PyDict r)) :: rest ->
  let form := exchange_form (cfg w) code (pkce_verifier w) in
  let w' := after_save r (after_post form rest w1) in
  authenticate w = (Returns (PyDict (stamped (clock w1) r)), w')
  /\ token_file w' = Some (JsonText (PyDict (stamped (clock w1) r)))
  /\ verifier = pkce_verifier w
  /\ (exists evs,
        trace w'
        = trace w ++ opening_events w ++ evs
          ++ [ Posted ADOBE_TOKEN_URL form;
               FileWritten (PyDict (stamped (clock w1) r));
               Printed ("Tokens saved to " +:+ token_file_path) ]).
Proof.
  intros F G R form w'.
  destruct (get_authorization_code_returns w w1 code verifier G) as [L V].
  pose proof (get_authorization_code_frame w) as (A & B & C & _ & _ & T).
  rewrite G in A, B, C, T. cbn [snd] in A, B, C, T.
  destruct (T L) as [evs Tr].
  assert (Au : authenticate w = (Returns (PyDict (stamped (clock w1) r)), w')).
  { rewrite authenticate_without_cache by exact F.
    unfold interactive_flow, try_except_AuthError.
    unfold mbind at 1. unfold M_bind. rewrite G.
    unfold mbind at 1. unfold M_bind.
    rewrite (get_access_token_eq code verifier w1 _ rest) by (rewrite C; exact R).
    cbn [status_code json_body Z.eqb Pos.eqb].
    rewrite save_tokens_dict. subst w' form. rewrite A, V.
    replace (clock (after_post (exchange_form (cfg w) code (pkce_verifier w)) rest w1))
      with (clock w1) by (destruct w1; reflexivity).
    reflexivity. }
  split; [exact Au|]. split; [subst w'; destruct w1; reflexivity|].
  split; [exact V|].
  exists evs. subst w'. destruct w1 as [c1 t1 f1 h1 l1 a1 rs1 u1 p1 tr1 fr1 sd1].
  cbn [trace] in Tr. subst tr1.
  unfold after_save, after_post, log, set_replies, set_token_file.
  cbn [trace cfg clock token_file handler_code listener arrivals replies urandom
       urandom_pos fraction stalled].
  rewrite <- !app_assoc. reflexivity.
Qed.

Lemma authenticate_success_witness :
  (authenticate busy_world).1
  = Returns (PyDict (dict [("access_token", PyStr "tok1");
                           ("expires_in", PyInt 3600);
                           ("timestamp", PyInt 1700000003)]))
  /\ (get_authorization_code busy_world).1
     = Returns (Some "SECOND", pkce_verifier busy_world).
Proof.
  assert (G : get_authorization_code busy_world
              = (Returns (Some "SECOND", pkce_verifier busy_world),
                 (get_authorization_code busy_world).2))
    by (vm_compute; reflexivity).
  destruct (authenticate_success busy_world (get_authorization_code busy_world).2
              (Some "SECOND") (pkce_verifier busy_world)
              "{access_token: tok1, expires_in: 3600}"
              (dict [("access_token", PyStr "tok1"); ("expires_in", PyInt 3600)])
              [] eq_refl G eq_refl)
    as (Au & _).
  split; [rewrite Au; vm_compute; reflexivity | rewrite G; reflexivity].
Defined.

(** X10.  When the endpoint rejects the exchange, [authenticate] prints
    the reply's text and returns [None]; nothing is written, so a process
    that had no cache file still has none, and the exchange is not tried
    again. *)
Theorem rejected_exchange_writes_nothing
    (w w1 : world) (code : option string) (verifier : string)
    (resp : response) (rest : list response) :
  token_file w = None ->
  get_authorization_code w = (Returns (code, verifier), w1) ->
  replies w = resp :: rest -> status_code resp <> 200 ->
  let w' := log (Printed ("Authentication error: Failed to get access token: "
                          +:+ text resp))
              (after_post (exchange_form (cfg w) code verifier) rest w1) in
  authenticate w = (Returns PyNone, w')
  /\ token_file w' = None /\ replies w' = rest.
Proof.
  intros F G R St w'.
  pose proof (get_authorization_code_frame w) as (A & B & C & _).
  rewrite G in A, B, C. cbn [snd] in A, B, C.
  split; [|split].
  - rewrite authenticate_without_cache by exact F.
    unfold interactive_flow, try_except_AuthError. unfold mbind at 1. unfold M_bind. rewrite G.
    unfold mbind at 1. unfold M_bind.
    rewrite (get_access_token_eq code verifier w1 resp rest) by (rewrite C; exact R).
    replace (status_code resp =? 200) with false by lia.
    subst w'. rewrite A. reflexivity.
  - subst w'. destruct w1; simpl in *. congruence.
  - subst w'. destruct w1; reflexivity.
Qed.

Lemma rejected_exchange_writes_nothing_witness :
  (authenticate rejected_exchange_world).1 = Returns PyNone
  /\ token_file (authenticate rejected_exchange_world).2 = None.
Proof.
  assert (G : get_authorization_code rejected_exchange_world
              = (Returns (Some "ABC123", pkce_verifier rejected_exchange_world),
                 (get_authorization_code rejected_exchange_world).2))
    by (vm_compute; reflexivity).
  destruct (rejected_exchange_writes_nothing rejected_exchange_world
              (get_authorization_code rejected_exchange_world).2
              (Some "ABC123") (pkce_verifier rejected_exchange_world)
              (Response 400 "invalid_grant" None) []
              eq_refl G eq_refl ltac:(vm_compute; discriminate))
    as (Au & F & _).
  rewrite Au. split; [reflexivity | exact F].
Defined.

(** X11.  When the port cannot be bound, [authenticate] does not return
    [None]: the [OSError] of the [TCPServer] constructor is no
    [AuthError] and leaves [authenticate] as it is.  By then the verifier
    has been drawn, but nothing was printed, no browser was opened and
    nothing was posted or written. *)
Theorem port_taken_is_fatal (w : world) (serving : bool) :
  token_file w = None -> listener w = Bound serving ->
  authenticate w = (Raises OSError, set_urandom_pos (urandom_pos w + 32)%nat w)
  /\ trace (authenticate w).2 = trace w
  /\ listener (authenticate w).2 = Bound serving.
Proof.
  intros F L.
  assert (Au : authenticate w
               = (Raises OSError, set_urandom_pos (urandom_pos w + 32)%nat w)).
  { rewrite authenticate_without_cache by exact F.
    unfold interactive_flow, try_except_AuthError. unfold mbind at 1. unfold M_bind.
    rewrite (get_authorization_code_port_taken w serving L). reflexivity. }
  rewrite Au. destruct w; simpl in *. auto.
Qed.

Lemma port_taken_is_fatal_witness :
  (authenticate port_taken_world).1 = Raises OSError
  /\ trace (authenticate port_taken_world).2 = [].
Proof.
  destruct (port_taken_is_fatal port_taken_world false eq_refl eq_refl)
    as (Au & T & _).
  split; [rewrite Au; reflexivity | exact T].
Defined.

(** X12.  With a cached dict that passes the freshness test and has an
    access token, [authenticate] prints [Using existing access token] and
    returns the dict: nothing is posted, no randomness is drawn, the
    listener is not touched, the file is not rewritten. *)
Theorem authenticate_uses_fresh_cache
    (w : world) (m : gmap string pyval) (tok : pyval) :
  token_file w = Some (JsonText (PyDict m)) ->
  needs_refresh (clock w) (cached_timestamp m) (cached_expires_in m) = Returns false ->
  m !! "access_token" = Some tok ->
  authenticate w
  = (Returns (PyDict m), log (Printed "Using existing access token") w).
Proof.
  intros F N A. unfold authenticate.
  unfold mbind at 1. unfold M_bind. rewrite load_tokens_eq, F, N.
  unfold mbind at 1. unfold M_bind. rewrite has_access_token_dict, A.
  reflexivity.
Qed.

Lemma authenticate_uses_fresh_cache_witness :
  authenticate fresh_world
  = (Returns (PyDict fresh_tokens), log (Printed "Using existing access token") fresh_world).
Proof.
  exact (authenticate_uses_fresh_cache fresh_world fresh_tokens (PyStr "tok1")
           eq_refl eq_refl eq_refl).
Defined.

(** X13.  With no cache file and the port free, [authenticate] always
    goes through the interactive flow, whatever arrives and whatever the
    endpoint answers: it draws the 32 bytes of a verifier, binds and
    starts the listener, and opens the authorization URL that carries the
    challenge of that verifier; and when it ends the listener has been
    shut down. *)
Theorem authenticate_starts_flow (w : world) :
  token_file w = None -> listener w = PortFree ->
  (exists evs, trace (authenticate w).2 = trace w ++ opening_events w ++ evs)
  /\ urandom_pos (authenticate w).2 = (urandom_pos w + 32)%nat
  /\ listener (authenticate w).2 = Bound false.
Proof.
  intros F L.
  rewrite authenticate_without_cache by exact F.
  unfold interactive_flow. rewrite try_bind.
  pose proof (get_authorization_code_frame w) as (_ & _ & _ & _ & U & T).
  destruct (T L) as [evs Tr]. clear T.
  assert (LS : listener (get_authorization_code w).2 = Bound false).
  { destruct (get_authorization_code_ends w L) as (n & _ & E). rewrite E.
    destruct (Nat.iter n slept (flow_opened w)); reflexivity. }
  destruct (get_authorization_code w) as [[[code v]|e|] w1]; cbn [fst snd] in *.
  - pose proof (offline_after_flow code v w1) as (_ & _ & _ & OL & _ & OU & evs2 & OT & _).
    repeat apply conj.
    + exists (evs ++ evs2). rewrite OT, Tr, <- !app_assoc. reflexivity.
    + congruence.
    + congruence.
  - destruct e; cbn [snd]; try (repeat apply conj; [exists evs; exact Tr | exact U | exact LS]).
    destruct w1 as [c1 t1 f1 h1 l1 a1 rs1 u1 p1 tr1 fr1 sd1]. simpl in *. subst.
    repeat apply conj; try reflexivity.
    eexists. rewrite <- !app_assoc. reflexivity.
  - repeat apply conj; [exists evs; exact Tr | exact U | exact LS].
Qed.

Lemma authenticate_starts_flow_witness :
  (exists evs,
      trace (authenticate code_arrives_world).2
      = trace code_arrives_world ++ opening_events code_arrives_world ++ evs)
  /\ urandom_pos (authenticate code_arrives_world).2
     = (urandom_pos code_arrives_world + 32)%nat
  /\ listener (authenticate code_arrives_world).2 = Bound false.
Proof.
  apply (authenticate_starts_flow code_arrives_world); reflexivity.
Defined.

End FlowMore.

(* ===================================================================== *)
(** ** The authorization URL *)
(* ===================================================================== *)

Section UrlMore.
Import Auth Codec.

Lemma urlencode_more k v p rest :
  urlencode ((k, v) :: p :: rest)
  = quote_plus k +:+ "=" +:+ quote_plus v +:+ "&" +:+ urlencode (p :: rest).
Proof. destruct p. reflexivity. Qed.

Lemma urlencode_last k v :
  urlencode [(k, v)] = quote_plus k +:+ "=" +:+ quote_plus v.
Proof. reflexivity. Qed.

Lemma quote_plus_url_safe (s : string) :
  string_forallb url_safe_char s = true -> quote_plus s = s.
Proof.
  induction s as [|c s IH]; intros H; [reflexivity|].
  cbn [string_forallb] in H. apply andb_true_iff in H as [Hc Hs].
  cbn [quote_plus]. unfold quote_plus_char. rewrite Hc, (IH Hs). reflexivity.
Qed.

Lemma generate_code_challenge_url_safe (verifier : string) :
  string_forallb url_safe_char (generate_code_challenge verifier) = true.
Proof.
  unfold generate_code_challenge. rewrite rstrip_urlsafe_b64encode.
  apply base64url_nopad_url_safe.
Qed.

Lemma string_forallb_app (p : ascii -> bool) (s t : string) :
  string_forallb p (s +:+ t) = string_forallb p s && string_forallb p t.
Proof.
  induction s as [|c s IH]; [reflexivity|].
  simpl. rewrite IH, andb_assoc. reflexivity.
Qed.

Lemma hex_digit_url_safe (n : Z) : url_safe_char (hex_digit n) = true.
Proof.
  unfold hex_digit. generalize (Z.to_nat n). intros k.
  do 16 (destruct k as [|k]; [reflexivity|]). destruct k; reflexivity.
Qed.

Lemma quote_plus_char_quoted (c : ascii) :
  string_forallb quoted_char (quote_plus_char c) = true.
Proof.
  unfold quote_plus_char.
  destruct (url_safe_char c) eqn:S.
  - cbn [string_forallb]. unfold quoted_char. rewrite S. reflexivity.
  - destruct (Ascii.eqb c " ").
    + reflexivity.
    + cbn [string_forallb]. unfold quoted_char at 2 3.
      rewrite !hex_digit_url_safe. reflexivity.
Qed.

(** X14.  The authorization URL.  Whatever the client id and the redirect
    URI are, their quoted forms hold nothing but unreserved characters,
    [%] and [+], so they cannot add or end a parameter; and the challenge
    made by [generate_code_challenge] goes into the URL unchanged, as the
    last parameter, after [code_challenge_method=S256]. *)
Theorem authorization_url_shape (c : config) (verifier s : string) :
  authorization_url c (generate_code_challenge verifier)
  = ADOBE_AUTH_URL +:+ "?client_id=" +:+ quote_plus (env_str (ADOBE_CLIENT_ID c))
    +:+ "&redirect_uri=" +:+ quote_plus (ADOBE_REDIRECT_URI c)
    +:+ "&response_type=code"
    +:+ "&scope=openid%2CAdobeID%2Ccreative_sdk%2Clr_partner_apis"
    +:+ "&code_challenge_method=S256"
    +:+ "&code_challenge=" +:+ generate_code_challenge verifier
  /\ string_forallb quoted_char (quote_plus s) = true.
Proof.
  split.
  - unfold authorization_url.
    rewrite !urlencode_more, urlencode_last.
    rewrite (quote_plus_url_safe (generate_code_challenge verifier))
      by apply generate_code_challenge_url_safe.
    change (quote_plus "client_id") with "client_id".
    change (quote_plus "redirect_uri") with "redirect_uri".
    change (quote_plus "response_type") with "response_type".
    change (quote_plus "code") with "code".
    change (quote_plus "scope") with "scope".
    change (quote_plus "openid,AdobeID,creative_sdk,lr_partner_apis")
      with "openid%2CAdobeID%2Ccreative_sdk%2Clr_partner_apis".
    change (quote_plus "code_challenge_method") with "code_challenge_method".
    change (quote_plus "S256") with "S256".
    change (quote_plus "code_challenge") with "code_challenge".
    reflexivity.
  - induction s as [|a s IH]; [reflexivity|].
    cbn [quote_plus]. rewrite string_forallb_app, quote_plus_char_quoted, IH.
    reflexivity.
Qed.

End UrlMore.

(* ===================================================================== *)
(** ** The callers: get_headers *)
(* ===================================================================== *)

Section CallersMore.
Import Auth Connections.

Lemma get_headers_eq (w : world) :
  get_headers w
  = match get_authorization_header w with
    | (Returns None, w') => (Returns (ConnectionError not_authenticated), w')
    | (Returns (Some bearer), w') =>
        (Returns (Done (Headers bearer (ADOBE_CLIENT_ID (cfg w')) "application/json")), w')
    | (Raises e, w') => (Raises e, w')
    | (Unfinished, w') => (Unfinished, w')
    end.
Proof.
  unfold get_headers. unfold mbind at 1. unfold M_bind.
  destruct (get_authorization_header w) as [[[b|]| |] w']; reflexivity.
Qed.

(** X15.  [get_headers] of the Lightroom and Aero connections never
    starts the interactive flow: like [get_authorization_header] it only
    prints, posts to the token endpoint and writes the cache file.  With
    no cache file it gives the [Not authenticated] error and has no
    effect.  With a cached dict that passes the freshness test and has an
    access token it gives the three headers, [Authorization] being
    [Bearer] of that token and [X-API-Key] the configured client id (also
    when that is unset), and has no effect.  Every exception of
    [get_authorization_header] passes through it. *)
Theorem get_headers_cases (w : world) :
  offline w (get_headers w).2
  /\ (token_file w = None ->
      get_headers w = (Returns (ConnectionError not_authenticated), w))
  /\ (forall m tok,
        token_file w = Some (JsonText (PyDict m)) ->
        needs_refresh (clock w) (cached_timestamp m) (cached_expires_in m)
        = Returns false ->
        m !! "access_token" = Some tok ->
        get_headers w
        = (Returns (Done (Headers (Bearer tok) (ADOBE_CLIENT_ID (cfg w))
                            "application/json")), w))
  /\ (forall e, (get_authorization_header w).1 = Raises e ->
                (get_headers w).1 = Raises e).
Proof.
  split; [|split; [|split]].
  - rewrite get_headers_eq.
    pose proof (offline_get_authorization_header w) as O.
    destruct (get_authorization_header w) as [[[b|]| |] w']; exact O.
  - intros F. rewrite get_headers_eq.
    rewrite (get_authorization_header_none w w); [reflexivity|].
    rewrite load_tokens_eq, F. reflexivity.
  - intros m tok F N A. rewrite get_headers_eq.
    rewrite (get_authorization_header_dict w w m)
      by (rewrite load_tokens_eq, F, N; reflexivity).
    unfold header_of. rewrite A. reflexivity.
  - intros e E. rewrite get_headers_eq.
    destruct (get_authorization_header w) as [[[b|]| |] w']; cbn [fst] in *;
      congruence.
Qed.

End CallersMore.

(* ===================================================================== *)
(** ** Invariants of every call *)
(* ===================================================================== *)

(** A preorder on worlds that the elementary steps respect is respected
    by every function of auth.py.  The steps are: an event is logged, a
    reply is consumed, the listener changes state, random bytes are
    drawn, the server thread is started or held, the program sleeps, the
    tokens are saved. *)
Section Steps.
Import Auth.
Context (R : relation world) `{!PreOrder R}.
Hypothesis R_log : forall e w, R w (log e w).
Hypothesis R_replies : forall rs w, R w (set_replies rs w).
Hypothesis R_listener : forall l w, R w (set_listener l w).
Hypothesis R_urandom_pos : forall n w, R w (set_urandom_pos n w).
Hypothesis R_stalled : forall b w, R w (set_stalled b w).
Hypothesis R_slept : forall w, R w (slept w).
Hypothesis R_save : forall v, keeps R (save_tokens v).

Lemma steps_time_sleep : keeps R time_sleep.
Proof. intros w. rewrite time_sleep_eq. apply R_slept. Qed.

Ltac steps_with known :=
  repeat first
    [ known
    | match goal with
      | |- keeps _ (save_tokens _) => apply R_save
      | |- keeps _ time_sleep => apply steps_time_sleep
      | |- keeps _ (modify _) =>
          apply keeps_modify; intros ?;
          first [ apply R_log | apply R_replies | apply R_listener
                | apply R_urandom_pos | apply R_stalled ]
      | |- keeps _ (try_except_AuthError _ _) =>
          apply keeps_try; [typeclasses eauto | | intros ?]
      | |- keeps _ (_ ≫= _) =>
          apply keeps_bind; [typeclasses eauto | | intros ?]
      end
    | progress unfold response_json, client_post, print, int_time_time,
        time_time, emit,
        path_exists, json_load, has_access_token, server_shutdown,
        webbrowser_open, thread_start, tcp_server, token_bytes,
        generate_code_verifier
    | progress cbv zeta
    | keeps_step ].

Lemma steps_wait_for_code (fuel : nat) (start : Z) :
  keeps R (wait_for_code fuel start).
Proof.
  induction fuel as [|fuel IH]; cbn [wait_for_code];
    steps_with ltac:(exact IH).
Qed.

Lemma steps_get_authorization_code : keeps R get_authorization_code.
Proof.
  unfold get_authorization_code.
  steps_with ltac:(apply steps_wait_for_code).
Qed.

Lemma steps_get_access_token code verifier :
  keeps R (get_access_token code verifier).
Proof. unfold get_access_token. steps_with fail. Qed.

Lemma steps_refresh_access_token rt : keeps R (refresh_access_token rt).
Proof. unfold refresh_access_token. steps_with fail. Qed.

Lemma steps_load_tokens : keeps R load_tokens.
Proof.
  unfold load_tokens, refresh_branch.
  steps_with ltac:(apply steps_refresh_access_token).
Qed.

Lemma steps_get_authorization_header : keeps R get_authorization_header.
Proof.
  unfold get_authorization_header.
  steps_with ltac:(apply steps_load_tokens).
Qed.

Lemma steps_authenticate : keeps R authenticate.
Proof.
  unfold authenticate.
  steps_with ltac:(
    idtac;
    match goal with
    | |- keeps _ load_tokens => apply steps_load_tokens
    | |- keeps _ get_authorization_code => apply steps_get_authorization_code
    | |- keeps _ (get_access_token _ _) => apply steps_get_access_token
    end).
Qed.

End Steps.

Section Invariants.
Import Auth.

#[local] Instance written_locally_preorder : PreOrder written_locally.
Proof.
  split.
  - intros w. split; [lia | left; reflexivity].
  - intros w1 w2 w3 [C12 F12] [C23 F23]. split; [lia|].
    destruct F23 as [E23 | (m & t & F & T & B)].
    + rewrite E23. destruct F12 as [E12 | (m & t & F & T & B)].
      * left. exact E12.
      * right. exists m, t. repeat apply conj; [exact F | exact T | lia | lia].
    + right. exists m, t. repeat apply conj; [exact F | exact T | lia | lia].
Qed.

#[local] Instance code_kept_preorder : PreOrder code_kept.
Proof.
  split.
  - intros w H. exact H.
  - intros w1 w2 w3 H12 H23 H. exact (H23 (H12 H)).
Qed.

Lemma captured_code_kept (batch : list connection) (old : option string) :
  is_Some old -> is_Some (captured_code batch old).
Proof.
  revert old. induction batch as [|[q|] batch IH]; intros old H; try exact H.
  cbn [captured_code]. apply IH.
  destruct (query_values "code" q); [exact H | eexists; reflexivity].
Qed.

Lemma written_locally_same (w w' : world) :
  clock w' = clock w -> token_file w' = token_file w -> written_locally w w'.
Proof. intros C F. split; [lia | left; exact F]. Qed.

Lemma written_locally_save v : keeps written_locally (save_tokens v).
Proof.
  intros w. destruct v as [| | | | |m];
    try (rewrite save_tokens_not_dict by (intros ?; discriminate); reflexivity).
  rewrite save_tokens_dict. cbn [snd]. destruct w as [c t f h l a rs u p tr fr sd].
  split; [simpl; lia|]. right.
  exists (stamped t m), t. simpl.
  repeat apply conj; [reflexivity | apply lookup_insert_eq | lia | lia].
Qed.

Lemma code_kept_save v : keeps code_kept (save_tokens v).
Proof.
  intros w. destruct (offline_save_tokens v w) as (_ & _ & H & _).
  unfold code_kept. rewrite H. auto.
Qed.

(** X16.  Whatever the provider answers and whatever arrives at the
    listener, after a call of [authenticate], [get_authorization_header],
    [load_tokens] or [get_authorization_code] the cache file is either
    what it was before the call, or holds a dict whose [timestamp] is an
    integer clock reading taken during the call.  A [timestamp] sent by
    the provider never reaches the file, and nothing but a dict is ever
    written. *)
Theorem cache_is_stamped_locally (w : world) :
  written_locally w (authenticate w).2
  /\ written_locally w (get_authorization_header w).2
  /\ written_locally w (load_tokens w).2
  /\ (get_authorization_code w).2.(token_file) = token_file w.
Proof.
  assert (L : forall e w, written_locally w (log e w))
    by (intros e [? ? ? ? ? ? ? ? ? ? ? ?]; apply written_locally_same; reflexivity).
  assert (P : forall rs w, written_locally w (set_replies rs w))
    by (intros e [? ? ? ? ? ? ? ? ? ? ? ?]; apply written_locally_same; reflexivity).
  assert (B : forall l w, written_locally w (set_listener l w))
    by (intros e [? ? ? ? ? ? ? ? ? ? ? ?]; apply written_locally_same; reflexivity).
  assert (U : forall n w, written_locally w (set_urandom_pos n w))
    by (intros e [? ? ? ? ? ? ? ? ? ? ? ?]; apply written_locally_same; reflexivity).
  assert (T : forall b w, written_locally w (set_stalled b w))
    by (intros e [? ? ? ? ? ? ? ? ? ? ? ?]; apply written_locally_same; reflexivity).
  assert (S : forall w, written_locally w (slept w)).
  { intros w0. pose proof (slept_clock w0).
    split; [lia | left; apply slept_token_file]. }
  split; [|split; [|split]].
  - apply (steps_authenticate written_locally);
      solve [assumption | apply written_locally_save].
  - apply (steps_get_authorization_header written_locally);
      solve [assumption | apply written_locally_save].
  - apply (steps_load_tokens written_locally);
      solve [assumption | apply written_locally_save].
  - apply (get_authorization_code_frame w).
Qed.

(** X17.  No function of auth.py clears [CallbackHandler.code]: a code
    held when a call starts is still held (the same or a later one) when
    it ends, whether the call returns or raises. *)
Theorem handler_code_is_never_cleared (w : world) :
  code_kept w (authenticate w).2
  /\ code_kept w (get_authorization_code w).2
  /\ handler_code (get_authorization_header w).2 = handler_code w.
Proof.
  assert (L : forall e w, code_kept w (log e w))
    by (intros e [? ? ? ? ? ? ? ? ? ? ? ?] H; exact H).
  assert (P : forall rs w, code_kept w (set_replies rs w))
    by (intros e [? ? ? ? ? ? ? ? ? ? ? ?] H; exact H).
  assert (B : forall l w, code_kept w (set_listener l w))
    by (intros e [? ? ? ? ? ? ? ? ? ? ? ?] H; exact H).
  assert (U : forall n w, code_kept w (set_urandom_pos n w))
    by (intros e [? ? ? ? ? ? ? ? ? ? ? ?] H; exact H).
  assert (T : forall b w, code_kept w (set_stalled b w))
    by (intros e [? ? ? ? ? ? ? ? ? ? ? ?] H; exact H).
  assert (S : forall w, code_kept w (slept w)).
  { intros w0 H. rewrite slept_handler_code.
    destruct (listener w0) as [|[|]]; destruct (stalled w0); try exact H.
    apply captured_code_kept. exact H. }
  split; [|split].
  - apply (steps_authenticate code_kept);
      solve [assumption | apply code_kept_save].
  - apply (steps_get_authorization_code code_kept);
      solve [assumption | apply code_kept_save].
  - apply (offline_get_authorization_header w).
Qed.

End Invariants.

(* ===================================================================== *)
(** ** How long a call can take *)
(* ===================================================================== *)

Section Window.
Import Auth Scenario Cases.

Lemma sleeps_app (e1 e2 : list event) : sleeps (e1 ++ e2) = (sleeps e1 + sleeps e2)%nat.
Proof. unfold sleeps. rewrite filter_app, length_app. reflexivity. Qed.

Lemma sleeps_offline (evs : list event) :
  forallb offline_event evs = true -> sleeps evs = 0%nat.
Proof.
  induction evs as [|e evs IH]; intros H; [reflexivity|].
  cbn [forallb] in H. apply andb_true_iff in H as [He Hs].
  change (e :: evs) with ([e] ++ evs). rewrite sleeps_app, (IH Hs).
  destruct e; try discriminate; reflexivity.
Qed.

Lemma trace_shut_down w : trace (shut_down w) = trace w ++ [ServerShutdown].
Proof. destruct w; reflexivity. Qed.

Lemma stalled_shut_down w : stalled (shut_down w) = stalled w.
Proof. destruct w; reflexivity. Qed.

(** The sleeps of a call of [get_authorization_code]. *)
Lemma get_authorization_code_sleeps (w : world) :
  exists evs,
    trace (get_authorization_code w).2 = trace w ++ evs /\ (sleeps evs <= 300)%nat.
Proof.
  destruct (listener w) as [|b] eqn:L.
  - destruct (get_authorization_code_ends w L) as (n & N & E). rewrite E.
    destruct (sleeps_frame n (flow_opened w)) as (_ & _ & _ & e & T & S).
    exists (opening_events w ++ e ++ [ServerShutdown]).
    rewrite trace_shut_down, T.
    replace (trace (flow_opened w)) with (trace w ++ opening_events w)
      by (destruct w; reflexivity).
    split; [rewrite <- !app_assoc; reflexivity|].
    rewrite !sleeps_app, S.
    replace (sleeps (opening_events w)) with 0%nat by reflexivity.
    replace (sleeps [ServerShutdown]) with 0%nat by reflexivity. lia.
  - rewrite (get_authorization_code_port_taken w b L).
    exists []. destruct w; simpl. rewrite app_nil_r. split; [reflexivity|].
    unfold sleeps. simpl. lia.
Qed.

(** The server thread, once held, stays held. *)
Lemma stalled_stays (n : nat) :
  forall w, stalled w = true -> stalled (Nat.iter n slept w) = true.
Proof.
  induction n as [|n IH]; intros w H; [exact H|].
  rewrite Nat.iter_succ_r. apply IH.
  rewrite slept_stalled, H. destruct (listener w) as [|[|]]; reflexivity.
Qed.

(** X18.  The loop sleeps 300 times at most, whatever arrives and with
    whatever fuel the model gives it, so a call of
    [get_authorization_code] or of [authenticate] does.  A call of
    [get_authorization_code] that has no end is one that waits in
    [server.shutdown()] for a server thread that a silent connection
    holds; when everybody who connects sends a request, both functions
    return or raise. *)
Theorem calls_end_within_window (w : world) :
  (forall extra,
      wait_for_code (poll_fuel + extra) (reading w) w
      = wait_for_code poll_fuel (reading w) w)
  /\ (exists evs,
        trace (get_authorization_code w).2 = trace w ++ evs
        /\ (sleeps evs <= 300)%nat)
  /\ (exists evs,
        trace (authenticate w).2 = trace w ++ evs /\ (sleeps evs <= 300)%nat)
  /\ ((get_authorization_code w).1 = Unfinished ->
      stalled (get_authorization_code w).2 = true
      /\ last (trace (get_authorization_code w).2) = Some ServerShutdown)
  /\ (everyone_sends w = true ->
      (get_authorization_code w).1 <> Unfinished
      /\ (authenticate w).1 <> Unfinished).
Proof.
  split; [intros extra; apply poll_fuel_enough|].
  split; [apply get_authorization_code_sleeps|].
  split; [|split].
  - destruct (authenticate_stages w)
      as (w0 & (_ & _ & _ & _ & _ & _ & e0 & T0 & S0) & [O | O]).
    + destruct O as (_ & _ & _ & _ & _ & _ & e1 & T1 & S1).
      exists (e0 ++ e1). split; [rewrite T1, T0, <- app_assoc; reflexivity|].
      rewrite sleeps_app, (sleeps_offline _ S0), (sleeps_offline _ S1). lia.
    + destruct O as (_ & _ & _ & _ & _ & _ & e2 & T2 & S2).
      destruct (get_authorization_code_sleeps w0) as (e1 & T1 & S1).
      exists (e0 ++ e1 ++ e2).
      split; [rewrite T2, T1, T0, <- !app_assoc; reflexivity|].
      rewrite !sleeps_app, (sleeps_offline _ S0), (sleeps_offline _ S2). lia.
  - intros U. destruct (listener w) as [|b] eqn:L.
    + destruct (get_authorization_code_runs w L) as (n & _ & _ & _ & R).
      cbv zeta in R. unfold behind_shutdown in R.
      destruct (stalled (Nat.iter n slept (flow_opened w))) eqn:S.
      * destruct R as [(c & _ & G) | (_ & _ & G)]; rewrite G; cbn [snd];
          rewrite stalled_shut_down, trace_shut_down, last_snoc; auto.
      * destruct R as [(c & _ & G) | (_ & _ & G)]; rewrite G in U; discriminate.
    + rewrite (get_authorization_code_port_taken w b L) in U. discriminate.
  - intros E. split; [apply get_authorization_code_finishes; exact E|].
    unfold authenticate. rewrite bind_run.
    pose proof (load_tokens_finishes w) as LF.
    pose proof (offline_load_tokens w) as (_ & _ & _ & _ & A & _).
    destruct (load_tokens w) as [[tokens|e|] w0]; cbn [fst snd] in *;
      [|discriminate|congruence].
    rewrite bind_run.
    pose proof (has_access_token_world tokens w0) as Hw.
    assert (HF : (has_access_token tokens w0).1 <> Unfinished).
    { unfold has_access_token. destruct (truthy tokens); [|discriminate].
      apply py_contains_finishes. }
    destruct (has_access_token tokens w0) as [[[|]|e|] w0']; cbn [fst snd] in *;
      subst; try discriminate; [|congruence].
    rewrite try_bind.
    assert (GF : (get_authorization_code w0).1 <> Unfinished).
    { apply get_authorization_code_finishes.
      unfold everyone_sends, all_send_for in *. rewrite A. exact E. }
    destruct (get_authorization_code w0) as [[[code v]|e|] w1]; cbn [fst] in *;
      [| |congruence].
    + apply after_flow_finishes.
    + destruct e; discriminate.
Qed.

(** X19.  A connection on which nothing is sent stops the call for ever.
    Let it be made while the window is open, after sleeps in which nobody
    brings a code and everybody sends, and after connections of the same
    sleep that all send.  Whether or not one of those brought a code,
    [get_authorization_code] comes to call [server.shutdown()], at once
    or when the window has closed, and does not come back from it; nor
    does [authenticate]. *)
Theorem silent_connection_blocks
    (w : world) (idle : list nap) (late : positive)
    (before after : list connection) (later : list nap) :
  handler_code w = None -> listener w = PortFree ->
  arrivals w = idle ++ Nap late (before ++ Silent :: after) :: later ->
  total_duration idle <= window ->
  forallb without_code idle = true -> forallb all_send idle = true ->
  forallb sends before = true ->
  (get_authorization_code w).1 = Unfinished
  /\ stalled (get_authorization_code w).2 = true
  /\ last (trace (get_authorization_code w).2) = Some ServerShutdown
  /\ (interactive_flow w).1 = Unfinished
  /\ (token_file w = None -> (authenticate w).1 = Unfinished).
Proof.
  intros H L A W I Sd B.
  set (m := length idle).
  set (fo := flow_opened w).
  set (busy := Nap late (before ++ Silent :: after)) in *.
  assert (H0 : handler_code fo = None) by (subst fo; destruct w; exact H).
  assert (S0 : stalled fo = false) by (subst fo; destruct w; reflexivity).
  assert (L0 : listener fo = Bound true) by (subst fo; destruct w; reflexivity).
  assert (A0 : arrivals fo = idle ++ busy :: later) by (subst fo; destruct w; exact A).
  assert (R0 : reading fo = reading w) by apply reading_flow_opened.
  assert (Tk : take m (arrivals fo) = idle)
    by (rewrite A0; apply take_app_length).
  assert (Qm : quiet_for m fo = true) by (unfold quiet_for; rewrite Tk; exact I).
  assert (Sm : all_send_for m fo = true) by (unfold all_send_for; rewrite Tk; exact Sd).
  assert (Len : (S m <= length (arrivals fo))%nat)
    by (rewrite A0, length_app; fold m; simpl; lia).
  assert (Idle : forall k, (k <= m)%nat ->
            handler_code (Nat.iter k slept fo) = None
            /\ stalled (Nat.iter k slept fo) = false
            /\ reading (Nat.iter k slept fo) - reading w <= window).
  { intros k K. split; [apply (quiet_rounds m); auto|].
    split; [apply (sending_rounds m); auto|].
    rewrite reading_sleeps by lia. rewrite R0.
    replace (take k (arrivals fo)) with (take k idle)
      by (rewrite A0, take_app_le by (fold m; lia); reflexivity).
    pose proof (total_duration_take k idle). lia. }
  set (wm := Nat.iter m slept fo) in *.
  destruct (sleeps_frame m fo) as (_ & Lm & Am & _). fold wm in Lm, Am.
  assert (Am' : arrivals wm = busy :: later)
    by (rewrite Am, A0; apply drop_app_length).
  destruct (Idle m (Nat.le_refl m)) as (Hm & Stm & _). fold wm in Hm, Stm.
  assert (Nx : next_nap wm = busy) by (unfold next_nap; rewrite Am'; reflexivity).
  assert (Ss : stalled (slept wm) = true).
  { rewrite slept_stalled, Lm, L0, Stm, Nx. unfold all_send, busy. cbn [callers].
    rewrite forallb_app. cbn [forallb sends]. rewrite andb_false_r. reflexivity. }
  destruct (get_authorization_code_runs w L) as (n & _ & _ & _ & R).
  fold fo in R. cbv zeta in R.
  assert (N : (S m <= n)%nat).
  { destruct (Nat.le_gt_cases (S m) n) as [Le | Gt]; [exact Le|].
    exfalso. destruct (Idle n ltac:(lia)) as (Hn & _ & Tn).
    destruct R as [(c & C & _) | (_ & T & _)]; [congruence | lia]. }
  assert (St : stalled (Nat.iter n slept fo) = true).
  { replace n with ((n - S m) + S m)%nat by lia.
    rewrite Nat.iter_add. apply stalled_stays. exact Ss. }
  unfold behind_shutdown in R. rewrite St in R.
  assert (G : get_authorization_code w
              = (Unfinished, shut_down (Nat.iter n slept fo)))
    by (destruct R as [(c & _ & G) | (_ & _ & G)]; exact G).
  rewrite G. cbn [fst snd].
  split; [reflexivity|]. split; [rewrite stalled_shut_down; exact St|].
  split; [rewrite trace_shut_down; apply last_snoc|].
  assert (F : (interactive_flow w).1 = Unfinished)
    by (unfold interactive_flow; rewrite try_bind, G; reflexivity).
  split; [exact F|].
  intros Fn. rewrite authenticate_without_cache by exact Fn. exact F.
Qed.

(** X19 on a redirect that comes together with a connection on which
    nothing is sent: the code is captured, and the call never returns
    it. *)
Lemma silent_connection_blocks_witness :
  (get_authorization_code silent_world).1 = Unfinished
  /\ handler_code (get_authorization_code silent_world).2 = Some "ABC123"
  /\ (authenticate silent_world).1 = Unfinished.
Proof.
  destruct (silent_connection_blocks silent_world [] 250
              [ Sends [("code", "ABC123")] ] [] []
              eq_refl eq_refl eq_refl ltac:(vm_compute; discriminate)
              eq_refl eq_refl eq_refl)
    as (G & _ & _ & _ & Au).
  split; [exact G|]. split; [vm_compute; reflexivity | exact (Au eq_refl)].
Defined.

End Window.
